(** * Lodge front-desk dashboard: credential decoder and booking aggregation

    A shallow embedding of [src/utils/authUtils.ts] (parseJwt, isTokenValid,
    the claim accessors, clearAuthToken) and of the data-derivation code of
    the two dashboards in [src/pages/AdminDashboard.tsx] (the admin
    [fetchData] and the receptionist [fetchBookings]).

    The TypeScript code leans on built-ins of the JavaScript runtime
    (String.prototype.split, atob, decodeURIComponent, JSON.parse, number
    arithmetic).  Those are modelled here after their specifications
    (ECMA-262, WHATWG forgiving-base64) so that every definition computes.
    Date parsing and time-zone handling are implementation-defined in
    ECMA-262 and stay abstract: they are Section variables of the dashboard
    model, with one concrete ISO-8601/UTC instance used for the examples. *)

From Stdlib Require Import ZArith QArith Qround Qcanon Qpower List String Ascii Lia Bool Sorted Permutation.
From stdpp Require Import base option list gmap strings.

Local Open Scope Z_scope.

Set Warnings "-register-all".

(** ** JavaScript numbers *)

Module JsNumber.

(** A JavaScript [number] is an IEEE-754 binary64 value.  The finite ones are
    kept as the rational they denote (in lowest terms); the two zeros are
    identified, which no comparison of the modelled code can tell apart. *)
Inductive number : Type :=
  | NaN
  | PosInf
  | NegInf
  | Fin (q : Q).

(** [floor_log2 n d] is the integer [e] with [2^e <= n/d < 2^(e+1)]. *)
Definition floor_log2 (n d : positive) : Z :=
  let e0 := Z.log2 (Zpos n) - Z.log2 (Zpos d) in
  let above :=
    if 0 <=? e0 then Zpos d * 2 ^ e0 <=? Zpos n
    else Zpos d <=? Zpos n * 2 ^ (- e0) in
  if above then e0 else e0 - 1.

(** Nearest integer to [p/d], ties to the even one. *)
Definition round_half_even (p : Z) (d : positive) : Z :=
  let f := p / Zpos d in
  let r := p mod Zpos d in
  match 2 * r ?= Zpos d with
  | Lt => f
  | Gt => f + 1
  | Eq => if Z.even f then f else f + 1
  end.

Definition pow2 (s : Z) : Q :=
  if 0 <=? s then inject_Z (2 ^ s) else 1 # Z.to_pos (2 ^ (- s)).

(** Round-to-nearest-even of an exact rational to binary64: 53 significant
    bits, least exponent -1074, overflow to the infinities. *)
Definition roundToDouble (q : Q) : number :=
  match Qnum q with
  | Z0 => Fin 0
  | Zpos n | Zneg n =>
      let e := floor_log2 n (Qden q) in
      let s := Z.max (e - 52) (-1074) in
      let scaled := Qred ((Zpos n # Qden q) / pow2 s) in
      let m := round_half_even (Qnum scaled) (Qden scaled) in
      let v := Qred (inject_Z m * pow2 s) in
      if Qle_bool (inject_Z (2 ^ 1024)) v
      then (if Qle_bool 0 q then PosInf else NegInf)
      else Fin (if Qle_bool 0 q then v else Qred (- v))
  end.

(** A rational is a binary64 value when rounding leaves it alone. *)
Definition representable (q : Q) : Prop :=
  exists q', roundToDouble q = Fin q' /\ (q' == q)%Q.

Definition ofZ (z : Z) : number := roundToDouble (inject_Z z).

Definition isZero (q : Q) : bool := Qeq_bool q 0.

(** [x / y] *)
Definition div (x y : number) : number :=
  match x, y with
  | NaN, _ | _, NaN => NaN
  | Fin a, Fin b =>
      if isZero b
      then (if isZero a then NaN else if Qle_bool 0 a then PosInf else NegInf)
      else roundToDouble (a / b)
  | Fin a, (PosInf | NegInf) => Fin 0
  | PosInf, Fin b => if Qle_bool 0 b then PosInf else NegInf
  | NegInf, Fin b => if Qle_bool 0 b then NegInf else PosInf
  | (PosInf | NegInf), (PosInf | NegInf) => NaN
  end.

(** [x * y] *)
Definition mul (x y : number) : number :=
  match x, y with
  | NaN, _ | _, NaN => NaN
  | Fin a, Fin b => roundToDouble (a * b)
  | Fin a, PosInf | PosInf, Fin a =>
      if isZero a then NaN else if Qle_bool 0 a then PosInf else NegInf
  | Fin a, NegInf | NegInf, Fin a =>
      if isZero a then NaN else if Qle_bool 0 a then NegInf else PosInf
  | PosInf, PosInf | NegInf, NegInf => PosInf
  | PosInf, NegInf | NegInf, PosInf => NegInf
  end.

(** [x + y] *)
Definition add (x y : number) : number :=
  match x, y with
  | NaN, _ | _, NaN => NaN
  | Fin a, Fin b => roundToDouble (a + b)
  | PosInf, NegInf | NegInf, PosInf => NaN
  | PosInf, _ | _, PosInf => PosInf
  | NegInf, _ | _, NegInf => NegInf
  end.

(** [Math.round]: the nearest integer, ties towards +infinity. *)
Definition Math_round (x : number) : number :=
  match x with
  | Fin a => Fin (inject_Z (Qfloor (a + (1 # 2))))
  | other => other
  end.

(** [x < y]; every comparison with NaN is false. *)
Definition ltb (x y : number) : bool :=
  match x, y with
  | NaN, _ | _, NaN => false
  | Fin a, Fin b => negb (Qle_bool b a)
  | NegInf, (Fin _ | PosInf) => true
  | Fin _, PosInf => true
  | _, _ => false
  end.

(** [x > y] *)
Definition gtb (x y : number) : bool := ltb y x.

(** Being an ordinary finite number: what NaN and the infinities are not. *)
Definition isFinite (x : number) : bool :=
  match x with Fin _ => true | _ => false end.

(** ToBoolean on numbers: zero and NaN are falsy. *)
Definition truthy (x : number) : bool :=
  match x with
  | NaN => false
  | Fin a => negb (isZero a)
  | _ => true
  end.

End JsNumber.

(** ** JavaScript strings *)

Module JsString.

(** A string is its sequence of UTF-16 code units. *)
Abbreviation jsstring := (list Z) (only parsing).

Definition js (s : string) : jsstring :=
  map (fun a => Z.of_N (N_of_ascii a)) (list_ascii_of_string s).

Fixpoint eqb (a b : jsstring) : bool :=
  match a, b with
  | [], [] => true
  | x :: a', y :: b' => (x =? y) && eqb a' b'
  | _, _ => false
  end.

(** [s.split(sep)] for a one-character separator. *)
Fixpoint split (sep : Z) (s : jsstring) : list jsstring :=
  match s with
  | [] => [[]]
  | c :: r =>
      if c =? sep then [] :: split sep r
      else match split sep r with
           | h :: t => (c :: h) :: t
           | [] => [[c]]
           end
  end.

(** [s.replace(/c/g, d)] for single characters [c] and [d]. *)
Definition replaceAll (c d : Z) (s : jsstring) : jsstring :=
  map (fun x => if x =? c then d else x) s.

Fixpoint startsWith (p s : jsstring) : bool :=
  match p, s with
  | [], _ => true
  | x :: p', y :: s' => (x =? y) && startsWith p' s'
  | _ :: _, [] => false
  end.

(** [s.includes(p)] *)
Fixpoint includes (s p : jsstring) : bool :=
  startsWith p s ||
  match s with
  | [] => false
  | _ :: s' => includes s' p
  end.

(** [s.slice(-n)]: the last [n] code units. *)
Definition sliceLast (n : nat) (s : jsstring) : jsstring :=
  skipn (length s - n) s.

Definition isDigit (c : Z) : bool := (48 <=? c) && (c <=? 57).

Definition hexValue (c : Z) : option Z :=
  if isDigit c then Some (c - 48)
  else if (97 <=? c) && (c <=? 102) then Some (c - 87)
  else if (65 <=? c) && (c <=? 70) then Some (c - 55)
  else None.

Definition hexChar (d : Z) : Z := if d <? 10 then 48 + d else 87 + d.

Fixpoint hexDigits (fuel : nat) (n : Z) (acc : jsstring) : jsstring :=
  match fuel with
  | O => acc
  | S fuel' =>
      let acc' := hexChar (n mod 16) :: acc in
      if n / 16 =? 0 then acc' else hexDigits fuel' (n / 16) acc'
  end.

(** [n.toString(16)] for a non-negative integer. *)
Definition toString16 (n : Z) : jsstring :=
  hexDigits (S (Z.to_nat (Z.log2 n))) n [].

Fixpoint decDigits (fuel : nat) (n : Z) (acc : jsstring) : jsstring :=
  match fuel with
  | O => acc
  | S fuel' =>
      let acc' := (48 + n mod 10) :: acc in
      if n / 10 =? 0 then acc' else decDigits fuel' (n / 10) acc'
  end.

(** Number-to-string conversion of an integer, as template literals do. *)
Definition ofInt (n : Z) : jsstring :=
  if n <? 0 then 45 :: decDigits (S (Z.to_nat (Z.log2 (- n)))) (- n) []
  else decDigits (S (Z.to_nat (Z.log2 n))) n [].

End JsString.

(** ** Base64: [atob], and the base64url encoder tokens are made with *)

Module Base64.
Import JsString.

Definition isAsciiWhitespace (c : Z) : bool :=
  (c =? 9) || (c =? 10) || (c =? 12) || (c =? 13) || (c =? 32).

(** Position of a character in the standard base64 alphabet. *)
Definition index (c : Z) : option Z :=
  if (65 <=? c) && (c <=? 90) then Some (c - 65)
  else if (97 <=? c) && (c <=? 122) then Some (c - 71)
  else if (48 <=? c) && (c <=? 57) then Some (c + 4)
  else if c =? 43 then Some 62
  else if c =? 47 then Some 63
  else None.

Fixpoint indices (s : jsstring) : option (list Z) :=
  match s with
  | [] => Some []
  | c :: r =>
      match index c, indices r with
      | Some i, Some l => Some (i :: l)
      | _, _ => None
      end
  end.

(** Groups of four sextets give three bytes; a trailing group of three gives
    two bytes and of two gives one, the spare low bits being dropped. *)
Fixpoint bytesOfSextets (l : list Z) : list Z :=
  match l with
  | a :: b :: c :: d :: r =>
      let n := a * 262144 + b * 4096 + c * 64 + d in
      n / 65536 :: (n / 256) mod 256 :: n mod 256 :: bytesOfSextets r
  | [a; b; c] =>
      let n := (a * 4096 + b * 64 + c) / 4 in
      [n / 256; n mod 256]
  | [a; b] => [(a * 64 + b) / 16]
  | _ => []
  end.

(** With a length divisible by four, one or two trailing [=] are removed. *)
Definition stripPadding (s : jsstring) : jsstring :=
  if Z.of_nat (length s) mod 4 =? 0 then
    match rev s with
    | a :: r =>
        if a =? 61 then
          match r with
          | b :: r' => if b =? 61 then rev r' else rev r
          | [] => rev r
          end
        else s
    | [] => s
    end
  else s.

(** [atob]: the forgiving-base64 decode; [None] is the InvalidCharacterError.
    The result is a binary string: one code unit below 256 per byte. *)
Definition atob (data : jsstring) : option jsstring :=
  let data := List.filter (fun c => negb (isAsciiWhitespace c)) data in
  let data := stripPadding data in
  if Z.of_nat (length data) mod 4 =? 1 then None
  else match indices data with
       | Some l => Some (bytesOfSextets l)
       | None => None
       end.

(** The encoder (RFC 4648 section 5), as the issuer of a token applies it. *)
Fixpoint sextetsOfBytes (bs : list Z) : list Z :=
  match bs with
  | a :: b :: c :: r =>
      let n := a * 65536 + b * 256 + c in
      n / 262144 :: (n / 4096) mod 64 :: (n / 64) mod 64 :: n mod 64
        :: sextetsOfBytes r
  | [a; b] =>
      let n := (a * 256 + b) * 4 in
      [n / 4096; (n / 64) mod 64; n mod 64]
  | [a] => [(a * 16) / 64; (a * 16) mod 64]
  | [] => []
  end.

Definition urlChar (i : Z) : Z :=
  if i <? 26 then 65 + i
  else if i <? 52 then 71 + i
  else if i <? 62 then i - 4
  else if i =? 62 then 45
  else 95.

Definition padding (bs : list Z) : jsstring :=
  match Z.of_nat (length bs) mod 3 with
  | 1 => [61; 61]
  | 2 => [61]
  | _ => []
  end.

(** What parseJwt's two [replace] calls make of one character. *)
Definition standardChar (c : Z) : Z :=
  let c' := if c =? 45 then 43 else c in
  if c' =? 95 then 47 else c'.

Definition byte (b : Z) : Prop := 0 <= b < 256.

Definition sextet (i : Z) : Prop := 0 <= i < 64.

(** base64url of a byte sequence, with the padding kept or (as in JWTs)
    left out. *)
Definition base64url (pad : bool) (bs : list Z) : jsstring :=
  map urlChar (sextetsOfBytes bs) ++ (if pad then padding bs else []).

End Base64.

(** ** Percent escapes and UTF-8: [decodeURIComponent] *)

Module Uri.
Import JsString.

(** The callback of parseJwt's [map]:
    ['%' + ('00' + c.charCodeAt(0).toString(16)).slice(-2)] *)
Definition escapeChar (c : Z) : jsstring :=
  37 :: sliceLast 2 (js "00" ++ toString16 c).

Inductive item : Type :=
  | Lit (c : Z)
  | Oct (b : Z).

(** First pass of decodeURIComponent: every [%] must be followed by two
    hexadecimal digits. *)
Fixpoint items (s : jsstring) : option (list item) :=
  match s with
  | [] => Some []
  | c :: r =>
      if c =? 37 then
        match r with
        | h1 :: h2 :: r' =>
            match hexValue h1, hexValue h2, items r' with
            | Some a, Some b, Some l => Some (Oct (16 * a + b) :: l)
            | _, _, _ => None
            end
        | _ => None
        end
      else
        match items r with
        | Some l => Some (Lit c :: l)
        | None => None
        end
  end.

Definition continuation (b : Z) : bool := (128 <=? b) && (b <=? 191).

(** UTF16EncodeCodePoint *)
Definition utf16 (v : Z) : jsstring :=
  if v <? 65536 then [v]
  else [55296 + (v - 65536) / 1024; 56320 + (v - 65536) mod 1024].

(** Second pass: escaped octets at or above 0x80 must form well-formed UTF-8
    (no stray continuation, no overlong form, no surrogate, nothing above
    U+10FFFF); [None] is the URIError. *)
Fixpoint decodeItems (l : list item) : option jsstring :=
  match l with
  | [] => Some []
  | Lit c :: r =>
      match decodeItems r with Some t => Some (c :: t) | None => None end
  | Oct b :: r =>
      if b <? 128 then
        match decodeItems r with Some t => Some (b :: t) | None => None end
      else if b <? 192 then None
      else if b <? 224 then
        match r with
        | Oct b1 :: r1 =>
            let v := (b - 192) * 64 + (b1 - 128) in
            if continuation b1 && (128 <=? v) then
              match decodeItems r1 with
              | Some t => Some (utf16 v ++ t)
              | None => None
              end
            else None
        | _ => None
        end
      else if b <? 240 then
        match r with
        | Oct b1 :: Oct b2 :: r2 =>
            let v := (b - 224) * 4096 + (b1 - 128) * 64 + (b2 - 128) in
            if continuation b1 && continuation b2 && (2048 <=? v)
               && negb ((55296 <=? v) && (v <=? 57343)) then
              match decodeItems r2 with
              | Some t => Some (utf16 v ++ t)
              | None => None
              end
            else None
        | _ => None
        end
      else if b <? 248 then
        match r with
        | Oct b1 :: Oct b2 :: Oct b3 :: r3 =>
            let v := (b - 240) * 262144 + (b1 - 128) * 4096
                     + (b2 - 128) * 64 + (b3 - 128) in
            if continuation b1 && continuation b2 && continuation b3
               && (65536 <=? v) && (v <=? 1114111) then
              match decodeItems r3 with
              | Some t => Some (utf16 v ++ t)
              | None => None
              end
            else None
        | _ => None
        end
      else None
  end.

Definition decodeURIComponent (s : jsstring) : option jsstring :=
  match items s with
  | Some l => decodeItems l
  | None => None
  end.

(** UTF-8 of one Unicode scalar value, and of a text given by its scalar
    values: what the issuer of a token feeds to base64url. *)
Definition utf8Char (v : Z) : list Z :=
  if v <? 128 then [v]
  else if v <? 2048 then [192 + v / 64; 128 + v mod 64]
  else if v <? 65536 then
    [224 + v / 4096; 128 + (v / 64) mod 64; 128 + v mod 64]
  else
    [240 + v / 262144; 128 + (v / 4096) mod 64; 128 + (v / 64) mod 64;
     128 + v mod 64].

Definition utf8 (text : list Z) : list Z := flat_map utf8Char text.

Definition utf16Text (text : list Z) : jsstring := flat_map utf16 text.

Definition scalar (v : Z) : Prop :=
  0 <= v <= 1114111 /\ ~ (55296 <= v <= 57343).

End Uri.

(** ** JSON values and [JSON.parse] *)

Module Json.
Import JsNumber JsString.

(** The syntax tree of a JSON text: number literals keep their exact decimal
    value, object members their order and their duplicates. *)
Inductive jtext : Type :=
  | TNull
  | TBool (b : bool)
  | TNumber (q : Q)
  | TString (s : jsstring)
  | TArray (items : list jtext)
  | TObject (members : list (jsstring * jtext)).

(** The JavaScript values JSON.parse builds. *)
Inductive jsval : Type :=
  | JNull
  | JBool (b : bool)
  | JNumber (n : number)
  | JString (s : jsstring)
  | JArray (items : list jsval)
  | JObject (members : list (jsstring * jsval)).

Definition isWhitespace (c : Z) : bool :=
  (c =? 9) || (c =? 10) || (c =? 13) || (c =? 32).

Fixpoint skipWs (s : jsstring) : jsstring :=
  match s with
  | c :: r => if isWhitespace c then skipWs r else s
  | [] => []
  end.

Fixpoint stripPrefix (p s : jsstring) : option jsstring :=
  match p, s with
  | [], _ => Some s
  | x :: p', y :: s' => if x =? y then stripPrefix p' s' else None
  | _ :: _, [] => None
  end.

(** The characters of a string literal after its opening quote, up to the
    closing one. *)
Fixpoint parseString (s : jsstring) : option (jsstring * jsstring) :=
  match s with
  | [] => None
  | c :: r =>
      if c =? 34 then Some ([], r)
      else if c =? 92 then
        match r with
        | [] => None
        | e :: r1 =>
            let simple (x : Z) :=
              match parseString r1 with
              | Some (t, rest) => Some (x :: t, rest)
              | None => None
              end in
            if e =? 34 then simple 34
            else if e =? 92 then simple 92
            else if e =? 47 then simple 47
            else if e =? 98 then simple 8
            else if e =? 102 then simple 12
            else if e =? 110 then simple 10
            else if e =? 114 then simple 13
            else if e =? 116 then simple 9
            else if e =? 117 then
              match r1 with
              | h1 :: h2 :: h3 :: h4 :: r2 =>
                  match hexValue h1, hexValue h2, hexValue h3, hexValue h4,
                        parseString r2 with
                  | Some a, Some b, Some c', Some d, Some (t, rest) =>
                      Some (a * 4096 + b * 256 + c' * 16 + d :: t, rest)
                  | _, _, _, _, _ => None
                  end
              | _ => None
              end
            else None
        end
      else if c <? 32 then None
      else
        match parseString r with
        | Some (t, rest) => Some (c :: t, rest)
        | None => None
        end
  end.

Fixpoint digits (s : jsstring) : jsstring * jsstring :=
  match s with
  | c :: r =>
      if isDigit c then let (d, rest) := digits r in (c :: d, rest)
      else ([], s)
  | [] => ([], [])
  end.

Definition digitsValue (d : jsstring) : Z :=
  fold_left (fun acc c => acc * 10 + (c - 48)) d 0.

(** The exact value of a decimal literal: mantissa digits and power of ten. *)
Definition decimal (neg : bool) (mant : jsstring) (e10 : Z) : Q :=
  let m := if neg then - digitsValue mant else digitsValue mant in
  if 0 <=? e10 then inject_Z (m * 10 ^ e10)
  else m # Z.to_pos (10 ^ (- e10)).

(** A number literal: an optional minus sign; a single 0 or a nonzero digit
    followed by digits; optionally a dot with at least one digit; optionally
    e or E, a sign, and at least one digit. *)
Definition parseNumber (s : jsstring) : option (Q * jsstring) :=
  let (neg, s1) :=
    match s with
    | c :: r => if c =? 45 then (true, r) else (false, s)
    | [] => (false, s)
    end in
  let intPart :=
    match s1 with
    | c :: r =>
        if c =? 48 then Some ([48], r)
        else if isDigit c then Some (digits s1)
        else None
    | [] => None
    end in
  match intPart with
  | None => None
  | Some (ip, s2) =>
      let fracPart :=
        match s2 with
        | c :: r =>
            if c =? 46 then
              match digits r with
              | ([], _) => None
              | (fp, s3) => Some (fp, s3)
              end
            else Some ([], s2)
        | [] => Some ([], s2)
        end in
      match fracPart with
      | None => None
      | Some (fp, s3) =>
          let expPart :=
            match s3 with
            | c :: r =>
                if (c =? 101) || (c =? 69) then
                  let (eneg, r1) :=
                    match r with
                    | g :: r' =>
                        if g =? 45 then (true, r')
                        else if g =? 43 then (false, r')
                        else (false, r)
                    | [] => (false, r)
                    end in
                  match digits r1 with
                  | ([], _) => None
                  | (ep, s4) =>
                      Some (if eneg then - digitsValue ep else digitsValue ep,
                            s4)
                  end
                else Some (0, s3)
            | [] => Some (0, s3)
            end in
          match expPart with
          | None => None
          | Some (ex, s4) =>
              Some (decimal neg (ip ++ fp) (ex - Z.of_nat (length fp)), s4)
          end
      end
  end.

(** One JSON value, with leading white space.  Every recursive call is on a
    strictly shorter input, so fuel above the length of the input is never
    exhausted. *)
Fixpoint parseValue (fuel : nat) (s : jsstring) : option (jtext * jsstring) :=
  match fuel with
  | O => None
  | S fuel' =>
      match skipWs s with
      | [] => None
      | c :: r =>
          if c =? 34 then
            match parseString r with
            | Some (str, rest) => Some (TString str, rest)
            | None => None
            end
          else if c =? 91 then
            match skipWs r with
            | [] => None
            | d :: r1 =>
                if d =? 93 then Some (TArray [], r1)
                else
                  match parseValue fuel' r with
                  | Some (v, rest) => parseElements fuel' rest [v]
                  | None => None
                  end
            end
          else if c =? 123 then
            match skipWs r with
            | [] => None
            | d :: r1 =>
                if d =? 125 then Some (TObject [], r1)
                else if d =? 34 then parseMember fuel' r1 []
                else None
            end
          else
            match stripPrefix (js "null") (c :: r),
                  stripPrefix (js "true") (c :: r),
                  stripPrefix (js "false") (c :: r) with
            | Some rest, _, _ => Some (TNull, rest)
            | _, Some rest, _ => Some (TBool true, rest)
            | _, _, Some rest => Some (TBool false, rest)
            | None, None, None =>
                match parseNumber (c :: r) with
                | Some (q, rest) => Some (TNumber q, rest)
                | None => None
                end
            end
      end
  end

(** The rest of an array after an element: [, value ...] or the bracket. *)
with parseElements (fuel : nat) (s : jsstring) (acc : list jtext)
  : option (jtext * jsstring) :=
  match fuel with
  | O => None
  | S fuel' =>
      match skipWs s with
      | [] => None
      | c :: r =>
          if c =? 93 then Some (TArray (rev acc), r)
          else if c =? 44 then
            match parseValue fuel' r with
            | Some (v, rest) => parseElements fuel' rest (v :: acc)
            | None => None
            end
          else None
      end
  end

(** A member after its opening quote: the key up to its closing quote, a
    colon and a value; then a comma and the next member, or the brace. *)
with parseMember (fuel : nat) (s : jsstring) (acc : list (jsstring * jtext))
  : option (jtext * jsstring) :=
  match fuel with
  | O => None
  | S fuel' =>
      match parseString s with
      | None => None
      | Some (k, s1) =>
          match skipWs s1 with
          | [] => None
          | c :: r =>
              if c =? 58 then
                match parseValue fuel' r with
                | None => None
                | Some (v, s2) =>
                    match skipWs s2 with
                    | [] => None
                    | d :: r2 =>
                        if d =? 125 then Some (TObject (rev ((k, v) :: acc)), r2)
                        else if d =? 44 then
                          match skipWs r2 with
                          | [] => None
                          | q :: r3 =>
                              if q =? 34
                              then parseMember fuel' r3 ((k, v) :: acc)
                              else None
                          end
                        else None
                    end
                end
              else None
          end
      end
  end.

(** A whole JSON text: one value and nothing but white space after it. *)
Definition parseText (s : jsstring) : option jtext :=
  match parseValue (S (length s)) s with
  | Some (v, rest) =>
      match skipWs rest with
      | [] => Some v
      | _ :: _ => None
      end
  | None => None
  end.

(** Number literals become the nearest binary64 value. *)
Fixpoint valueOf (t : jtext) : jsval :=
  match t with
  | TNull => JNull
  | TBool b => JBool b
  | TNumber q => JNumber (roundToDouble q)
  | TString s => JString s
  | TArray l => JArray (map valueOf l)
  | TObject l => JObject (map (fun kv => (fst kv, valueOf (snd kv))) l)
  end.

(** [JSON.parse]; [None] is the SyntaxError. *)
Definition JSON_parse (s : jsstring) : option jsval :=
  match parseText s with
  | Some t => Some (valueOf t)
  | None => None
  end.

(** A member written twice keeps its last value. *)
Fixpoint lastMember {A : Type} (k : jsstring) (l : list (jsstring * A))
  : option A :=
  match l with
  | [] => None
  | (k', v) :: r =>
      match lastMember k r with
      | Some v' => Some v'
      | None => if JsString.eqb k k' then Some v else None
      end
  end.

(** [v.k] for the property names the code reads (exp, role, id, username):
    an own member of an object; [None] is undefined, also on values that are
    not objects, whose prototypes define none of these names. *)
Definition getProp (v : jsval) (k : jsstring) : option jsval :=
  match v with
  | JObject l => lastMember k l
  | _ => None
  end.

(** ToBoolean *)
Definition truthy (v : jsval) : bool :=
  match v with
  | JNull => false
  | JBool b => b
  | JNumber n => JsNumber.truthy n
  | JString s => match s with [] => false | _ :: _ => true end
  | JArray _ | JObject _ => true
  end.

End Json.

(** ** src/utils/authUtils.ts *)

Module AuthUtils.
Import JsNumber JsString Json.

(** [parseJwt].  Each step that can throw is an [option]; the [catch] turns
    every failure into [null], which is also what JSON.parse returns for the
    text [null]: both are [JNull].  The second element of [split] is
    undefined when the token has no dot, and calling [replace] on it throws. *)
Definition parseJwt (token : jsstring) : jsval :=
  let attempt : option jsval :=
    base64Url ← split 46 token !! 1%nat;
    let base64 := replaceAll 95 47 (replaceAll 45 43 base64Url) in
    binary ← Base64.atob base64;
    jsonPayload ← Uri.decodeURIComponent (flat_map Uri.escapeChar binary);
    JSON_parse jsonPayload in
  default JNull attempt.

(** [Date.now() / 1000] *)
Definition currentTime (now : Z) : number := div (ofZ now) (ofZ 1000).

Section Validity.

(** ToNumber of a string, an array or an object goes through the runtime's
    string-to-number grammar and ToPrimitive; it is left to the runtime
    ([None] when it throws, as for an object whose own toString and valueOf
    members mask the inherited methods). *)
Variable toNumberOther : jsval -> option number.

Definition toNumber (v : option jsval) : option number :=
  match v with
  | None => Some NaN
  | Some JNull => Some (Fin 0)
  | Some (JBool b) => Some (Fin (if b then 1 else 0))
  | Some (JNumber n) => Some n
  | Some other => toNumberOther other
  end.

(** [isTokenValid], with [now] the reading of [Date.now()]; a coercion that
    throws is caught and gives [false]. *)
Definition isTokenValid (token : jsstring) (now : Z) : bool :=
  let decoded := parseJwt token in
  if negb (truthy decoded) then false
  else
    match toNumber (getProp decoded (js "exp")) with
    | Some e => gtb e (currentTime now)
    | None => false
    end.

End Validity.

(** [x || null] on a possibly undefined [x]. *)
Definition orNull (x : option jsval) : jsval :=
  match x with
  | Some v => if truthy v then v else JNull
  | None => JNull
  end.

(** The three accessors have one body and differ in the field they project.
    They read [localStorage], a map from keys to strings; a missing entry
    and an empty token both fail the [!token] test, and the result is
    [decoded?.field || null]. *)
Definition accessor (field : string) (localStorage : gmap string jsstring)
  : jsval :=
  match localStorage !! "authToken"%string with
  | None => JNull
  | Some [] => JNull
  | Some token => orNull (getProp (parseJwt token) (js field))
  end.

Definition getUserRoleFromToken := accessor "role".
Definition getUserIdFromToken := accessor "id".
Definition getUsername := accessor "username".

Definition clearAuthToken (localStorage : gmap string jsstring)
  : gmap string jsstring :=
  delete "authToken"%string localStorage.

End AuthUtils.

(** ** src/pages/AdminDashboard.tsx: the data the dashboards work on *)

Module Room.
Import JsString.
Record t : Type := mk {
  id : Z;
  roomNumber : jsstring;
  status : jsstring;
  floor : Z;
  specialFeatures : jsstring;
  lastCleanedAt : jsstring
}.
End Room.

Module Booking.
Import JsNumber JsString.
Record t : Type := mk {
  id : Z;
  room : Room.t;
  guestName : jsstring;
  email : jsstring;
  phoneNumber : jsstring;
  type : jsstring;
  date : jsstring;
  startTime : jsstring;
  durationHours : number;
  actualCheckIn : option jsstring;
  actualCheckOut : option jsstring;
  bookingCode : jsstring;
  status : jsstring;
  totalCharges : number;
  scheduledCheckOut : jsstring;
  scheduledCheckIn : jsstring
}.
End Booking.

Module UpcomingCheckout.
Import JsString.
Record t : Type := mk {
  bookingCode : jsstring;
  guestName : jsstring;
  roomNumber : jsstring;
  remainingTime : jsstring
}.
End UpcomingCheckout.

(** The object the first [map] of the checkout pipeline builds: an
    UpcomingCheckout together with [remainingMs] ([None] is NaN, the
    difference taken from an invalid date). *)
Module CheckoutEntry.
Import JsString.
Record t : Type := mk {
  bookingCode : jsstring;
  guestName : jsstring;
  roomNumber : jsstring;
  remainingTime : jsstring;
  remainingMs : option Z
}.
End CheckoutEntry.

Module DailySummary.
Import JsNumber.
Record t : Type := mk {
  checkIns : nat;
  checkOuts : nat;
  revenue : number;
  occupancyRate : number;
  pendingPayments : nat
}.
End DailySummary.

Module TaskCount.
Record t : Type := mk {
  checkIns : nat;
  checkOuts : nat;
  reservations : nat;
  roomInspections : Z
}.
End TaskCount.

(** ** The derivations of [fetchData] (admin) and [fetchBookings]
    (receptionist) *)

Module Dashboard.
Import JsNumber JsString.

Section Runtime.

(** [new Date(s).getTime()]: the time value in milliseconds, [None] for an
    invalid date (NaN). *)
Variable Date_parse : jsstring -> option Z.

(** The time value after [setHours(0, 0, 0, 0)]: local midnight of the
    same day. *)
Variable startOfDay : Z -> Z.

(** [new Date(t).toISOString()] *)
Variable toISOString : Z -> jsstring.

Definition hasStatus (s : string) (b : Booking.t) : bool :=
  JsString.eqb (Booking.status b) (js s).

(** [bookingsData.filter(b => b.status === "CHECKED_IN")] *)
Definition checkedInBookings (bookingsData : list Booking.t)
  : list Booking.t :=
  List.filter (hasStatus "CHECKED_IN") bookingsData.

(** [`${hoursRemaining}hr ${minutesRemaining}min`].  The quotients are
    those of the exact integers, which is what the floating-point
    operations give on every entry that passes the window filter. *)
Definition formatRemaining (timeDiff : option Z) : jsstring :=
  match timeDiff with
  | None => js "NaNhr NaNmin"
  | Some d =>
      let hoursRemaining := d / (1000 * 60 * 60) in
      let minutesRemaining := Z.rem d (1000 * 60 * 60) / (1000 * 60) in
      ofInt hoursRemaining ++ js "hr " ++ ofInt minutesRemaining ++ js "min"
  end.

(** The callback of the first [map]; [now] is its own [new Date()]. *)
Definition toEntry (now : Z) (booking : Booking.t) : CheckoutEntry.t :=
  let timeDiff :=
    match Date_parse (Booking.scheduledCheckOut booking) with
    | Some checkoutTime => Some (checkoutTime - now)
    | None => None
    end in
  {| CheckoutEntry.bookingCode := Booking.bookingCode booking;
     CheckoutEntry.guestName := Booking.guestName booking;
     CheckoutEntry.roomNumber := Room.roomNumber (Booking.room booking);
     CheckoutEntry.remainingTime := formatRemaining timeDiff;
     CheckoutEntry.remainingMs := timeDiff |}.

(** The callback reads the clock afresh for each booking: the [i]-th call
    sees [clock i]. *)
Fixpoint mapClock (clock : nat -> Z) (i : nat) (l : list Booking.t)
  : list CheckoutEntry.t :=
  match l with
  | [] => []
  | b :: r => toEntry (clock i) b :: mapClock clock (S i) r
  end.

(** [remainingMs > 0 && remainingMs <= windowMs]; false on NaN. *)
Definition inWindow (windowMs : Z) (c : CheckoutEntry.t) : bool :=
  match CheckoutEntry.remainingMs c with
  | Some d => (0 <? d) && (d <=? windowMs)
  | None => false
  end.

(** The comparator [(a, b) => a.remainingMs - b.remainingMs] is not
    positive: [a] may stay before [b].  A NaN difference counts as zero. *)
Definition notAfter (a b : CheckoutEntry.t) : bool :=
  match CheckoutEntry.remainingMs a, CheckoutEntry.remainingMs b with
  | Some x, Some y => x - y <=? 0
  | _, _ => true
  end.

Fixpoint insert (a : CheckoutEntry.t) (l : list CheckoutEntry.t)
  : list CheckoutEntry.t :=
  match l with
  | [] => [a]
  | b :: r => if notAfter a b then a :: b :: r else b :: insert a r
  end.

(** [Array.prototype.sort] is a stable sort; with a consistent comparator
    its result is the one of stable insertion. *)
Definition sort (l : list CheckoutEntry.t) : list CheckoutEntry.t :=
  fold_right insert [] l.

(** The pipeline up to [slice], for a window and a limit. *)
Definition rankedWithin (windowMs : Z) (limit : nat) (clock : nat -> Z)
    (bookingsData : list Booking.t) : list CheckoutEntry.t :=
  firstn limit
    (sort (List.filter (inWindow windowMs)
             (mapClock clock 0 (checkedInBookings bookingsData)))).

Definition project (c : CheckoutEntry.t) : UpcomingCheckout.t :=
  {| UpcomingCheckout.bookingCode := CheckoutEntry.bookingCode c;
     UpcomingCheckout.guestName := CheckoutEntry.guestName c;
     UpcomingCheckout.roomNumber := CheckoutEntry.roomNumber c;
     UpcomingCheckout.remainingTime := CheckoutEntry.remainingTime c |}.

(** [upcomingCheckoutsList], lines 114-135 of fetchData and, letter for
    letter, lines 469-490 of fetchBookings: the window is two hours and
    the limit three, both written in place. *)
Definition upcomingCheckoutsList (clock : nat -> Z)
    (bookingsData : list Booking.t) : list UpcomingCheckout.t :=
  map project (rankedWithin (2 * 60 * 60 * 1000) 3 clock bookingsData).

(** *** Admin: today's summary *)

(** [d = new Date(s); d.setHours(0,0,0,0); d.getTime() === today.getTime()];
    an invalid date has the time value NaN, equal to nothing. *)
Definition onDay (today : Z) (s : jsstring) : bool :=
  match Date_parse s with
  | Some t => startOfDay t =? today
  | None => false
  end.

Definition todayCheckIns (today : Z) (bookingsData : list Booking.t) : nat :=
  length (List.filter (fun booking =>
                         onDay today (Booking.scheduledCheckIn booking))
            bookingsData).

Definition todayCheckOuts (today : Z) (bookingsData : list Booking.t) : nat :=
  length (List.filter (fun booking =>
                         onDay today (Booking.scheduledCheckOut booking))
            bookingsData).

Definition todayRevenue (today : Z) (bookingsData : list Booking.t)
  : number :=
  fold_left (fun sum booking => add sum (Booking.totalCharges booking))
    (List.filter (fun booking =>
                    onDay today (Booking.scheduledCheckIn booking))
       bookingsData)
    (Fin 0).

Definition ofNat (n : nat) : number := ofZ (Z.of_nat n).

(** [Math.round((occupiedRooms / totalRooms) * 100)] *)
Definition occupancyRate (bookingsData : list Booking.t)
    (roomsData : list Room.t) : number :=
  let totalRooms := length roomsData in
  let occupiedRooms :=
    length (List.filter (hasStatus "CHECKED_IN") bookingsData) in
  Math_round (mul (div (ofNat occupiedRooms) (ofNat totalRooms)) (ofZ 100)).

Definition pendingPayments (bookingsData : list Booking.t) : nat :=
  length (List.filter (hasStatus "RESERVED") bookingsData).

(** The record handed to [setDailySummary]; [now] is the reading of the
    clock by [const today = new Date()]. *)
Definition dailySummary (now : Z) (bookingsData : list Booking.t)
    (roomsData : list Room.t) : DailySummary.t :=
  let today := startOfDay now in
  {| DailySummary.checkIns := todayCheckIns today bookingsData;
     DailySummary.checkOuts := todayCheckOuts today bookingsData;
     DailySummary.revenue := todayRevenue today bookingsData;
     DailySummary.occupancyRate := occupancyRate bookingsData roomsData;
     DailySummary.pendingPayments := pendingPayments bookingsData |}.

(** *** Receptionist: task counts *)

(** [new Date().toISOString().split('T')[0]] *)
Definition isoDay (now : Z) : jsstring :=
  nth 0 (split 84 (toISOString now)) [].

(** The record handed to [setTaskCounts]. *)
Definition taskCounts (now : Z) (data : list Booking.t) : TaskCount.t :=
  let today := isoDay now in
  let checkIns :=
    length (List.filter (fun b =>
              includes (Booking.scheduledCheckIn b) today
              && hasStatus "RESERVED" b) data) in
  let checkOuts :=
    length (List.filter (fun b =>
              includes (Booking.scheduledCheckOut b) today
              && hasStatus "CHECKED_IN" b) data) in
  let reservations := length (List.filter (hasStatus "RESERVED") data) in
  {| TaskCount.checkIns := checkIns;
     TaskCount.checkOuts := checkOuts;
     TaskCount.reservations := reservations;
     TaskCount.roomInspections := 4 |}.

End Runtime.

End Dashboard.

(** ** One runtime, for the examples: dates in ISO format, UTC as local zone *)

Module IsoUtc.
Import JsString.

(** Days since 1970-01-01 of a date of the proleptic Gregorian calendar. *)
Definition daysFromCivil (y m d : Z) : Z :=
  let y' := if m <=? 2 then y - 1 else y in
  let era := y' / 400 in
  let yoe := y' - era * 400 in
  let doy := (153 * (if 2 <? m then m - 3 else m + 9) + 2) / 5 + d - 1 in
  let doe := yoe * 365 + yoe / 4 - yoe / 100 + doy in
  era * 146097 + doe - 719468.

Definition civilFromDays (z : Z) : Z * Z * Z :=
  let z' := z + 719468 in
  let era := z' / 146097 in
  let doe := z' - era * 146097 in
  let yoe := (doe - doe / 1460 + doe / 36524 - doe / 146096) / 365 in
  let doy := doe - (365 * yoe + yoe / 4 - yoe / 100) in
  let mp := (5 * doy + 2) / 153 in
  let d := doy - (153 * mp + 2) / 5 + 1 in
  let m := if mp <? 10 then mp + 3 else mp - 9 in
  (if m <=? 2 then yoe + era * 400 + 1 else yoe + era * 400, m, d).

Definition daysInMonth (y m : Z) : Z :=
  if m =? 2 then
    (if ((y mod 4 =? 0) && negb (y mod 100 =? 0)) || (y mod 400 =? 0)
     then 29 else 28)
  else if (m =? 4) || (m =? 6) || (m =? 9) || (m =? 11) then 30
  else 31.

Definition number2 (a b : Z) : option Z :=
  if isDigit a && isDigit b then Some ((a - 48) * 10 + (b - 48)) else None.

(** Time value of [YYYY-MM-DDTHH:mm:ss]; anything else is an invalid date. *)
Definition Date_parse (s : jsstring) : option Z :=
  match s with
  | [y1; y2; y3; y4; p1; m1; m2; p2; d1; d2; sep; h1; h2; c1; n1; n2; c2;
     s1; s2] =>
      if (p1 =? 45) && (p2 =? 45) && (sep =? 84) && (c1 =? 58) && (c2 =? 58)
      then
        match number2 y1 y2, number2 y3 y4, number2 m1 m2, number2 d1 d2,
              number2 h1 h2, number2 n1 n2, number2 s1 s2 with
        | Some yh, Some yl, Some m, Some d, Some h, Some n, Some sec =>
            let y := yh * 100 + yl in
            if (1 <=? m) && (m <=? 12) && (1 <=? d) && (d <=? daysInMonth y m)
               && (h <=? 23) && (n <=? 59) && (sec <=? 59)
            then Some (daysFromCivil y m d * 86400000
                       + h * 3600000 + n * 60000 + sec * 1000)
            else None
        | _, _, _, _, _, _, _ => None
        end
      else None
  | _ => None
  end.

Definition startOfDay (t : Z) : Z := t - t mod 86400000.

Definition pad (width : nat) (n : Z) : jsstring :=
  sliceLast width (repeat 48 width ++ ofInt n).

(** [YYYY-MM-DDTHH:mm:ss.sssZ], for the years 0000 to 9999. *)
Definition toISOString (t : Z) : jsstring :=
  let '(y, m, d) := civilFromDays (t / 86400000) in
  let ms := t mod 86400000 in
  pad 4 y ++ [45] ++ pad 2 m ++ [45] ++ pad 2 d ++ [84]
    ++ pad 2 (ms / 3600000) ++ [58] ++ pad 2 (ms / 60000 mod 60) ++ [58]
    ++ pad 2 (ms / 1000 mod 60) ++ [46] ++ pad 3 (ms mod 1000) ++ [90].

End IsoUtc.

(** ** Data for the examples *)

Module Examples.
Import JsNumber JsString.

(** JSON texts are written with an apostrophe standing for each double
    quote. *)
Definition jsq (s : string) : jsstring := replaceAll 39 34 (js s).

Definition room101 : Room.t :=
  {| Room.id := 1; Room.roomNumber := js "101"; Room.status := js "OCCUPIED";
     Room.floor := 1; Room.specialFeatures := []; Room.lastCleanedAt := [] |}.

Definition booking (code status checkIn checkOut : string) (charges : Z)
  : Booking.t :=
  {| Booking.id := 1; Booking.room := room101;
     Booking.guestName := js "Guest"; Booking.email := [];
     Booking.phoneNumber := []; Booking.type := js "HOURLY";
     Booking.date := []; Booking.startTime := [];
     Booking.durationHours := Fin 2;
     Booking.actualCheckIn := None; Booking.actualCheckOut := None;
     Booking.bookingCode := js code; Booking.status := js status;
     Booking.totalCharges := ofZ charges;
     Booking.scheduledCheckOut := js checkOut;
     Booking.scheduledCheckIn := js checkIn |}.

(** 2024-05-01T10:00:00Z *)
Definition now0 : Z := 1714557600000.

(** The token of the specification's end-to-end scenario; its payload is
    [{'id':'1','role':'ADMIN','exp':9999999999}]. *)
Definition adminToken : jsstring :=
  js "a.eyJpZCI6IjEiLCJyb2xlIjoiQURNSU4iLCJleHAiOjk5OTk5OTk5OTl9.sig".

(** A token whose payload is [{'role':'','username':''}]. *)
Definition blankToken : jsstring :=
  js "a.eyJyb2xlIjoiIiwidXNlcm5hbWUiOiIifQ.sig".

Definition noCoercion (v : Json.jsval) : option number := Some NaN.

End Examples.

(** ** The daily counts as the specification words them *)

Module Stated.
Import JsString Dashboard.

Section Runtime.

Variable Date_parse : jsstring -> option Z.
Variable startOfDay : Z -> Z.

(** Check-ins: scheduled to check in today and of status reserved. *)
Definition checkIns (now : Z) (bookings : list Booking.t) : nat :=
  length (List.filter (fun b =>
            onDay Date_parse startOfDay (startOfDay now)
              (Booking.scheduledCheckIn b)
            && hasStatus "RESERVED" b) bookings).

(** Check-outs: scheduled to check out today and of status checked-in. *)
Definition checkOuts (now : Z) (bookings : list Booking.t) : nat :=
  length (List.filter (fun b =>
            onDay Date_parse startOfDay (startOfDay now)
              (Booking.scheduledCheckOut b)
            && hasStatus "CHECKED_IN" b) bookings).

(** A time string falls on the day of [now]. *)
Definition fallsOnDay (now : Z) (s : jsstring) : Prop :=
  exists t, Date_parse s = Some t /\ startOfDay t = startOfDay now.

End Runtime.

(** An entry whose remaining time is a number in the window (0, windowMs]. *)
Definition remainingWithin (windowMs : Z) (c : CheckoutEntry.t) : Prop :=
  exists d, CheckoutEntry.remainingMs c = Some d /\ 0 < d <= windowMs.

(** [a] has no more time left than [b]. *)
Definition notLater (a b : CheckoutEntry.t) : Prop :=
  exists x y,
    CheckoutEntry.remainingMs a = Some x
    /\ CheckoutEntry.remainingMs b = Some y /\ x <= y.

(** The same booking under another status. *)
Definition withStatus (status : jsstring) (b : Booking.t) : Booking.t :=
  {| Booking.id := Booking.id b; Booking.room := Booking.room b;
     Booking.guestName := Booking.guestName b; Booking.email := Booking.email b;
     Booking.phoneNumber := Booking.phoneNumber b;
     Booking.type := Booking.type b; Booking.date := Booking.date b;
     Booking.startTime := Booking.startTime b;
     Booking.durationHours := Booking.durationHours b;
     Booking.actualCheckIn := Booking.actualCheckIn b;
     Booking.actualCheckOut := Booking.actualCheckOut b;
     Booking.bookingCode := Booking.bookingCode b; Booking.status := status;
     Booking.totalCharges := Booking.totalCharges b;
     Booking.scheduledCheckOut := Booking.scheduledCheckOut b;
     Booking.scheduledCheckIn := Booking.scheduledCheckIn b |}.

End Stated.

(** ** The components' state and handlers *)

Module Toast.
Import JsString.
Record t : Type := mk {
  title : jsstring;
  description : jsstring;
  variant : option jsstring
}.
End Toast.

(** The outcome of [fetch(url)] followed by the [ok] test and [json()]:
    [Some data] when the response is ok and its body parses, [None] when the
    request is rejected, the response is not ok or the body does not parse;
    each of the three throws into the handler's [catch]. *)

Module AdminDashboard.
Import JsNumber JsString Dashboard.

Record State : Type := mkState {
  activeTab : jsstring;
  upcomingCheckouts : list UpcomingCheckout.t;
  rooms : list Room.t;
  dailySummary : DailySummary.t;
  loading : bool
}.

(** The [useState] initial values. *)
Definition initial : State :=
  {| activeTab := js "overview";
     upcomingCheckouts := [];
     rooms := [];
     dailySummary :=
       {| DailySummary.checkIns := 0; DailySummary.checkOuts := 0;
          DailySummary.revenue := Fin 0; DailySummary.occupancyRate := Fin 0;
          DailySummary.pendingPayments := 0 |};
     loading := true |}.

Definition loadError : Toast.t :=
  {| Toast.title := js "Error";
     Toast.description := js "Failed to load dashboard data";
     Toast.variant := Some (js "destructive") |}.

Section Runtime.

Variable Date_parse : jsstring -> option Z.
Variable startOfDay : Z -> Z.

(** One run of [fetchData] from state [st]: the state after its [finally]
    and the toast it raised, if any.  [setRooms] comes before the bookings
    are requested, so it is kept when that request fails. *)
Definition fetchData (roomsResponse : option (list Room.t))
    (bookingsResponse : option (list Booking.t)) (clock : nat -> Z) (now : Z)
    (st : State) : State * option Toast.t :=
  match roomsResponse with
  | None =>
      ({| activeTab := activeTab st;
          upcomingCheckouts := upcomingCheckouts st;
          rooms := rooms st;
          dailySummary := dailySummary st;
          loading := false |}, Some loadError)
  | Some roomsData =>
      match bookingsResponse with
      | None =>
          ({| activeTab := activeTab st;
              upcomingCheckouts := upcomingCheckouts st;
              rooms := roomsData;
              dailySummary := dailySummary st;
              loading := false |}, Some loadError)
      | Some bookingsData =>
          ({| activeTab := activeTab st;
              upcomingCheckouts :=
                upcomingCheckoutsList Date_parse clock bookingsData;
              rooms := roomsData;
              dailySummary :=
                Dashboard.dailySummary Date_parse startOfDay now bookingsData
                  roomsData;
              loading := false |}, None)
      end
  end.

End Runtime.

End AdminDashboard.

Module ReceptionistDashboard.
Import JsNumber JsString Dashboard.

Record State : Type := mkState {
  activeTab : jsstring;
  showAssignForm : bool;
  showBookingForm : bool;
  showCheckInForm : bool;
  taskCounts : TaskCount.t;
  upcomingCheckouts : list UpcomingCheckout.t;
  loading : bool
}.

Definition initial : State :=
  {| activeTab := js "dashboard";
     showAssignForm := false;
     showBookingForm := false;
     showCheckInForm := false;
     taskCounts :=
       {| TaskCount.checkIns := 0; TaskCount.checkOuts := 0;
          TaskCount.reservations := 0; TaskCount.roomInspections := 0 |};
     upcomingCheckouts := [];
     loading := true |}.

Definition loadError : Toast.t :=
  {| Toast.title := js "Error";
     Toast.description := js "Failed to load dashboard data";
     Toast.variant := Some (js "destructive") |}.

Definition checkoutSuccess : Toast.t :=
  {| Toast.title := js "Success";
     Toast.description := js "Guest checked out successfully";
     Toast.variant := None |}.

Definition checkoutError : Toast.t :=
  {| Toast.title := js "Error";
     Toast.description := js "Failed to process checkout";
     Toast.variant := Some (js "destructive") |}.

(** The three quick-action buttons and the forms' [onComplete] callbacks. *)
Inductive FormEvent : Type :=
  | OpenAssign
  | OpenBooking
  | OpenCheckIn
  | CompleteAssign
  | CompleteBooking
  | CompleteCheckIn.

Definition withForms (assign booking checkIn : bool) (st : State) : State :=
  {| activeTab := activeTab st;
     showAssignForm := assign;
     showBookingForm := booking;
     showCheckInForm := checkIn;
     taskCounts := taskCounts st;
     upcomingCheckouts := upcomingCheckouts st;
     loading := loading st |}.

Definition onForm (e : FormEvent) (st : State) : State :=
  match e with
  | OpenAssign => withForms true false false st
  | OpenBooking => withForms false true false st
  | OpenCheckIn => withForms false false true st
  | CompleteAssign =>
      withForms false (showBookingForm st) (showCheckInForm st) st
  | CompleteBooking =>
      withForms (showAssignForm st) false (showCheckInForm st) st
  | CompleteCheckIn =>
      withForms (showAssignForm st) (showBookingForm st) false st
  end.

(** [setActiveTab], handed to the tabs as [onValueChange]. *)
Definition setActiveTab (value : jsstring) (st : State) : State :=
  {| activeTab := value;
     showAssignForm := showAssignForm st;
     showBookingForm := showBookingForm st;
     showCheckInForm := showCheckInForm st;
     taskCounts := taskCounts st;
     upcomingCheckouts := upcomingCheckouts st;
     loading := loading st |}.

(** [upcomingCheckouts.filter(checkout => checkout.bookingCode !== bookingCode)] *)
Definition withoutBooking (bookingCode : jsstring)
    (upcomingCheckouts : list UpcomingCheckout.t) : list UpcomingCheckout.t :=
  List.filter
    (fun checkout =>
       negb (JsString.eqb (UpcomingCheckout.bookingCode checkout) bookingCode))
    upcomingCheckouts.

(** [handleCheckout] from its [await] on: [response] is [Some ok] when the
    POST is answered and [None] when it is rejected.  Before the [await]
    the handler sets nothing.  The list it filters is [captured]: the
    [upcomingCheckouts] its closure holds, which is the state of the render
    whose button was clicked, not the state at the time of the answer. *)
Definition handleCheckout (bookingCode : jsstring) (response : option bool)
    (captured : list UpcomingCheckout.t) (st : State) : State * Toast.t :=
  match response with
  | Some true =>
      ({| activeTab := activeTab st;
          showAssignForm := showAssignForm st;
          showBookingForm := showBookingForm st;
          showCheckInForm := showCheckInForm st;
          taskCounts := taskCounts st;
          upcomingCheckouts := withoutBooking bookingCode captured;
          loading := loading st |}, checkoutSuccess)
  | _ => (st, checkoutError)
  end.

(** The Check-out button of a booking is rendered when the loading
    placeholder is not (line 665) and the list has an entry with that code
    (line 709). *)
Definition checkoutShown (bookingCode : jsstring) (st : State) : bool :=
  negb (loading st)
  && existsb
       (fun checkout =>
          JsString.eqb (UpcomingCheckout.bookingCode checkout) bookingCode)
       (upcomingCheckouts st).

(** [fetchBookings] up to its first [await]: [setLoading(true)]. *)
Definition fetchBookings_begin (st : State) : State :=
  {| activeTab := activeTab st;
     showAssignForm := showAssignForm st;
     showBookingForm := showBookingForm st;
     showCheckInForm := showCheckInForm st;
     taskCounts := taskCounts st;
     upcomingCheckouts := upcomingCheckouts st;
     loading := true |}.

(** A run of [handleCheckout] that awaits its answer: the code it was
    called with and the list its closure holds. *)
Record PendingCheckout : Type := mkPending {
  bookingCode : jsstring;
  captured : list UpcomingCheckout.t
}.

(** The component between two events: its state, the number of runs of
    [fetchBookings] that await their response, and the runs of
    [handleCheckout] that await theirs, oldest first. *)
Record System : Type := mkSystem {
  component : State;
  refreshes : nat;
  checkouts : list PendingCheckout
}.

(** Before the effect has run. *)
Definition mounted : System :=
  {| component := initial; refreshes := 0; checkouts := [] |}.

Section Runtime.

Variable Date_parse : jsstring -> option Z.
Variable toISOString : Z -> jsstring.

(** [fetchBookings] from the arrival of the response on; [now] is the
    reading of [new Date()] for [today] and [clock] the readings inside the
    [map] callback. *)
Definition fetchBookings_resume (response : option (list Booking.t))
    (clock : nat -> Z) (now : Z) (st : State) : State * option Toast.t :=
  match response with
  | None =>
      ({| activeTab := activeTab st;
          showAssignForm := showAssignForm st;
          showBookingForm := showBookingForm st;
          showCheckInForm := showCheckInForm st;
          taskCounts := taskCounts st;
          upcomingCheckouts := upcomingCheckouts st;
          loading := false |}, Some loadError)
  | Some data =>
      ({| activeTab := activeTab st;
          showAssignForm := showAssignForm st;
          showBookingForm := showBookingForm st;
          showCheckInForm := showCheckInForm st;
          taskCounts := Dashboard.taskCounts toISOString now data;
          upcomingCheckouts := upcomingCheckoutsList Date_parse clock data;
          loading := false |}, None)
  end.

(** What happens to the component.  The handlers are asynchronous: each
    runs to its [await] in one event and from the answer on in a later one,
    and anything may happen in between.
    - [RefreshStart]: the effect at mount or a tick of the one-minute
      interval calls [fetchBookings];
    - [RefreshEnd]: the response of a run in flight arrives;
    - [CheckoutClick]: a Check-out button is clicked;
    - [CheckoutEnd i]: the answer to the [i]-th checkout in flight arrives;
    - [Form]: a quick-action button or a form's [onComplete];
    - [Tab]: another tab is selected. *)
Inductive Event : Type :=
  | RefreshStart
  | RefreshEnd (response : option (list Booking.t)) (clock : nat -> Z)
      (now : Z)
  | CheckoutClick (code : jsstring)
  | CheckoutEnd (i : nat) (response : option bool)
  | Form (e : FormEvent)
  | Tab (value : jsstring).

Definition completesRefresh (e : Event) : bool :=
  match e with
  | RefreshEnd _ _ _ => true
  | _ => false
  end.

(** One event; [None] when it cannot happen: a response nobody awaits, a
    click on a button that is not rendered.  The buttons and callbacks of
    the forms and the tabs are not restricted, their rendering being up to
    the child components. *)
Definition step (e : Event) (sys : System) : option System :=
  match e with
  | RefreshStart =>
      Some {| component := fetchBookings_begin (component sys);
              refreshes := S (refreshes sys);
              checkouts := checkouts sys |}
  | RefreshEnd response clock now =>
      match refreshes sys with
      | O => None
      | S n =>
          Some {| component :=
                    fst (fetchBookings_resume response clock now
                           (component sys));
                  refreshes := n;
                  checkouts := checkouts sys |}
      end
  | CheckoutClick code =>
      if checkoutShown code (component sys)
      then Some {| component := component sys;
                   refreshes := refreshes sys;
                   checkouts :=
                     checkouts sys
                     ++ [{| bookingCode := code;
                            captured :=
                              upcomingCheckouts (component sys) |}] |}
      else None
  | CheckoutEnd i response =>
      p ← checkouts sys !! i;
      Some {| component :=
                fst (handleCheckout (bookingCode p) response (captured p)
                       (component sys));
              refreshes := refreshes sys;
              checkouts := delete i (checkouts sys) |}
  | Form f =>
      Some {| component := onForm f (component sys);
              refreshes := refreshes sys;
              checkouts := checkouts sys |}
  | Tab value =>
      Some {| component := setActiveTab value (component sys);
              refreshes := refreshes sys;
              checkouts := checkouts sys |}
  end.

(** The component after a sequence of events. *)
Fixpoint run (events : list Event) (sys : System) : option System :=
  match events with
  | [] => Some sys
  | e :: rest => sys' ← step e sys; run rest sys'
  end.

End Runtime.

End ReceptionistDashboard.

(** ** The magnitude binary64 rounding gives a positive rational *)

Module Rounding.
Import JsNumber.

(** The steps of [roundToDouble] on [n/d], before the overflow test: the
    binary exponent, the scale of the last kept bit, the nearest multiple. *)
Definition nearest (n d : positive) : Q :=
  let e := floor_log2 n d in
  let s := Z.max (e - 52) (-1074) in
  let scaled := Qred ((Zpos n # d) / pow2 s) in
  inject_Z (round_half_even (Qnum scaled) (Qden scaled)) * pow2 s.

End Rounding.

(** * Properties *)

Import JsNumber JsString Json AuthUtils Dashboard.

(** ** Small facts about strings and values *)

Lemma eqb_eq (a b : jsstring) : JsString.eqb a b = true <-> a = b.
Proof.
  revert b; induction a as [|x a IH]; intros [|y b]; simpl; try easy.
  rewrite andb_true_iff, Z.eqb_eq, IH. split.
  - intros [-> ->]; reflexivity.
  - intros [= -> ->]; auto.
Qed.

Lemma eqb_neq (a b : jsstring) : JsString.eqb a b = false <-> a <> b.
Proof.
  rewrite <- eqb_eq. destruct (JsString.eqb a b); split; congruence.
Qed.

Lemma orNull_cases (x : option jsval) :
  orNull x = JNull \/ (truthy (orNull x) = true /\ x = Some (orNull x)).
Proof.
  destruct x as [v|]; simpl; auto.
  destruct (truthy v) eqn:E; auto.
Qed.

Lemma accessor_cases (field : string) (localStorage : gmap string jsstring) :
  accessor field localStorage = JNull
  \/ truthy (accessor field localStorage) = true.
Proof.
  unfold accessor. destruct (localStorage !! "authToken"%string) as [[|c t]|]; auto.
  destruct (orNull_cases (getProp (parseJwt (c :: t)) (js field))) as [H|[H _]];
    auto.
Qed.

(** ** Numbers *)

Lemma pow2_pos (s : Z) : (0 < pow2 s)%Q.
Proof.
  unfold pow2. destruct (0 <=? s) eqn:E.
  - apply Z.leb_le in E. unfold Qlt, inject_Z; cbn [Qnum Qden].
    pose proof (Z.pow_pos_nonneg 2 s). lia.
  - reflexivity.
Qed.

Lemma round_half_even_ge_floor (p : Z) (d : positive) :
  p / Zpos d <= round_half_even p d.
Proof.
  unfold round_half_even. destruct (2 * (p mod Zpos d) ?= Zpos d); try lia.
  destruct (Z.even (p / Zpos d)); lia.
Qed.

Lemma pow2_le_integer (p : positive) (s : Z) :
  s <= Z.log2 (Zpos p) -> (pow2 s <= inject_Z (Zpos p))%Q.
Proof.
  intros Hs. unfold pow2. destruct (0 <=? s) eqn:E.
  - apply Z.leb_le in E. rewrite <- Zle_Qle.
    transitivity (2 ^ Z.log2 (Zpos p)).
    + apply Z.pow_le_mono_r; lia.
    + apply Z.log2_spec. lia.
  - unfold Qle; simpl. lia.
Qed.

Lemma floor_log2_le (n d : positive) :
  floor_log2 n d <= Z.log2 (Zpos n) - Z.log2 (Zpos d).
Proof.
  unfold floor_log2.
  destruct (if 0 <=? _ then _ else _); lia.
Qed.

Lemma roundToDouble_positive_integer (p : positive) :
  roundToDouble (inject_Z (Zpos p)) = PosInf
  \/ exists v, roundToDouble (inject_Z (Zpos p)) = Fin v /\ (0 < v)%Q.
Proof.
  unfold roundToDouble.
  change (Qnum (inject_Z (Zpos p))) with (Zpos p).
  change (Qden (inject_Z (Zpos p))) with 1%positive.
  cbv beta iota zeta.
  set (s := Z.max (floor_log2 p 1 - 52) (-1074)).
  set (scaled := Qred ((Zpos p # 1) / pow2 s)).
  set (m := round_half_even (Qnum scaled) (Qden scaled)).
  assert (Hs : s <= Z.log2 (Zpos p)).
  { pose proof (floor_log2_le p 1). pose proof (Z.log2_nonneg (Zpos p)).
    change (Z.log2 1) with 0 in H. unfold s. lia. }
  assert (Hscaled : (1 <= scaled)%Q).
  { unfold scaled. rewrite Qred_correct.
    apply Qle_shift_div_l; [apply pow2_pos|].
    rewrite Qmult_1_l. apply pow2_le_integer; exact Hs. }
  assert (Hm : 1 <= m).
  { unfold m. etransitivity; [|apply round_half_even_ge_floor].
    apply (Qfloor_resp_le 1) in Hscaled.
    destruct scaled as [sn sd]. exact Hscaled. }
  clearbody m. clear Hscaled Hs. clearbody scaled s.
  change (Qle_bool 0 (inject_Z (Zpos p))) with true. cbv iota.
  destruct (Qle_bool (inject_Z (2 ^ 1024)) _); [left; reflexivity|right].
  eexists; split; [reflexivity|].
  rewrite Qred_correct.
  apply Qmult_lt_0_compat; [|apply pow2_pos].
  unfold Qlt, inject_Z; cbn [Qnum Qden]. lia.
Qed.

Lemma ofNat_S (n : nat) :
  ofNat (S n) = PosInf
  \/ exists v, ofNat (S n) = Fin v /\ (0 < v)%Q.
Proof.
  unfold ofNat, ofZ. rewrite Nat2Z.inj_succ.
  destruct (Z.succ (Z.of_nat n)) as [|p|p] eqn:E; try lia.
  apply roundToDouble_positive_integer.
Qed.

(** ** Integers that binary64 holds exactly *)

Lemma Qred_integer (z : Z) (q : Q) : (q == inject_Z z)%Q -> Qred q = inject_Z z.
Proof.
  intros H. rewrite (Qred_complete _ _ H). apply Qred_identity.
  cbn [Qnum Qden inject_Z]. apply Z.gcd_1_r.
Qed.

Lemma round_half_even_integer (x : Z) : round_half_even x 1 = x.
Proof.
  unfold round_half_even. rewrite Z.mod_1_r, Z.div_1_r. reflexivity.
Qed.

Lemma pow2_nonpos (s : Z) :
  s <= 0 -> (pow2 s == / inject_Z (2 ^ (- s)))%Q.
Proof.
  intros Hs. unfold pow2. destruct (Z.leb_spec 0 s) as [H|H].
  - replace s with 0 by lia. reflexivity.
  - pose proof (Z.pow_pos_nonneg 2 (- s)) as Hp.
    destruct (2 ^ (- s)) as [|k|k] eqn:E; try lia. reflexivity.
Qed.

Lemma roundToDouble_small_positive (p : positive) :
  Zpos p < 2 ^ 53 ->
  roundToDouble (inject_Z (Zpos p)) = Fin (inject_Z (Zpos p))
  /\ roundToDouble (inject_Z (Zneg p)) = Fin (inject_Z (Zneg p)).
Proof.
  intros Hp.
  assert (Hlog : Z.log2 (Zpos p) < 53) by (apply Z.log2_lt_pow2; lia).
  pose proof (floor_log2_le p 1) as He. change (Z.log2 1) with 0 in He.
  unfold roundToDouble.
  change (Qnum (inject_Z (Zpos p))) with (Zpos p).
  change (Qnum (inject_Z (Zneg p))) with (Zneg p).
  change (Qden (inject_Z (Zpos p))) with 1%positive.
  change (Qden (inject_Z (Zneg p))) with 1%positive.
  cbv beta iota zeta.
  set (s := Z.max (floor_log2 p 1 - 52) (-1074)).
  assert (Hs : s <= 0) by (unfold s; lia).
  pose proof (Z.pow_pos_nonneg 2 (- s)) as Hpow.
  assert (Hk : ~ (inject_Z (2 ^ (- s)) == 0)%Q).
  { unfold Qeq, inject_Z; cbn [Qnum Qden]. lia. }
  assert (Hscaled : Qred ((Zpos p # 1) / pow2 s)
                    = inject_Z (Zpos p * 2 ^ (- s))).
  { apply Qred_integer. rewrite pow2_nonpos by exact Hs.
    unfold Qdiv. rewrite Qinv_involutive, inject_Z_mult. reflexivity. }
  rewrite Hscaled. cbn [Qnum Qden inject_Z].
  rewrite round_half_even_integer.
  assert (Hv : Qred (inject_Z (Zpos p * 2 ^ (- s)) * pow2 s)
               = inject_Z (Zpos p)).
  { apply Qred_integer. rewrite pow2_nonpos by exact Hs.
    rewrite inject_Z_mult. field. exact Hk. }
  fold (inject_Z (Zpos p * 2 ^ (- s))). rewrite Hv.
  assert (Hov : Qle_bool (inject_Z (2 ^ 1024)) (inject_Z (Zpos p)) = false).
  { apply not_true_iff_false. rewrite Qle_bool_iff, <- Zle_Qle.
    assert (2 ^ 53 <= 2 ^ 1024) by (apply Z.pow_le_mono_r; lia). lia. }
  fold (inject_Z (2 ^ 1024)). rewrite Hov. split; [reflexivity|].
  change (Qle_bool 0 (inject_Z (Zneg p))) with false. cbv iota.
  f_equal. apply Qred_integer. reflexivity.
Qed.

Lemma roundToDouble_safe_integer (z : Z) :
  Z.abs z <= 2 ^ 53 -> roundToDouble (inject_Z z) = Fin (inject_Z z).
Proof.
  intros Hz.
  assert (Hcase : Z.abs z = 2 ^ 53 \/ Z.abs z < 2 ^ 53) by lia.
  destruct Hcase as [E|Hlt].
  - assert (Hz' : z = 2 ^ 53 \/ z = - 2 ^ 53) by lia.
    destruct Hz' as [-> | ->]; vm_compute; reflexivity.
  - destruct z as [|p|p].
    + reflexivity.
    + apply roundToDouble_small_positive. exact Hlt.
    + apply roundToDouble_small_positive. exact Hlt.
Qed.

(** ** The fuel of the JSON parser *)

Ltac break_match_in H :=
  match type of H with
  | context [match ?x with _ => _ end] =>
      lazymatch x with
      | context [match _ with _ => _ end] => fail
      | _ => destruct x eqn:?
      end
  end.

Lemma skipWs_length (s : jsstring) : (length (skipWs s) <= length s)%nat.
Proof.
  induction s as [|c s IH]; [reflexivity|].
  cbn [skipWs]. destruct (isWhitespace c); cbn [length]; lia.
Qed.

Lemma skipWs_cons (s r : jsstring) (c : Z) :
  skipWs s = c :: r -> (length r < length s)%nat.
Proof.
  intros H. pose proof (skipWs_length s) as L. rewrite H in L.
  cbn [length] in L. lia.
Qed.

Lemma parseString_length (s : jsstring) :
  forall t r, parseString s = Some (t, r) -> (length r < length s)%nat.
Proof.
  remember (length s) as n eqn:E. revert s E.
  induction n as [n IH] using lt_wf_ind. intros s E t r H. subst n.
  destruct s as [|c s]; [discriminate|].
  cbn [parseString] in H. cbn [length].
  repeat (break_match_in H; try discriminate);
    repeat match goal with
      | E : parseString ?x = Some (_, ?y) |- _ =>
          apply (IH (length x)) in E; [|cbn [length]; lia|reflexivity]
      end;
    injection H as <- <-; cbn [length] in *; lia.
Qed.

Lemma digits_length (s : jsstring) :
  forall d r, digits s = (d, r) -> (length r + length d = length s)%nat.
Proof.
  induction s as [|c s IH]; intros d r H; cbn [digits] in H.
  - injection H as <- <-. reflexivity.
  - destruct (isDigit c).
    + destruct (digits s) as [d' r'] eqn:E. injection H as <- <-.
      specialize (IH _ _ eq_refl). cbn [length]. lia.
    + injection H as <- <-. cbn [length]. lia.
Qed.

Lemma stripPrefix_length (p s r : jsstring) :
  stripPrefix p s = Some r -> (length r + length p = length s)%nat.
Proof.
  revert s. induction p as [|x p IH]; intros [|y s] H; cbn [stripPrefix] in H;
    try discriminate.
  - injection H as <-. cbn [length]. lia.
  - injection H as <-. cbn [length]. lia.
  - destruct (x =? y); [|discriminate]. apply IH in H. cbn [length]. lia.
Qed.

Lemma digits_first (c : Z) (s d r : jsstring) :
  isDigit c = true -> digits (c :: s) = (d, r) -> (length r <= length s)%nat.
Proof.
  intros Hc H. cbn [digits] in H. rewrite Hc in H.
  destruct (digits s) as [d' r'] eqn:E. injection H as <- <-.
  apply digits_length in E. lia.
Qed.

Lemma parseNumber_length (s : jsstring) :
  forall q r, parseNumber s = Some (q, r) -> (length r < length s)%nat.
Proof.
  intros q r H. unfold parseNumber in H.
  repeat (break_match_in H; try discriminate);
    repeat match goal with
      | D : isDigit ?c = true, E : digits (?c :: _) = (_, _) |- _ =>
          apply (digits_first _ _ _ _ D) in E
      | E : digits _ = (_, _) |- _ => apply digits_length in E
      | E : (_, _) = (_, _) |- _ => injection E as <- <-
      | E : Some _ = Some _ |- _ => injection E as <- <-
      end;
    subst; cbn [length] in *; lia.
Qed.

Ltac length_facts :=
  repeat match goal with
    | E : skipWs ?s = _ :: ?r |- _ =>
        lazymatch goal with
        | _ : (length r < length s)%nat |- _ => fail
        | _ => pose proof (skipWs_cons _ _ _ E)
        end
    | E : parseString ?s = Some (_, ?r) |- _ =>
        lazymatch goal with
        | _ : (length r < length s)%nat |- _ => fail
        | _ => pose proof (parseString_length _ _ _ E)
        end
    | E : parseNumber ?s = Some (_, ?r) |- _ =>
        lazymatch goal with
        | _ : (length r < length s)%nat |- _ => fail
        | _ => pose proof (parseNumber_length _ _ _ E)
        end
    | E : stripPrefix ?p ?s = Some ?r |- _ =>
        apply stripPrefix_length in E;
        let n := eval vm_compute in (length p) in
        change (length p) with n in E
    end.

Lemma parse_rest_shorter (f : nat) :
  (forall s v r, parseValue f s = Some (v, r) -> (length r < length s)%nat)
  /\ (forall s acc v r,
        parseElements f s acc = Some (v, r) -> (length r < length s)%nat)
  /\ (forall s acc v r,
        parseMember f s acc = Some (v, r) -> (length r < length s)%nat).
Proof.
  induction f as [|f (IHv & IHe & IHm)]; [repeat split; discriminate|].
  repeat split.
  - intros s v r H. cbn [parseValue] in H.
    repeat (break_match_in H; try discriminate);
      repeat match goal with
        | E : parseValue f _ = Some _ |- _ => apply IHv in E
        | E : parseElements f _ _ = Some _ |- _ => apply IHe in E
        | E : parseMember f _ _ = Some _ |- _ => apply IHm in E
        end;
      length_facts; try injection H as <- <-; cbn [length] in *; lia.
  - intros s acc v r H. cbn [parseElements] in H.
    repeat (break_match_in H; try discriminate);
      repeat match goal with
        | E : parseValue f _ = Some _ |- _ => apply IHv in E
        | E : parseElements f _ _ = Some _ |- _ => apply IHe in E
        end;
      length_facts; try injection H as <- <-; cbn [length] in *; lia.
  - intros s acc v r H. cbn [parseMember] in H.
    repeat (break_match_in H; try discriminate);
      repeat match goal with
        | E : parseValue f _ = Some _ |- _ => apply IHv in E
        | E : parseMember f _ _ = Some _ |- _ => apply IHm in E
        end;
      length_facts; try injection H as <- <-; cbn [length] in *; lia.
Qed.

Ltac break_match_goal :=
  match goal with
  | |- context [match ?x with _ => _ end] =>
      lazymatch x with
      | context [match _ with _ => _ end] => fail
      | _ => destruct x eqn:?
      end
  end.

Ltac rest_facts :=
  repeat match goal with
    | E : parseValue _ ?s = Some (_, ?r) |- _ =>
        lazymatch goal with
        | _ : (length r < length s)%nat |- _ => fail
        | _ => pose proof (proj1 (parse_rest_shorter _) _ _ _ E)
        end
    end;
  length_facts; cbn [length] in *.

Lemma parse_fuel (f : nat) :
  (forall f' s,
      (length s < f)%nat -> (length s < f')%nat ->
      parseValue f s = parseValue f' s)
  /\ (forall f' s acc,
        (length s < f)%nat -> (length s < f')%nat ->
        parseElements f s acc = parseElements f' s acc)
  /\ (forall f' s acc,
        (length s < f)%nat -> (length s < f')%nat ->
        parseMember f s acc = parseMember f' s acc).
Proof.
  induction f as [|f (IHv & IHe & IHm)]; [repeat split; intros; lia|].
  repeat split.
  - intros [|f'] s Hf Hf'; [lia|]. cbn [parseValue].
    repeat first
      [ reflexivity
      | match goal with
        | |- context [parseValue f ?r] =>
            rewrite (IHv f' r) by (rest_facts; lia)
        | |- context [parseElements f ?r ?a] =>
            rewrite (IHe f' r a) by (rest_facts; lia)
        | |- context [parseMember f ?r ?a] =>
            rewrite (IHm f' r a) by (rest_facts; lia)
        end
      | break_match_goal ].
  - intros [|f'] s acc Hf Hf'; [lia|]. cbn [parseElements].
    repeat first
      [ reflexivity
      | match goal with
        | |- context [parseValue f ?r] =>
            rewrite (IHv f' r) by (rest_facts; lia)
        | |- context [parseElements f ?r ?a] =>
            rewrite (IHe f' r a) by (rest_facts; lia)
        end
      | break_match_goal ].
  - intros [|f'] s acc Hf Hf'; [lia|]. cbn [parseMember].
    repeat first
      [ reflexivity
      | match goal with
        | |- context [parseValue f ?r] =>
            rewrite (IHv f' r) by (rest_facts; lia)
        | |- context [parseMember f ?r ?a] =>
            rewrite (IHm f' r a) by (rest_facts; lia)
        end
      | break_match_goal ].
Qed.

(** The fuel [parseText] supplies is enough: any larger amount gives the
    same result. *)
Lemma parseText_fuel (s : jsstring) (f : nat) :
  (length s < f)%nat ->
  parseText s
  = match parseValue f s with
    | Some (v, rest) =>
        match skipWs rest with
        | [] => Some v
        | _ :: _ => None
        end
    | None => None
    end.
Proof.
  intros H. unfold parseText.
  rewrite (proj1 (parse_fuel (S (length s))) f s) by lia. reflexivity.
Qed.

(** ** Splitting a token *)

Lemma split_no_separator (sep : Z) (s : jsstring) :
  ~ In sep s -> split sep s = [s].
Proof.
  induction s as [|c s IH]; intros H; [reflexivity|].
  cbn [split]. destruct (Z.eqb_spec c sep) as [->|_].
  - exfalso. apply H. left. reflexivity.
  - rewrite IH; [reflexivity|]. intros C. apply H. right. exact C.
Qed.

Lemma split_app (sep : Z) (h r : jsstring) :
  ~ In sep h -> split sep (h ++ sep :: r) = h :: split sep r.
Proof.
  induction h as [|c h IH]; intros H.
  - cbn. rewrite Z.eqb_refl. reflexivity.
  - cbn [app split]. destruct (Z.eqb_spec c sep) as [->|_].
    + exfalso. apply H. left. reflexivity.
    + rewrite IH; [reflexivity|]. intros C. apply H. right. exact C.
Qed.

Lemma split_second (h p rest : jsstring) :
  ~ In 46 h -> ~ In 46 p ->
  rest = [] \/ (exists t, rest = 46 :: t) ->
  split 46 (h ++ 46 :: p ++ rest) !! 1%nat = Some p.
Proof.
  intros Hh Hp [->|(t & ->)]; rewrite split_app by exact Hh.
  - rewrite app_nil_r, split_no_separator by exact Hp. reflexivity.
  - rewrite split_app by exact Hp. reflexivity.
Qed.

Lemma split_length_one (token : jsstring) :
  (length (split 46 token) < 2)%nat -> split 46 token !! 1%nat = None.
Proof.
  destruct (split 46 token) as [|a [|b l]]; cbn; intros H; try reflexivity; lia.
Qed.

(** ** Base64 round trip *)

Lemma range_check (P : Z -> bool) (n : nat) :
  forallb P (map Z.of_nat (seq 0 n)) = true ->
  forall i, 0 <= i < Z.of_nat n -> P i = true.
Proof.
  intros H i Hi. rewrite forallb_forall in H. apply H.
  apply in_map_iff. exists (Z.to_nat i). split; [lia|].
  apply in_seq. lia.
Qed.

Lemma list_ind3 {A : Type} (P : list A -> Prop) :
  P [] -> (forall a, P [a]) -> (forall a b, P [a; b]) ->
  (forall a b c r, P r -> P (a :: b :: c :: r)) ->
  forall l, P l.
Proof.
  intros H0 H1 H2 H3 l.
  assert (H : P l /\ (forall a, P (a :: l)) /\ (forall a b, P (a :: b :: l))).
  { induction l as [|x l (IH0 & IH1 & IH2)]; [auto|].
    split; [apply IH1|]. split; [intros a; apply IH2|].
    intros a b. apply H3. exact IH0. }
  apply H.
Qed.

Lemma urlChar_facts (i : Z) :
  Base64.sextet i ->
  Base64.index (Base64.standardChar (Base64.urlChar i)) = Some i
  /\ Base64.isAsciiWhitespace (Base64.standardChar (Base64.urlChar i)) = false
  /\ (Base64.standardChar (Base64.urlChar i) =? 61) = false
  /\ Base64.urlChar i <> 46.
Proof.
  intros Hi.
  pose proof (range_check
    (fun i => match Base64.index (Base64.standardChar (Base64.urlChar i)) with
              | Some j => j =? i
              | None => false
              end
              && negb (Base64.isAsciiWhitespace
                         (Base64.standardChar (Base64.urlChar i)))
              && negb (Base64.standardChar (Base64.urlChar i) =? 61)
              && negb (Base64.urlChar i =? 46)) 64 eq_refl i Hi) as H.
  cbv beta in H. rewrite !andb_true_iff, !negb_true_iff in H.
  destruct H as [[[H1 H2] H3] H4].
  destruct (Base64.index _) as [j|]; [|discriminate].
  apply Z.eqb_eq in H1. apply Z.eqb_neq in H4. subst j. auto.
Qed.

Lemma sextetsOfBytes_range (bs : list Z) :
  Forall Base64.byte bs -> Forall Base64.sextet (Base64.sextetsOfBytes bs).
Proof.
  unfold Base64.byte, Base64.sextet.
  induction bs as [| a | a b | a b c r IH] using list_ind3; intros H;
    cbn [Base64.sextetsOfBytes].
  - constructor.
  - apply Forall_cons_iff in H as [Ha _].
    repeat constructor; Z.to_euclidean_division_equations; lia.
  - apply Forall_cons_iff in H as [Ha H]. apply Forall_cons_iff in H as [Hb _].
    repeat constructor; Z.to_euclidean_division_equations; lia.
  - apply Forall_cons_iff in H as [Ha H]. apply Forall_cons_iff in H as [Hb H].
    apply Forall_cons_iff in H as [Hc H].
    repeat (constructor; [Z.to_euclidean_division_equations; lia|]).
    apply IH. exact H.
Qed.

Lemma bytesOfSextets_sextetsOfBytes (bs : list Z) :
  Forall Base64.byte bs ->
  Base64.bytesOfSextets (Base64.sextetsOfBytes bs) = bs.
Proof.
  unfold Base64.byte.
  induction bs as [| a | a b | a b c r IH] using list_ind3; intros H;
    cbn [Base64.sextetsOfBytes Base64.bytesOfSextets].
  - reflexivity.
  - apply Forall_cons_iff in H as [Ha _]. f_equal.
    Z.to_euclidean_division_equations; lia.
  - apply Forall_cons_iff in H as [Ha H]. apply Forall_cons_iff in H as [Hb _].
    f_equal; [|f_equal]; Z.to_euclidean_division_equations; lia.
  - apply Forall_cons_iff in H as [Ha H]. apply Forall_cons_iff in H as [Hb H].
    apply Forall_cons_iff in H as [Hc H].
    rewrite (IH H).
    f_equal; [|f_equal; [|f_equal]]; Z.to_euclidean_division_equations; lia.
Qed.

Lemma sextetsOfBytes_length (bs : list Z) :
  Z.of_nat (length (Base64.sextetsOfBytes bs)) mod 4
  = match Z.of_nat (length bs) mod 3 with
    | 0 => 0
    | 1 => 2
    | _ => 3
    end.
Proof.
  induction bs as [| a | a b | a b c r IH] using list_ind3;
    try reflexivity.
  cbn [Base64.sextetsOfBytes].
  replace (Z.of_nat (length (a :: b :: c :: r)))
    with (Z.of_nat (length r) + 1 * 3) by (cbn [length]; lia).
  match goal with
  | |- Z.of_nat (length (?w :: ?x :: ?y :: ?z :: ?l)) mod 4 = _ =>
      replace (Z.of_nat (length (w :: x :: y :: z :: l)))
        with (Z.of_nat (length l) + 1 * 4) by (cbn [length]; lia)
  end.
  rewrite !Z_mod_plus_full. exact IH.
Qed.

Lemma filter_all {A : Type} (g : A -> bool) (l : list A) :
  Forall (fun x => g x = true) l -> List.filter g l = l.
Proof.
  induction 1 as [|x l Hx _ IH]; [reflexivity|].
  cbn [List.filter]. rewrite Hx, IH. reflexivity.
Qed.

Lemma rev_head_In {A : Type} (l r : list A) (a : A) :
  rev l = a :: r -> In a l.
Proof.
  intros H. apply in_rev. rewrite H. left. reflexivity.
Qed.

Lemma stripPadding_none (s : jsstring) :
  Forall (fun c => (c =? 61) = false) s -> Base64.stripPadding s = s.
Proof.
  intros H. unfold Base64.stripPadding.
  destruct (_ =? 0); [|reflexivity].
  destruct (rev s) as [|a r] eqn:E; [reflexivity|].
  rewrite List.Forall_forall in H. rewrite (H a (rev_head_In _ _ _ E)).
  reflexivity.
Qed.

Lemma stripPadding_one (s : jsstring) :
  Forall (fun c => (c =? 61) = false) s ->
  Z.of_nat (length (s ++ [61])) mod 4 = 0 ->
  Base64.stripPadding (s ++ [61]) = s.
Proof.
  intros H Hlen. unfold Base64.stripPadding.
  rewrite Hlen, rev_app_distr. cbn [rev app]. rewrite Z.eqb_refl.
  change (61 =? 61) with true. cbv iota.
  destruct (rev s) as [|b r] eqn:E.
  - rewrite <- E. apply rev_involutive.
  - rewrite List.Forall_forall in H. rewrite (H b (rev_head_In _ _ _ E)).
    rewrite <- E. apply rev_involutive.
Qed.

Lemma stripPadding_two (s : jsstring) :
  Z.of_nat (length (s ++ [61; 61])) mod 4 = 0 ->
  Base64.stripPadding (s ++ [61; 61]) = s.
Proof.
  intros Hlen. unfold Base64.stripPadding.
  rewrite Hlen, rev_app_distr. cbn [rev app]. rewrite Z.eqb_refl.
  change (61 =? 61) with true. cbv iota. apply rev_involutive.
Qed.

Lemma indices_standard (sx : list Z) :
  Forall Base64.sextet sx ->
  Base64.indices
    (map (fun i => Base64.standardChar (Base64.urlChar i)) sx) = Some sx.
Proof.
  induction 1 as [|i sx Hi _ IH]; [reflexivity|].
  cbn [map Base64.indices].
  destruct (urlChar_facts i Hi) as (-> & _). rewrite IH. reflexivity.
Qed.

Lemma restore_alphabet (s : jsstring) :
  replaceAll 95 47 (replaceAll 45 43 s) = map Base64.standardChar s.
Proof. unfold replaceAll. rewrite map_map. reflexivity. Qed.

Lemma atob_base64url (pad : bool) (bs : list Z) :
  Forall Base64.byte bs ->
  Base64.atob (replaceAll 95 47 (replaceAll 45 43 (Base64.base64url pad bs)))
  = Some bs.
Proof.
  intros Hbs. rewrite restore_alphabet. unfold Base64.base64url.
  rewrite map_app, map_map.
  set (chars := map (fun i => Base64.standardChar (Base64.urlChar i))
                  (Base64.sextetsOfBytes bs)).
  pose proof (sextetsOfBytes_range bs Hbs) as Hsx.
  assert (Hchars : Forall (fun c => Base64.isAsciiWhitespace c = false
                                     /\ (c =? 61) = false) chars).
  { unfold chars. apply List.Forall_forall. intros c Hc.
    apply in_map_iff in Hc as (i & <- & Hi).
    rewrite List.Forall_forall in Hsx.
    destruct (urlChar_facts i (Hsx i Hi)) as (_ & H1 & H2 & _). auto. }
  assert (Hno61 : Forall (fun c => (c =? 61) = false) chars).
  { eapply List.Forall_impl; [|exact Hchars]. intros c [_ H]. exact H. }
  assert (Hlen : Z.of_nat (length chars) mod 4
                 = match Z.of_nat (length bs) mod 3 with
                   | 0 => 0 | 1 => 2 | _ => 3 end).
  { unfold chars. rewrite length_map. apply sextetsOfBytes_length. }
  set (tail := map Base64.standardChar
                 (if pad then Base64.padding bs else [])).
  assert (Htail : Forall (fun c => Base64.isAsciiWhitespace c = false) tail).
  { unfold tail, Base64.padding.
    destruct pad; [|constructor].
    destruct (Z.of_nat (length bs) mod 3) as [|[[]|[]|]|];
      repeat constructor. }
  assert (Hstrip : Base64.stripPadding (chars ++ tail) = chars).
  { unfold tail, Base64.padding. destruct pad.
    - assert (Hcase : Z.of_nat (length bs) mod 3 = 0
                      \/ Z.of_nat (length bs) mod 3 = 1
                      \/ Z.of_nat (length bs) mod 3 = 2)
        by (Z.to_euclidean_division_equations; lia).
      destruct Hcase as [E|[E|E]]; rewrite E in *; cbn [map].
      + rewrite app_nil_r. apply stripPadding_none. exact Hno61.
      + apply stripPadding_two. rewrite length_app. cbn [length].
        Z.to_euclidean_division_equations; lia.
      + apply stripPadding_one; [exact Hno61|]. rewrite length_app.
        cbn [length]. Z.to_euclidean_division_equations; lia.
    - cbn [map]. rewrite app_nil_r. apply stripPadding_none. exact Hno61. }
  unfold Base64.atob. rewrite filter_all.
  - rewrite Hstrip.
    assert (Hmod : (Z.of_nat (length chars) mod 4 =? 1) = false).
    { apply Z.eqb_neq. rewrite Hlen.
      destruct (Z.of_nat (length bs) mod 3) as [|[[]|[]|]|]; discriminate. }
    rewrite Hmod. unfold chars. rewrite indices_standard by exact Hsx.
    rewrite bytesOfSextets_sextetsOfBytes by exact Hbs. reflexivity.
  - apply Forall_app. split.
    + eapply List.Forall_impl; [|exact Hchars]. intros c [H _].
      rewrite H. reflexivity.
    + eapply List.Forall_impl; [|exact Htail]. intros c H.
      rewrite H. reflexivity.
Qed.

Lemma base64url_no_dot (pad : bool) (bs : list Z) :
  Forall Base64.byte bs -> ~ In 46 (Base64.base64url pad bs).
Proof.
  intros Hbs Hin. unfold Base64.base64url in Hin.
  apply in_app_or in Hin as [Hin|Hin].
  - apply in_map_iff in Hin as (i & Hi & Hin).
    pose proof (sextetsOfBytes_range bs Hbs) as Hsx.
    rewrite List.Forall_forall in Hsx.
    destruct (urlChar_facts i (Hsx i Hin)) as (_ & _ & _ & H). auto.
  - unfold Base64.padding in Hin. destruct pad; [|destruct Hin].
    destruct (Z.of_nat (length bs) mod 3) as [|[[]|[]|]|]; cbn in Hin;
      intuition discriminate.
Qed.

(** ** Percent escapes and UTF-8 round trip *)

Lemma escapeChar_shape (b : Z) :
  Base64.byte b ->
  exists h1 h2 x y,
    Uri.escapeChar b = [37; h1; h2]
    /\ hexValue h1 = Some x /\ hexValue h2 = Some y /\ 16 * x + y = b.
Proof.
  intros Hb.
  assert (Hall : forallb
            (fun b => match Uri.escapeChar b with
                      | [p; h1; h2] =>
                          (p =? 37)
                          && match hexValue h1, hexValue h2 with
                             | Some x, Some y => 16 * x + y =? b
                             | _, _ => false
                             end
                      | _ => false
                      end) (map Z.of_nat (seq 0 256)) = true)
    by (vm_compute; reflexivity).
  pose proof (range_check _ 256 Hall b Hb) as H. cbv beta in H.
  destruct (Uri.escapeChar b) as [|p [|h1 [|h2 [|? ?]]]]; try discriminate.
  apply andb_true_iff in H as [Hp H]. apply Z.eqb_eq in Hp. subst p.
  destruct (hexValue h1) as [x|] eqn:Ex; [|discriminate].
  destruct (hexValue h2) as [y|] eqn:Ey; [|discriminate].
  apply Z.eqb_eq in H. exists h1, h2, x, y. auto.
Qed.

Lemma items_escaped (bs : list Z) :
  Forall Base64.byte bs ->
  Uri.items (flat_map Uri.escapeChar bs) = Some (map Uri.Oct bs).
Proof.
  induction 1 as [|b bs Hb _ IH]; [reflexivity|].
  cbn [flat_map map].
  destruct (escapeChar_shape b Hb) as (h1 & h2 & x & y & -> & Hx & Hy & <-).
  cbn [app Uri.items]. change (37 =? 37) with true. cbv iota.
  rewrite Hx, Hy, IH. reflexivity.
Qed.

Ltac decide_tests :=
  repeat match goal with
    | |- context [?a <? ?b] =>
        first
          [ replace (a <? b) with true
              by (symmetry; apply Z.ltb_lt;
                  Z.to_euclidean_division_equations; lia)
          | replace (a <? b) with false
              by (symmetry; apply Z.ltb_ge;
                  Z.to_euclidean_division_equations; lia) ]
    | |- context [?a <=? ?b] =>
        first
          [ replace (a <=? b) with true
              by (symmetry; apply Z.leb_le;
                  Z.to_euclidean_division_equations; lia)
          | replace (a <=? b) with false
              by (symmetry; apply Z.leb_gt;
                  Z.to_euclidean_division_equations; lia) ]
    end.

Lemma utf8Char_bytes (v : Z) :
  Uri.scalar v -> Forall Base64.byte (Uri.utf8Char v).
Proof.
  intros [Hv _]. unfold Uri.utf8Char, Base64.byte.
  destruct (Z.ltb_spec v 128); [|destruct (Z.ltb_spec v 2048);
    [|destruct (Z.ltb_spec v 65536)]];
    repeat constructor; Z.to_euclidean_division_equations; lia.
Qed.

Lemma utf8_bytes (text : list Z) :
  Forall Uri.scalar text -> Forall Base64.byte (Uri.utf8 text).
Proof.
  induction 1 as [|v text Hv _ IH]; [constructor|].
  unfold Uri.utf8 in *. cbn [flat_map]. apply Forall_app. split; [|exact IH].
  apply utf8Char_bytes. exact Hv.
Qed.

Lemma decodeItems_utf8Char (v : Z) (rest : list Uri.item) :
  Uri.scalar v ->
  Uri.decodeItems (map Uri.Oct (Uri.utf8Char v) ++ rest)
  = match Uri.decodeItems rest with
    | Some t => Some (Uri.utf16 v ++ t)
    | None => None
    end.
Proof.
  intros [Hv Hs]. unfold Uri.utf8Char.
  destruct (Z.ltb_spec v 128) as [H1|H1]; [|destruct (Z.ltb_spec v 2048)
    as [H2|H2]; [|destruct (Z.ltb_spec v 65536) as [H3|H3]]];
    cbn [map app Uri.decodeItems]; unfold Uri.continuation.
  - decide_tests. unfold Uri.utf16. decide_tests. reflexivity.
  - replace ((192 + v / 64 - 192) * 64 + (128 + v mod 64 - 128)) with v
      by (Z.to_euclidean_division_equations; lia).
    decide_tests. reflexivity.
  - replace ((224 + v / 4096 - 224) * 4096 + (128 + (v / 64) mod 64 - 128) * 64
             + (128 + v mod 64 - 128)) with v
      by (Z.to_euclidean_division_equations; lia).
    assert (Hsur : (55296 <=? v) && (v <=? 57343) = false).
    { apply andb_false_iff.
      destruct (Z.leb_spec 55296 v); [|left; reflexivity].
      destruct (Z.leb_spec v 57343); [|right; reflexivity]. lia. }
    rewrite Hsur. decide_tests. reflexivity.
  - replace ((240 + v / 262144 - 240) * 262144
             + (128 + (v / 4096) mod 64 - 128) * 4096
             + (128 + (v / 64) mod 64 - 128) * 64
             + (128 + v mod 64 - 128)) with v
      by (Z.to_euclidean_division_equations; lia).
    decide_tests. reflexivity.
Qed.

Lemma decodeItems_utf8 (text : list Z) :
  Forall Uri.scalar text ->
  Uri.decodeItems (map Uri.Oct (Uri.utf8 text)) = Some (Uri.utf16Text text).
Proof.
  induction 1 as [|v text Hv _ IH]; [reflexivity|].
  unfold Uri.utf8, Uri.utf16Text in *. cbn [flat_map].
  rewrite map_app, decodeItems_utf8Char by exact Hv. rewrite IH. reflexivity.
Qed.

Lemma decodeURIComponent_utf8 (text : list Z) :
  Forall Uri.scalar text ->
  Uri.decodeURIComponent (flat_map Uri.escapeChar (Uri.utf8 text))
  = Some (Uri.utf16Text text).
Proof.
  intros H. unfold Uri.decodeURIComponent.
  rewrite items_escaped by (apply utf8_bytes; exact H).
  apply decodeItems_utf8. exact H.
Qed.

(** ** Decoding a token *)

(** C5 as amended.  An input with fewer than two dot-separated segments
    (no dot at all) decodes to null.  The number of segments is not checked
    beyond that: the result depends on the second segment alone, so an input
    of two segments, or of more than three, decodes exactly as the
    three-segment input with the same second segment. *)
Theorem parseJwt_segment_count :
  forall (h p rest sig : jsstring),
    ~ In 46 h -> ~ In 46 p ->
    rest = [] \/ (exists t, rest = 46 :: t) ->
    parseJwt (h ++ 46 :: p ++ rest) = parseJwt (h ++ 46 :: p ++ 46 :: sig)
    /\ (forall token : jsstring,
          (length (split 46 token) < 2)%nat -> parseJwt token = JNull)
    /\ (forall token token' : jsstring,
          split 46 token !! 1%nat = split 46 token' !! 1%nat ->
          parseJwt token = parseJwt token').
Proof.
  intros h p rest sig Hh Hp Hrest. repeat split.
  - unfold parseJwt. rewrite !split_second; eauto.
  - intros token H. unfold parseJwt. rewrite split_length_one by exact H.
    reflexivity.
  - intros token token' H. unfold parseJwt. rewrite H. reflexivity.
Qed.

Lemma parseJwt_segment_count_witness :
  parseJwt (js "a.eyJpZCI6IjEiLCJyb2xlIjoiQURNSU4iLCJleHAiOjk5OTk5OTk5OTl9")
  = parseJwt Examples.adminToken.
Proof.
  refine (proj1 (parseJwt_segment_count (js "a")
           (js "eyJpZCI6IjEiLCJyb2xlIjoiQURNSU4iLCJleHAiOjk5OTk5OTk5OTl9")
           [] (js "sig") _ _ _)).
  - vm_compute. intuition discriminate.
  - vm_compute. intuition discriminate.
  - left. reflexivity.
Defined.

(** C5, refuted as stated: an input of two segments and an input of four
    decode to the claims of the payload, not to null. *)
Lemma parseJwt_two_and_four_segments_decode :
  let two :=
    js "a.eyJpZCI6IjEiLCJyb2xlIjoiQURNSU4iLCJleHAiOjk5OTk5OTk5OTl9" in
  let four :=
    js "a.eyJpZCI6IjEiLCJyb2xlIjoiQURNSU4iLCJleHAiOjk5OTk5OTk5OTl9.b.c" in
  let claims :=
    JObject [(js "id", JString (js "1")); (js "role", JString (js "ADMIN"));
             (js "exp", JNumber (Fin 9999999999))] in
  length (split 46 two) = 2%nat /\ parseJwt two = claims
  /\ length (split 46 four) = 4%nat /\ parseJwt four = claims.
Proof. vm_compute. repeat split; reflexivity. Qed.

(** ** Round trip of the expiry *)

Lemma lastMember_valueOf (k : jsstring) (members : list (jsstring * jtext)) :
  lastMember k (map (fun kv => (fst kv, valueOf (snd kv))) members)
  = match lastMember k members with
    | Some t => Some (valueOf t)
    | None => None
    end.
Proof.
  induction members as [|[k' t] members IH]; [reflexivity|].
  cbn [map lastMember fst snd]. rewrite IH.
  destruct (lastMember k members); [reflexivity|].
  destruct (JsString.eqb k k'); reflexivity.
Qed.

Lemma parseJwt_encoded (h sig : jsstring) (pad : bool) (text : list Z) :
  ~ In 46 h -> Forall Uri.scalar text ->
  parseJwt (h ++ 46 :: Base64.base64url pad (Uri.utf8 text) ++ 46 :: sig)
  = default JNull (JSON_parse (Uri.utf16Text text)).
Proof.
  intros Hh Htext. unfold parseJwt.
  pose proof (utf8_bytes text Htext) as Hbytes.
  rewrite split_second; eauto using base64url_no_dot.
  cbn [mbind option_bind].
  rewrite atob_base64url by exact Hbytes. cbn [mbind option_bind].
  rewrite decodeURIComponent_utf8 by exact Htext. reflexivity.
Qed.

(** C9 as amended.  For a token whose first segment has no dot and whose
    second segment is the base64url encoding, padded or not, of the UTF-8
    form of a JSON text that parses to an object with a numeric [exp] member,
    parseJwt returns the object the text denotes, and its [exp] is the
    binary64 number nearest to the decimal value written in the text.  It is
    that value exactly whenever the value is a binary64 number, which every
    integer of magnitude at most 2^53 is. *)
Theorem parseJwt_exp_round_trip :
  forall (h sig : jsstring) (pad : bool) (text : list Z)
         (members : list (jsstring * jtext)) (q : Q),
    ~ In 46 h ->
    Forall Uri.scalar text ->
    parseText (Uri.utf16Text text) = Some (TObject members) ->
    lastMember (js "exp") members = Some (TNumber q) ->
    let claims :=
      parseJwt (h ++ 46 :: Base64.base64url pad (Uri.utf8 text) ++ 46 :: sig) in
    claims = valueOf (TObject members)
    /\ getProp claims (js "exp") = Some (JNumber (roundToDouble q))
    /\ (representable q ->
        exists q', getProp claims (js "exp") = Some (JNumber (Fin q'))
                   /\ (q' == q)%Q)
    /\ (forall z : Z,
          q = inject_Z z -> Z.abs z <= 2 ^ 53 ->
          getProp claims (js "exp") = Some (JNumber (Fin (inject_Z z)))).
Proof.
  intros h sig pad text members q Hh Htext Hparse Hexp claims.
  assert (Hclaims : claims = valueOf (TObject members)).
  { unfold claims. rewrite parseJwt_encoded by assumption.
    unfold JSON_parse. rewrite Hparse. reflexivity. }
  assert (Hget : getProp claims (js "exp") = Some (JNumber (roundToDouble q))).
  { rewrite Hclaims. cbn [valueOf getProp].
    rewrite lastMember_valueOf, Hexp. reflexivity. }
  repeat split; try assumption.
  - intros (q' & Hq' & Heq). exists q'. rewrite Hget, Hq'. auto.
  - intros z -> Hz. rewrite Hget, roundToDouble_safe_integer by exact Hz.
    reflexivity.
Qed.

Lemma parseJwt_exp_round_trip_witness :
  js "a" ++ 46 :: Base64.base64url false
                     (Uri.utf8
                        (Examples.jsq "{'id':'1','role':'ADMIN','exp':9999999999}"))
     ++ 46 :: js "sig"
  = Examples.adminToken
  /\ getProp (parseJwt Examples.adminToken) (js "exp")
     = Some (JNumber (Fin (inject_Z 9999999999))).
Proof.
  split; [vm_compute; reflexivity|].
  refine (proj2 (proj2 (proj2
    (parseJwt_exp_round_trip (js "a") (js "sig") false
       (Examples.jsq "{'id':'1','role':'ADMIN','exp':9999999999}")
       [(js "id", TString (js "1")); (js "role", TString (js "ADMIN"));
        (js "exp", TNumber (inject_Z 9999999999))]
       (inject_Z 9999999999) _ _ _ _))) 9999999999 eq_refl _).
  - vm_compute. intuition discriminate.
  - let t := eval vm_compute in
        (Examples.jsq "{'id':'1','role':'ADMIN','exp':9999999999}") in
    change (Forall Uri.scalar t).
    repeat (apply List.Forall_cons; [unfold Uri.scalar; lia|]).
    apply List.Forall_nil.
  - vm_compute. reflexivity.
  - vm_compute. reflexivity.
  - vm_compute. discriminate.
Defined.

(** C9, refuted as stated: the token below carries the payload
    [{'exp':9007199254740993}]; the decoded expiry is 9007199254740992. *)
Lemma parseJwt_exp_rounded :
  let text := Examples.jsq "{'exp':9007199254740993}" in
  let token := js "a.eyJleHAiOjkwMDcxOTkyNTQ3NDA5OTN9.s" in
  token = js "a" ++ 46 :: Base64.base64url false (Uri.utf8 text) ++ 46 :: js "s"
  /\ parseText text = Some (TObject [(js "exp",
                                       TNumber (inject_Z 9007199254740993))])
  /\ getProp (parseJwt token) (js "exp")
     = Some (JNumber (Fin (inject_Z 9007199254740992)))
  /\ ~ (inject_Z 9007199254740992 == inject_Z 9007199254740993)%Q.
Proof.
  repeat split; try (vm_compute; reflexivity).
  vm_compute. discriminate.
Qed.

(** ** Token validity *)

(** C6.  For a token that decodes to claims with a numeric [exp], isTokenValid
    is the strict comparison [exp > Date.now() / 1000]: against a finite
    current time [ct] it is true exactly when [ct < exp]; it is false when
    [exp] equals [ct] and true when [exp] equals [ct + 1]. *)
Theorem isTokenValid_iff_exp_after_now :
  forall (toNumberOther : jsval -> option number) (token : jsstring) (now : Z)
         (e : number),
    getProp (parseJwt token) (js "exp") = Some (JNumber e) ->
    isTokenValid toNumberOther token now = gtb e (currentTime now)
    /\ (forall q ct : Q,
          e = Fin q -> currentTime now = Fin ct ->
          (isTokenValid toNumberOther token now = true <-> (ct < q)%Q)
          /\ ((q == ct)%Q -> isTokenValid toNumberOther token now = false)
          /\ ((q == ct + 1)%Q -> isTokenValid toNumberOther token now = true)).
Proof.
  intros toNumberOther token now e Hexp.
  assert (Hvalid : isTokenValid toNumberOther token now = gtb e (currentTime now)).
  { unfold isTokenValid. rewrite Hexp.
    destruct (parseJwt token); try discriminate. reflexivity. }
  split; [exact Hvalid|].
  intros q ct -> Hct. rewrite Hvalid, Hct. unfold gtb, ltb.
  assert (Hlt : negb (Qle_bool q ct) = true <-> (ct < q)%Q).
  { rewrite negb_true_iff, <- not_true_iff_false, Qle_bool_iff.
    split; [apply Qnot_le_lt | apply Qlt_not_le]. }
  split; [exact Hlt|]. split.
  - intros Heq. apply not_true_iff_false. rewrite Hlt, Heq. apply Qlt_irrefl.
  - intros Heq. apply Hlt. rewrite Heq.
    rewrite <- (Qplus_0_r ct) at 1. apply Qplus_lt_r. reflexivity.
Qed.

Lemma isTokenValid_iff_exp_after_now_witness :
  currentTime 9999999999000 = Fin 9999999999
  /\ isTokenValid Examples.noCoercion Examples.adminToken 9999999999000 = false
  /\ isTokenValid Examples.noCoercion Examples.adminToken 9999999998000 = true.
Proof.
  assert (H : getProp (parseJwt Examples.adminToken) (js "exp")
              = Some (JNumber (Fin 9999999999))) by (vm_compute; reflexivity).
  split; [vm_compute; reflexivity|]. split.
  - destruct (isTokenValid_iff_exp_after_now Examples.noCoercion
                Examples.adminToken 9999999999000 _ H) as [_ K].
    destruct (K 9999999999%Q 9999999999%Q eq_refl) as (_ & A & _);
      [vm_compute; reflexivity|].
    apply A. reflexivity.
  - destruct (isTokenValid_iff_exp_after_now Examples.noCoercion
                Examples.adminToken 9999999998000 _ H) as [_ K].
    destruct (K 9999999999%Q 9999999998%Q eq_refl) as (_ & _ & B);
      [vm_compute; reflexivity|].
    apply B. reflexivity.
Defined.

(** ** Claim accessors *)

(** C10.  When the stored token decodes and the requested field (role, id or
    username) is present with a falsy value, the accessor of that field
    returns null; and whatever the session store holds, none of the three
    accessors returns the empty string. *)
Theorem accessor_falsy_field_is_null :
  forall (localStorage : gmap string jsstring) (token : jsstring) (v : jsval),
    localStorage !! "authToken"%string = Some token ->
    truthy v = false ->
    (getProp (parseJwt token) (js "role") = Some v ->
     getUserRoleFromToken localStorage = JNull)
    /\ (getProp (parseJwt token) (js "id") = Some v ->
        getUserIdFromToken localStorage = JNull)
    /\ (getProp (parseJwt token) (js "username") = Some v ->
        getUsername localStorage = JNull)
    /\ (forall store : gmap string jsstring,
          getUserRoleFromToken store <> JString []
          /\ getUserIdFromToken store <> JString []
          /\ getUsername store <> JString []).
Proof.
  intros localStorage token v Hstore Hfalsy.
  assert (Hnull : forall field,
             getProp (parseJwt token) (js field) = Some v ->
             accessor field localStorage = JNull).
  { intros field Hfield. unfold accessor. rewrite Hstore.
    destruct token as [|c t]; [reflexivity|].
    rewrite Hfield. cbn [orNull]. rewrite Hfalsy. reflexivity. }
  repeat split; try apply Hnull.
  all: destruct (accessor_cases "role" store) as [E|E];
    destruct (accessor_cases "id" store) as [E'|E'];
    destruct (accessor_cases "username" store) as [E''|E''];
    intros C;
    unfold getUserRoleFromToken, getUserIdFromToken, getUsername in C;
    rewrite C in *; discriminate.
Qed.

Lemma accessor_falsy_field_is_null_witness :
  getProp (parseJwt Examples.blankToken) (js "role") = Some (JString [])
  /\ getUserRoleFromToken (<["authToken"%string := Examples.blankToken]> ∅)
     = JNull.
Proof.
  assert (H : getProp (parseJwt Examples.blankToken) (js "role")
              = Some (JString [])) by (vm_compute; reflexivity).
  split; [exact H|].
  refine (proj1 (accessor_falsy_field_is_null
                   (<["authToken"%string := Examples.blankToken]> ∅)
                   Examples.blankToken (JString []) _ _) H);
    vm_compute; reflexivity.
Defined.

(** ** Upcoming checkouts *)

Section Upcoming.

Variable Date_parse : jsstring -> option Z.


Lemma mapClock_lookup (clock : nat -> Z) (l : list Booking.t) :
  forall i c,
    In c (mapClock Date_parse clock i l) ->
    exists b j, l !! j = Some b /\ c = toEntry Date_parse (clock (i + j)%nat) b.
Proof.
  induction l as [|b l IH]; intros i c H; [destruct H|].
  destruct H as [<-|H].
  - exists b, 0%nat. rewrite Nat.add_0_r. split; reflexivity.
  - destruct (IH _ _ H) as (b' & j & Hb & ->).
    exists b', (S j). rewrite Nat.add_succ_r. split; [exact Hb|reflexivity].
Qed.

(** What the callback of the first [map] computes for a booking whose
    checkout date reads [t]. *)
Lemma toEntry_remainingMs (now t : Z) (b : Booking.t) :
  Date_parse (Booking.scheduledCheckOut b) = Some t ->
  CheckoutEntry.remainingMs (toEntry Date_parse now b) = Some (t - now).
Proof.
  intros E. unfold toEntry. cbn [CheckoutEntry.remainingMs]. rewrite E.
  reflexivity.
Qed.

Lemma inWindow_toEntry (windowMs now : Z) (b : Booking.t) :
  inWindow windowMs (toEntry Date_parse now b) = true ->
  exists t, Date_parse (Booking.scheduledCheckOut b) = Some t
            /\ 0 < t - now <= windowMs.
Proof.
  unfold inWindow, toEntry. cbn [CheckoutEntry.remainingMs].
  destruct (Date_parse (Booking.scheduledCheckOut b)) as [t|];
    [|discriminate].
  rewrite andb_true_iff, Z.ltb_lt, Z.leb_le. intros H. exists t. auto.
Qed.

Lemma insert_In (a c : CheckoutEntry.t) (l : list CheckoutEntry.t) :
  In c (insert a l) <-> c = a \/ In c l.
Proof.
  induction l as [|b l IH]; cbn [insert].
  - cbn [In]. intuition.
  - destruct (notAfter a b); cbn [In]; [intuition|].
    rewrite IH. intuition.
Qed.

Lemma sort_In (c : CheckoutEntry.t) (l : list CheckoutEntry.t) :
  In c (sort l) <-> In c l.
Proof.
  induction l as [|a l IH]; [reflexivity|].
  unfold sort in *. cbn [fold_right]. rewrite insert_In, IH.
  cbn [In]. intuition.
Qed.

Lemma insert_length (a : CheckoutEntry.t) (l : list CheckoutEntry.t) :
  length (insert a l) = S (length l).
Proof.
  induction l as [|b l IH]; [reflexivity|].
  cbn [insert]. destruct (notAfter a b); cbn [length]; congruence.
Qed.

Lemma sort_length (l : list CheckoutEntry.t) : length (sort l) = length l.
Proof.
  induction l as [|a l IH]; [reflexivity|].
  unfold sort in *. cbn [fold_right]. rewrite insert_length, IH. reflexivity.
Qed.

Lemma inWindow_spec (windowMs : Z) (c : CheckoutEntry.t) :
  inWindow windowMs c = true <-> Stated.remainingWithin windowMs c.
Proof.
  unfold inWindow, Stated.remainingWithin.
  destruct (CheckoutEntry.remainingMs c) as [d|].
  - rewrite andb_true_iff, Z.ltb_lt, Z.leb_le. split.
    + intros H. exists d. auto.
    + intros (d' & [= <-] & H). exact H.
  - split; [discriminate|]. intros (d & C & _). discriminate.
Qed.

Lemma insert_sorted (w : Z) (a : CheckoutEntry.t) (l : list CheckoutEntry.t) :
  Stated.remainingWithin w a ->
  Forall (Stated.remainingWithin w) l ->
  StronglySorted Stated.notLater l ->
  StronglySorted Stated.notLater (insert a l).
Proof.
  intros (x & Hx & _) Hl Hs. induction Hs as [|b l Hs IH Hb].
  - constructor; constructor.
  - apply Forall_cons_iff in Hl as [(y & Hy & _) Hl].
    cbn [insert]. unfold notAfter. rewrite Hx, Hy.
    destruct (x - y <=? 0) eqn:E.
    + apply Z.leb_le in E. constructor; [constructor; assumption|].
      constructor.
      * exists x, y. repeat split; [assumption..|lia].
      * apply List.Forall_forall. intros c Hc. rewrite List.Forall_forall in Hb.
        destruct (Hb c Hc) as (y' & z & Hy' & Hz & Hle). exists x, z.
        rewrite Hy in Hy'. injection Hy' as <-.
        repeat split; [assumption..|lia].
    + apply Z.leb_gt in E. constructor; [apply IH; exact Hl|].
      apply List.Forall_forall. intros c Hc. apply insert_In in Hc as [->|Hc].
      * exists y, x. repeat split; [assumption..|lia].
      * rewrite List.Forall_forall in Hb. apply Hb. exact Hc.
Qed.

Lemma sort_sorted (w : Z) (l : list CheckoutEntry.t) :
  Forall (Stated.remainingWithin w) l ->
  StronglySorted Stated.notLater (sort l).
Proof.
  induction 1 as [|a l Ha Hl IH]; [constructor|].
  change (sort (a :: l)) with (insert a (sort l)).
  apply (insert_sorted w); [exact Ha| |exact IH].
  apply List.Forall_forall. intros c Hc. apply (proj1 (sort_In c l)) in Hc.
  rewrite List.Forall_forall in Hl. apply Hl. exact Hc.
Qed.

Lemma firstn_In {A : Type} (n : nat) (l : list A) (c : A) :
  In c (firstn n l) -> In c l.
Proof.
  revert n. induction l as [|a l IH]; intros [|n]; cbn [firstn In];
    try tauto.
  intros [H|H]; [left; exact H|right; exact (IH _ H)].
Qed.

Lemma firstn_sorted (n : nat) (l : list CheckoutEntry.t) :
  StronglySorted Stated.notLater l ->
  StronglySorted Stated.notLater (firstn n l).
Proof.
  intros Hs. revert n. induction Hs as [|a l Hs IH Ha]; intros [|n];
    cbn [firstn]; try constructor.
  - apply IH.
  - apply List.Forall_forall. intros c Hc. rewrite List.Forall_forall in Ha.
    apply Ha. exact (firstn_In _ _ _ Hc).
Qed.

Lemma candidates_within (windowMs : Z) (clock : nat -> Z)
    (bookingsData : list Booking.t) :
  Forall (Stated.remainingWithin windowMs)
    (List.filter (inWindow windowMs)
       (mapClock Date_parse clock 0 (checkedInBookings bookingsData))).
Proof.
  apply List.Forall_forall. intros c Hc. apply filter_In in Hc as [_ Hc].
  apply inWindow_spec. exact Hc.
Qed.

End Upcoming.

(** C7.  For every window and limit, and whatever the clock reads, each
    entry the checkout pipeline keeps comes from a checked-in booking, and
    its remaining time is the booking's scheduled checkout minus the clock
    reading of its callback: a number strictly above 0 and at most the
    window.  At most [limit] entries are kept (exactly [limit] when more
    qualify).  The list the dashboards show is the instance with a two-hour
    window and limit 3: of five checked-in bookings that are one hour
    overdue, thirty minutes ahead, three hours ahead, exactly two hours
    ahead and due this instant, it lists the second and the fourth. *)
Theorem upcoming_within_window_and_limit :
  forall (Date_parse : jsstring -> option Z) (windowMs : Z) (limit : nat)
         (clock : nat -> Z) (bookingsData : list Booking.t),
    let ranked := rankedWithin Date_parse windowMs limit clock bookingsData in
    let qualifying :=
      List.filter (inWindow windowMs)
        (mapClock Date_parse clock 0 (checkedInBookings bookingsData)) in
    Forall (fun c =>
              Stated.remainingWithin windowMs c
              /\ exists b i t,
                   In b bookingsData
                   /\ checkedInBookings bookingsData !! i = Some b
                   /\ Booking.status b = js "CHECKED_IN"
                   /\ c = toEntry Date_parse (clock i) b
                   /\ Date_parse (Booking.scheduledCheckOut b) = Some t
                   /\ CheckoutEntry.remainingMs c = Some (t - clock i)
                   /\ 0 < t - clock i <= windowMs) ranked
    /\ (length ranked <= limit)%nat
    /\ length ranked = Nat.min limit (length qualifying)
    /\ upcomingCheckoutsList Date_parse clock bookingsData
       = map project
           (rankedWithin Date_parse 7200000 3 clock bookingsData)
    /\ (length (upcomingCheckoutsList Date_parse clock bookingsData) <= 3)%nat
    /\ map (fun u => (UpcomingCheckout.bookingCode u,
                      UpcomingCheckout.remainingTime u))
         (upcomingCheckoutsList IsoUtc.Date_parse (fun _ => Examples.now0)
            [Examples.booking "A" "CHECKED_IN" "2024-05-01T06:00:00"
               "2024-05-01T09:00:00" 10;
             Examples.booking "B" "CHECKED_IN" "2024-05-01T08:00:00"
               "2024-05-01T10:30:00" 10;
             Examples.booking "C" "CHECKED_IN" "2024-05-01T08:00:00"
               "2024-05-01T13:00:00" 10;
             Examples.booking "D" "CHECKED_IN" "2024-05-01T08:00:00"
               "2024-05-01T12:00:00" 10;
             Examples.booking "E" "CHECKED_IN" "2024-05-01T08:00:00"
               "2024-05-01T10:00:00" 10])
       = [(js "B", js "0hr 30min"); (js "D", js "2hr 0min")].
Proof.
  intros Date_parse windowMs limit clock bookingsData ranked qualifying.
  assert (Hlen : forall w n,
             length (rankedWithin Date_parse w n clock bookingsData)
             = Nat.min n
                 (length (List.filter (inWindow w)
                            (mapClock Date_parse clock 0
                               (checkedInBookings bookingsData))))).
  { intros w n. unfold rankedWithin. rewrite length_firstn, sort_length.
    reflexivity. }
  split; [|split; [|split; [|split; [|split]]]].
  - apply List.Forall_forall. intros c Hc. unfold ranked, rankedWithin in Hc.
    apply firstn_In in Hc. apply (proj1 (sort_In _ _)) in Hc.
    apply filter_In in Hc as [Hc Hw]. split; [apply inWindow_spec; exact Hw|].
    apply mapClock_lookup in Hc as (b & j & Hj & ->).
    change (0 + j)%nat with j in *.
    destruct (inWindow_toEntry _ _ _ _ Hw) as (t & Et & Ht).
    pose proof (list_elem_of_lookup_2 _ _ _ Hj) as Hb.
    apply list_elem_of_In in Hb. apply filter_In in Hb as [Hb Hs].
    exists b, j, t.
    split; [exact Hb|]. split; [exact Hj|].
    split; [apply eqb_eq; exact Hs|]. split; [reflexivity|].
    split; [exact Et|]. split; [|exact Ht].
    apply toEntry_remainingMs. exact Et.
  - unfold ranked. rewrite Hlen. lia.
  - apply Hlen.
  - reflexivity.
  - unfold upcomingCheckoutsList. rewrite length_map, Hlen. lia.
  - vm_compute. reflexivity.
Qed.

(** C8.  Whatever the window, the limit and the clock, the kept entries are
    in ascending order of remaining time, the most urgent first; and for
    checked-in bookings with 5000 ms, 120000 ms and 45000 ms left, the
    dashboards list them in the order 5000, 45000, 120000. *)
Theorem upcoming_sorted_ascending :
  (forall (Date_parse : jsstring -> option Z) (windowMs : Z) (limit : nat)
          (clock : nat -> Z) (bookingsData : list Booking.t),
      StronglySorted Stated.notLater
        (rankedWithin Date_parse windowMs limit clock bookingsData))
  /\ (let bookings :=
        [Examples.booking "A" "CHECKED_IN" "2024-05-01T08:00:00"
           "2024-05-01T10:00:05" 10;
         Examples.booking "B" "CHECKED_IN" "2024-05-01T08:00:00"
           "2024-05-01T10:02:00" 10;
         Examples.booking "C" "CHECKED_IN" "2024-05-01T08:00:00"
           "2024-05-01T10:00:45" 10] in
      let clock := fun _ : nat => Examples.now0 in
      map CheckoutEntry.remainingMs
        (mapClock IsoUtc.Date_parse clock 0 (checkedInBookings bookings))
      = [Some 5000; Some 120000; Some 45000]
      /\ map CheckoutEntry.remainingMs
           (rankedWithin IsoUtc.Date_parse (2 * 60 * 60 * 1000) 3 clock bookings)
         = [Some 5000; Some 45000; Some 120000]
      /\ map UpcomingCheckout.bookingCode
           (upcomingCheckoutsList IsoUtc.Date_parse clock bookings)
         = [js "A"; js "C"; js "B"]).
Proof.
  split.
  - intros Date_parse windowMs limit clock bookingsData. unfold rankedWithin.
    apply firstn_sorted. apply (sort_sorted windowMs).
    apply candidates_within.
  - vm_compute. repeat split; reflexivity.
Qed.

(** ** Occupancy *)

(** C1.  With an empty room collection the occupancy rate is never a finite
    number: it is NaN when no booking is checked in (0 / 0) and +Infinity as
    soon as one is (n / 0).  It is 0 in neither case. *)
Theorem occupancyRate_without_rooms :
  forall bookingsData : list Booking.t,
    occupancyRate bookingsData []
    = (match checkedInBookings bookingsData with
       | [] => NaN
       | _ :: _ => PosInf
       end)
    /\ isFinite (occupancyRate bookingsData []) = false
    /\ occupancyRate bookingsData [] <> Fin 0.
Proof.
  intros bookingsData.
  assert (H : occupancyRate bookingsData []
              = match checkedInBookings bookingsData with
                | [] => NaN
                | _ :: _ => PosInf
                end).
  { unfold occupancyRate, checkedInBookings.
    destruct (List.filter (hasStatus "CHECKED_IN") bookingsData) as [|b l].
    - reflexivity.
    - cbn [length]. destruct (ofNat_S (length l)) as [E|(v & E & Hv)]; rewrite E.
      + reflexivity.
      + change (ofNat 0) with (Fin 0). unfold div.
        change (isZero 0) with true. cbv iota.
        assert (Hz : isZero v = false).
        { unfold isZero. apply not_true_iff_false. rewrite Qeq_bool_iff.
          intros C. rewrite C in Hv. discriminate. }
        assert (Hp : Qle_bool 0 v = true).
        { apply Qle_bool_iff. apply Qlt_le_weak. exact Hv. }
        rewrite Hz, Hp. reflexivity. }
  rewrite H. destruct (checkedInBookings bookingsData); repeat split; discriminate.
Qed.

(** ** Daily summary *)

Lemma onDay_spec (Date_parse : jsstring -> option Z) (startOfDay : Z -> Z)
    (now : Z) (s : jsstring) :
  onDay Date_parse startOfDay (startOfDay now) s = true
  <-> Stated.fallsOnDay Date_parse startOfDay now s.
Proof.
  unfold onDay, Stated.fallsOnDay. destruct (Date_parse s) as [t|].
  - rewrite Z.eqb_eq. split.
    + intros H. exists t. auto.
    + intros (t' & [= <-] & H). exact H.
  - split; [discriminate|]. intros (t & C & _). discriminate.
Qed.

Lemma filter_length_cons {A : Type} (f : A -> bool) (x : A) (l : list A) :
  length (List.filter f (x :: l))
  = ((if f x then 1 else 0) + length (List.filter f l))%nat.
Proof. simpl. destruct (f x); reflexivity. Qed.

Lemma filter_map_ext {A : Type} (f : A -> bool) (g : A -> A) (l : list A) :
  (forall x, f (g x) = f x) ->
  length (List.filter f (map g l)) = length (List.filter f l).
Proof.
  intros H. induction l as [|x l IH]; [reflexivity|].
  cbn [map]. rewrite !filter_length_cons, H, IH. reflexivity.
Qed.

(** C2 as amended.  The daily summary counts as check-ins exactly the
    bookings whose scheduled check-in falls on today's date, and as
    check-outs exactly those whose scheduled check-out does: a booking adds
    one to the count when its date falls on today and nothing otherwise, and
    giving the bookings any other statuses changes neither count. *)
Theorem dailySummary_counts_by_day_only :
  forall (Date_parse : jsstring -> option Z) (startOfDay : Z -> Z) (now : Z)
         (rooms : list Room.t),
    let summary := dailySummary Date_parse startOfDay now in
    let today := Stated.fallsOnDay Date_parse startOfDay now in
    DailySummary.checkIns (summary [] rooms) = 0%nat
    /\ DailySummary.checkOuts (summary [] rooms) = 0%nat
    /\ (forall b bs,
          (today (Booking.scheduledCheckIn b) ->
           DailySummary.checkIns (summary (b :: bs) rooms)
           = S (DailySummary.checkIns (summary bs rooms)))
          /\ (~ today (Booking.scheduledCheckIn b) ->
              DailySummary.checkIns (summary (b :: bs) rooms)
              = DailySummary.checkIns (summary bs rooms))
          /\ (today (Booking.scheduledCheckOut b) ->
              DailySummary.checkOuts (summary (b :: bs) rooms)
              = S (DailySummary.checkOuts (summary bs rooms)))
          /\ (~ today (Booking.scheduledCheckOut b) ->
              DailySummary.checkOuts (summary (b :: bs) rooms)
              = DailySummary.checkOuts (summary bs rooms)))
    /\ (forall (status : Booking.t -> jsstring) bs,
          let bs' := map (fun b => Stated.withStatus (status b) b) bs in
          DailySummary.checkIns (summary bs' rooms)
          = DailySummary.checkIns (summary bs rooms)
          /\ DailySummary.checkOuts (summary bs' rooms)
             = DailySummary.checkOuts (summary bs rooms)).
Proof.
  intros Date_parse startOfDay now rooms summary today.
  split; [reflexivity|]. split; [reflexivity|]. split.
  - intros b bs. unfold summary, dailySummary, todayCheckIns, todayCheckOuts.
    cbn [DailySummary.checkIns DailySummary.checkOuts].
    rewrite !filter_length_cons.
    pose proof (onDay_spec Date_parse startOfDay now
                  (Booking.scheduledCheckIn b)) as Hin.
    pose proof (onDay_spec Date_parse startOfDay now
                  (Booking.scheduledCheckOut b)) as Hout.
    fold today in Hin, Hout.
    destruct (onDay _ _ _ (Booking.scheduledCheckIn b));
      destruct (onDay _ _ _ (Booking.scheduledCheckOut b));
      repeat split; intros H; try reflexivity;
      try (exfalso; apply H; tauto);
      try (apply Hin in H; discriminate);
      try (apply Hout in H; discriminate).
  - intros status bs bs'. unfold summary, dailySummary, todayCheckIns, todayCheckOuts.
    cbn [DailySummary.checkIns DailySummary.checkOuts]. unfold bs'.
    split; apply filter_map_ext; reflexivity.
Qed.

Lemma dailySummary_counts_by_day_only_witness :
  Stated.fallsOnDay IsoUtc.Date_parse IsoUtc.startOfDay Examples.now0
    (js "2024-05-01T14:00:00")
  /\ DailySummary.checkIns
       (dailySummary IsoUtc.Date_parse IsoUtc.startOfDay Examples.now0
          [Examples.booking "B1" "CANCELLED" "2024-05-01T14:00:00"
             "2024-05-02T09:00:00" 50] [])
     = 1%nat.
Proof.
  assert (H : Stated.fallsOnDay IsoUtc.Date_parse IsoUtc.startOfDay
                Examples.now0 (js "2024-05-01T14:00:00")).
  { exists 1714572000000. split; vm_compute; reflexivity. }
  split; [exact H|].
  destruct (dailySummary_counts_by_day_only IsoUtc.Date_parse
              IsoUtc.startOfDay Examples.now0 []) as (_ & _ & K & _).
  destruct (K (Examples.booking "B1" "CANCELLED" "2024-05-01T14:00:00"
                 "2024-05-02T09:00:00" 50) []) as (A & _).
  exact (A H).
Defined.

(** C2, refuted as stated: a canceled booking scheduled for today, and a
    reserved one due to leave today, are counted by the summary; the counts
    restricted to reserved and to checked-in bookings are both 0. *)
Lemma dailySummary_counts_any_status :
  let bookings :=
    [Examples.booking "B1" "CANCELLED" "2024-05-01T14:00:00"
       "2024-05-02T09:00:00" 50;
     Examples.booking "B2" "RESERVED" "2024-04-30T14:00:00"
       "2024-05-01T16:00:00" 30] in
  let summary :=
    dailySummary IsoUtc.Date_parse IsoUtc.startOfDay Examples.now0
      bookings [Examples.room101] in
  DailySummary.checkIns summary = 1%nat
  /\ Stated.checkIns IsoUtc.Date_parse IsoUtc.startOfDay Examples.now0 bookings
     = 0%nat
  /\ DailySummary.checkOuts summary = 1%nat
  /\ Stated.checkOuts IsoUtc.Date_parse IsoUtc.startOfDay Examples.now0 bookings
     = 0%nat.
Proof. vm_compute. repeat split; reflexivity. Qed.

(** ** Task counts *)

(** C3 as amended.  The task counts take no room-inspection input: whatever
    the runtime, the clock and the bookings, the room-inspection count is
    the placeholder 4, and so the same for any two inputs. *)
Theorem taskCounts_roomInspections_placeholder :
  forall (toISOString toISOString' : Z -> jsstring) (now now' : Z)
         (data data' : list Booking.t),
    TaskCount.roomInspections (taskCounts toISOString now data) = 4
    /\ TaskCount.roomInspections (taskCounts toISOString now data)
       = TaskCount.roomInspections (taskCounts toISOString' now' data').
Proof. intros. split; reflexivity. Qed.

(** C3, refuted as stated: there is a constant that the room-inspection
    count equals on every input. *)
Lemma taskCounts_roomInspections_is_constant :
  exists c : Z,
    forall (toISOString : Z -> jsstring) (now : Z) (data : list Booking.t),
      TaskCount.roomInspections (taskCounts toISOString now data) = c.
Proof. exists 4. intros. reflexivity. Qed.

(** ** Status comparison *)

Lemma hasStatus_false (s : string) (b : Booking.t) :
  Booking.status b <> js s -> hasStatus s b = false.
Proof. intros H. apply eqb_neq. exact H. Qed.

Lemma filter_app_skip {A : Type} (f : A -> bool) (l1 l2 : list A) (x : A) :
  f x = false ->
  List.filter f (l1 ++ x :: l2) = List.filter f (l1 ++ l2).
Proof.
  intros H. rewrite !List.filter_app. cbn [List.filter]. rewrite H. reflexivity.
Qed.

(** C4 as amended.  Statuses are compared with the exact string CHECKED_IN,
    with no case folding: a booking whose status is any other string, a
    different casing included, adds nothing to the occupancy rate, to the
    upcoming checkouts or to the receptionist's check-out count, while a
    booking whose status is exactly CHECKED_IN adds one occupied room. *)
Theorem status_compared_exactly :
  forall (Date_parse : jsstring -> option Z) (toISOString : Z -> jsstring)
         (clock : nat -> Z) (now : Z) (rooms : list Room.t)
         (b : Booking.t) (bs1 bs2 : list Booking.t),
    Booking.status b <> js "CHECKED_IN" ->
    occupancyRate (bs1 ++ b :: bs2) rooms = occupancyRate (bs1 ++ bs2) rooms
    /\ upcomingCheckoutsList Date_parse clock (bs1 ++ b :: bs2)
       = upcomingCheckoutsList Date_parse clock (bs1 ++ bs2)
    /\ TaskCount.checkOuts (taskCounts toISOString now (bs1 ++ b :: bs2))
       = TaskCount.checkOuts (taskCounts toISOString now (bs1 ++ bs2))
    /\ length (checkedInBookings
                 (bs1 ++ Stated.withStatus (js "CHECKED_IN") b :: bs2))
       = S (length (checkedInBookings (bs1 ++ bs2))).
Proof.
  intros Date_parse toISOString clock now rooms b bs1 bs2 Hb.
  apply (hasStatus_false "CHECKED_IN") in Hb.
  repeat split.
  - unfold occupancyRate. rewrite filter_app_skip by exact Hb. reflexivity.
  - unfold upcomingCheckoutsList, rankedWithin, checkedInBookings.
    rewrite filter_app_skip by exact Hb. reflexivity.
  - unfold taskCounts. cbn [TaskCount.checkOuts].
    rewrite filter_app_skip; [reflexivity|].
    rewrite Hb. apply andb_false_r.
  - unfold checkedInBookings. rewrite !List.filter_app, !length_app.
    cbn [List.filter]. 
    replace (hasStatus "CHECKED_IN" (Stated.withStatus (js "CHECKED_IN") b))
      with true by (symmetry; apply eqb_eq; reflexivity).
    cbn [length]. lia.
Qed.

Lemma status_compared_exactly_witness :
  occupancyRate
    [Examples.booking "B1" "checked_in" "2024-05-01T08:00:00"
       "2024-05-01T11:00:00" 50] [Examples.room101]
  = occupancyRate [] [Examples.room101].
Proof.
  apply (status_compared_exactly IsoUtc.Date_parse IsoUtc.toISOString
           (fun _ => Examples.now0) Examples.now0 [Examples.room101]
           (Examples.booking "B1" "checked_in" "2024-05-01T08:00:00"
              "2024-05-01T11:00:00" 50) [] []).
  vm_compute. discriminate.
Defined.

(** C4, refuted as stated: the same booking, due to leave in one hour, is
    counted when its status reads CHECKED_IN and missed by the occupancy
    rate, by the upcoming checkouts and by the receptionist's check-out
    count when it reads checked_in. *)
Lemma lower_case_status_not_counted :
  let upper := [Examples.booking "B1" "CHECKED_IN" "2024-05-01T08:00:00"
                  "2024-05-01T11:00:00" 50] in
  let lower := [Examples.booking "B1" "checked_in" "2024-05-01T08:00:00"
                  "2024-05-01T11:00:00" 50] in
  let clock := fun _ : nat => Examples.now0 in
  occupancyRate upper [Examples.room101] = Fin 100
  /\ occupancyRate lower [Examples.room101] = Fin 0
  /\ map UpcomingCheckout.remainingTime
       (upcomingCheckoutsList IsoUtc.Date_parse clock upper) = [js "1hr 0min"]
  /\ upcomingCheckoutsList IsoUtc.Date_parse clock lower = []
  /\ TaskCount.checkOuts (taskCounts IsoUtc.toISOString Examples.now0 upper)
     = 1%nat
  /\ TaskCount.checkOuts (taskCounts IsoUtc.toISOString Examples.now0 lower)
     = 0%nat.
Proof. vm_compute. repeat split; reflexivity. Qed.

(** ** Scenarios *)

(** The end-to-end scenario: the token decodes to the administrator's claims
    and is valid at the start of 2024. *)
Example adminToken_scenario :
  parseJwt Examples.adminToken
  = JObject [(js "id", JString (js "1")); (js "role", JString (js "ADMIN"));
             (js "exp", JNumber (Fin 9999999999))]
  /\ isTokenValid Examples.noCoercion Examples.adminToken 1704067200000 = true
  /\ getUserRoleFromToken (<["authToken"%string := Examples.adminToken]> ∅)
     = JString (js "ADMIN").
Proof. vm_compute. repeat split; reflexivity. Qed.

(** After the session is cleared every accessor returns null, and clearing
    twice is clearing once. *)
Lemma clearAuthToken_accessors (localStorage : gmap string jsstring) :
  getUserRoleFromToken (clearAuthToken localStorage) = JNull
  /\ getUserIdFromToken (clearAuthToken localStorage) = JNull
  /\ getUsername (clearAuthToken localStorage) = JNull
  /\ clearAuthToken (clearAuthToken localStorage) = clearAuthToken localStorage.
Proof.
  unfold getUserRoleFromToken, getUserIdFromToken, getUsername, accessor,
    clearAuthToken.
  rewrite lookup_delete_eq. repeat split. apply delete_delete_eq.
Qed.

(** Three checked-in bookings in ten rooms: 30 percent. *)
Example occupancy_three_of_ten :
  occupancyRate
    (repeat (Examples.booking "B" "CHECKED_IN" "2024-05-01T08:00:00"
               "2024-05-01T11:00:00" 50) 3)
    (repeat Examples.room101 10)
  = Fin 30.
Proof. vm_compute. reflexivity. Qed.

(** Revenue counts the bookings that check in today only. *)
Example revenue_of_today :
  todayRevenue IsoUtc.Date_parse IsoUtc.startOfDay
    (IsoUtc.startOfDay Examples.now0)
    [Examples.booking "B1" "RESERVED" "2024-05-01T14:00:00"
       "2024-05-02T09:00:00" 50;
     Examples.booking "B2" "CHECKED_OUT" "2024-04-30T14:00:00"
       "2024-05-01T09:00:00" 30]
  = Fin 50.
Proof. vm_compute. reflexivity. Qed.

(** * Further properties of the credential decoder *)

(** ** Header and signature *)

(** X1.  The first segment of a token and whatever follows the second dot
    are never inspected: two tokens with the same second segment decode to
    the same claims, are valid at the same times, and give the same
    accessor results.  No signature is verified. *)
Theorem header_and_signature_ignored :
  forall (h h' p sig sig' : jsstring),
    ~ In 46 h -> ~ In 46 h' -> ~ In 46 p ->
    let token := h ++ 46 :: p ++ 46 :: sig in
    let token' := h' ++ 46 :: p ++ 46 :: sig' in
    parseJwt token = parseJwt token'
    /\ (forall toNumberOther now,
          isTokenValid toNumberOther token now
          = isTokenValid toNumberOther token' now)
    /\ (forall store store' : gmap string jsstring,
          store !! "authToken"%string = Some token ->
          store' !! "authToken"%string = Some token' ->
          getUserRoleFromToken store = getUserRoleFromToken store'
          /\ getUserIdFromToken store = getUserIdFromToken store'
          /\ getUsername store = getUsername store').
Proof.
  intros h h' p sig sig' Hh Hh' Hp token token'.
  assert (E : parseJwt token = parseJwt token').
  { unfold parseJwt, token, token'. rewrite !split_second; eauto. }
  split; [exact E|]. split.
  - intros toNumberOther now. unfold isTokenValid. rewrite E. reflexivity.
  - intros store store' Hs Hs'.
    assert (Hne : forall (a b c : jsstring), a ++ 46 :: b ++ 46 :: c <> [])
      by (intros [|x a] b c; discriminate).
    unfold getUserRoleFromToken, getUserIdFromToken, getUsername, accessor.
    rewrite Hs, Hs'. fold token token'. rewrite E.
    destruct token eqn:Et; [exfalso; exact (Hne _ _ _ Et)|].
    destruct token' eqn:Et'; [exfalso; exact (Hne _ _ _ Et')|].
    repeat split; reflexivity.
Qed.

Lemma header_and_signature_ignored_witness :
  parseJwt Examples.adminToken
  = parseJwt
      (js "x.eyJpZCI6IjEiLCJyb2xlIjoiQURNSU4iLCJleHAiOjk5OTk5OTk5OTl9.forged").
Proof.
  refine (proj1 (header_and_signature_ignored (js "a") (js "x")
            (js "eyJpZCI6IjEiLCJyb2xlIjoiQURNSU4iLCJleHAiOjk5OTk5OTk5OTl9")
            (js "sig") (js "forged") _ _ _));
    vm_compute; intuition discriminate.
Defined.

(** ** Accessors *)

(** X2.  An accessor returns a value other than null exactly when a token is
    stored, the token decodes to claims that carry the field, and the value
    of the field is truthy; it then returns that value as it is, whatever
    its type: the role is not checked against the four known roles. *)
Theorem accessor_value_iff :
  forall (store : gmap string jsstring) (r : jsval),
    r <> JNull ->
    (getUserRoleFromToken store = r
     <-> exists token,
           store !! "authToken"%string = Some token
           /\ getProp (parseJwt token) (js "role") = Some r
           /\ truthy r = true)
    /\ (getUserIdFromToken store = r
        <-> exists token,
              store !! "authToken"%string = Some token
              /\ getProp (parseJwt token) (js "id") = Some r
              /\ truthy r = true)
    /\ (getUsername store = r
        <-> exists token,
              store !! "authToken"%string = Some token
              /\ getProp (parseJwt token) (js "username") = Some r
              /\ truthy r = true).
Proof.
  intros store r Hr.
  assert (H : forall field,
             accessor field store = r
             <-> exists token,
                   store !! "authToken"%string = Some token
                   /\ getProp (parseJwt token) (js field) = Some r
                   /\ truthy r = true).
  { intros field. unfold accessor.
    destruct (store !! "authToken"%string) as [token|] eqn:Es.
    - split.
      + intros E. exists token. split; [reflexivity|].
        destruct token as [|c t]; [congruence|].
        destruct (getProp (parseJwt (c :: t)) (js field)) as [v|];
          cbn [orNull] in E; [|congruence].
        destruct (truthy v) eqn:Ev; [|congruence]. subst v. auto.
      + intros (token' & [= <-] & Hf & Ht).
        destruct token as [|c t]; [discriminate|].
        rewrite Hf. cbn [orNull]. rewrite Ht. reflexivity.
    - split; [congruence|]. intros (token & C & _). discriminate. }
  repeat split; apply H.
Qed.

Lemma accessor_value_iff_witness :
  getUserRoleFromToken (<["authToken"%string := Examples.adminToken]> ∅)
  = JString (js "ADMIN").
Proof.
  refine (proj2 (proj1 (accessor_value_iff
                   (<["authToken"%string := Examples.adminToken]> ∅)
                   (JString (js "ADMIN")) _)) _).
  - discriminate.
  - exists Examples.adminToken. vm_compute. repeat split; reflexivity.
Defined.

(** X3.  End to end: when the session store holds a token whose second
    segment is the base64url encoding, padded or not, of the UTF-8 form of a
    JSON object, each accessor returns the string the object gives for its
    field, character for character (characters outside ASCII included),
    provided the string is not empty. *)
Theorem accessor_reads_encoded_claims :
  forall (store : gmap string jsstring) (h sig : jsstring) (pad : bool)
         (text : list Z) (members : list (jsstring * jtext)),
    ~ In 46 h ->
    Forall Uri.scalar text ->
    parseText (Uri.utf16Text text) = Some (TObject members) ->
    store !! "authToken"%string
    = Some (h ++ 46 :: Base64.base64url pad (Uri.utf8 text) ++ 46 :: sig) ->
    forall (c : Z) (u : jsstring),
      (lastMember (js "role") members = Some (TString (c :: u)) ->
       getUserRoleFromToken store = JString (c :: u))
      /\ (lastMember (js "id") members = Some (TString (c :: u)) ->
          getUserIdFromToken store = JString (c :: u))
      /\ (lastMember (js "username") members = Some (TString (c :: u)) ->
          getUsername store = JString (c :: u)).
Proof.
  intros store h sig pad text members Hh Htext Hparse Hstore c u.
  assert (H : forall field,
             lastMember (js field) members = Some (TString (c :: u)) ->
             accessor field store = JString (c :: u)).
  { intros field Hf. unfold accessor. rewrite Hstore.
    destruct (h ++ 46 :: Base64.base64url pad (Uri.utf8 text) ++ 46 :: sig)
      as [|x t] eqn:E; [destruct h; discriminate|].
    rewrite <- E, parseJwt_encoded by assumption.
    unfold JSON_parse. rewrite Hparse.
    change (default JNull (Some (valueOf (TObject members))))
      with (valueOf (TObject members)).
    cbn [valueOf getProp]. rewrite lastMember_valueOf, Hf. reflexivity. }
  repeat split; apply H.
Qed.

(** The claims [{'username':'José'}], the accent taking two bytes in the
    token. *)
Lemma accessor_reads_encoded_claims_witness :
  Base64.base64url false
    (Uri.utf8 (Examples.jsq "{'username':'Jos" ++ [233] ++ Examples.jsq "'}"))
  = js "eyJ1c2VybmFtZSI6Ikpvc8OpIn0"
  /\ getUsername
       (<["authToken"%string := js "a.eyJ1c2VybmFtZSI6Ikpvc8OpIn0.sig"]> ∅)
     = JString (js "Jos" ++ [233]).
Proof.
  split; [vm_compute; reflexivity|].
  refine (proj2 (proj2
    (accessor_reads_encoded_claims
       (<["authToken"%string := js "a.eyJ1c2VybmFtZSI6Ikpvc8OpIn0.sig"]> ∅)
       (js "a") (js "sig") false
       (Examples.jsq "{'username':'Jos" ++ [233] ++ Examples.jsq "'}")
       [(js "username", TString (js "Jos" ++ [233]))] _ _ _ _ 74
       (js "os" ++ [233]))) _).
  - vm_compute. intuition discriminate.
  - let t := eval vm_compute in
        (Examples.jsq "{'username':'Jos" ++ [233] ++ Examples.jsq "'}") in
    change (Forall Uri.scalar t).
    repeat (apply List.Forall_cons; [unfold Uri.scalar; lia|]).
    apply List.Forall_nil.
  - vm_compute. reflexivity.
  - vm_compute. reflexivity.
  - vm_compute. reflexivity.
Defined.

(** ** Clearing the session *)

(** X4.  After clearAuthToken every accessor returns null, whatever was
    stored; the other entries of the store are untouched; clearing a second
    time, or clearing a store that held no token, changes nothing. *)
Theorem clearAuthToken_clears_session :
  forall store : gmap string jsstring,
    getUserRoleFromToken (clearAuthToken store) = JNull
    /\ getUserIdFromToken (clearAuthToken store) = JNull
    /\ getUsername (clearAuthToken store) = JNull
    /\ (forall key : string,
          key <> "authToken"%string ->
          clearAuthToken store !! key = store !! key)
    /\ clearAuthToken (clearAuthToken store) = clearAuthToken store
    /\ (store !! "authToken"%string = None -> clearAuthToken store = store).
Proof.
  intros store.
  unfold getUserRoleFromToken, getUserIdFromToken, getUsername, accessor,
    clearAuthToken.
  rewrite lookup_delete_eq. repeat split.
  - intros key Hkey. apply lookup_delete_ne. congruence.
  - apply delete_delete_eq.
  - apply delete_id.
Qed.

Lemma clearAuthToken_clears_session_witness :
  clearAuthToken (<["theme"%string := js "dark"]> ∅)
  = <["theme"%string := js "dark"]> ∅.
Proof.
  refine (proj2 (proj2 (proj2 (proj2 (proj2
    (clearAuthToken_clears_session (<["theme"%string := js "dark"]> ∅)))))) _).
  vm_compute. reflexivity.
Defined.

(** ** Validity *)

(** X5.  A token is valid only if it has at least two dot-separated
    segments and decodes to an object with an [exp] member: a token that
    does not decode, that decodes to something else than an object, or
    whose claims carry no expiry is invalid at every time. *)
Theorem isTokenValid_needs_expiry :
  forall (toNumberOther : jsval -> option number) (token : jsstring) (now : Z),
    isTokenValid toNumberOther token now = true ->
    (2 <= length (split 46 token))%nat
    /\ exists members v,
         parseJwt token = JObject members
         /\ lastMember (js "exp") members = Some v.
Proof.
  intros toNumberOther token now H. split.
  - destruct (Nat.lt_ge_cases (length (split 46 token)) 2) as [Hlt|Hge];
      [|exact Hge].
    exfalso. unfold isTokenValid, parseJwt in H.
    rewrite split_length_one in H by exact Hlt. discriminate.
  - unfold isTokenValid in H.
    assert (Hnan : forall x, gtb NaN x = false) by (intros []; reflexivity).
    destruct (parseJwt token) as [| b | n | s | items | members];
      cbn [truthy negb getProp toNumber] in H; try discriminate.
    + destruct b; cbn [negb] in H; [|discriminate].
      change (gtb NaN (currentTime now) = true) in H.
      rewrite (Hnan (currentTime now)) in H. discriminate.
    + destruct (JsNumber.truthy n); cbn [negb] in H; [|discriminate].
      change (gtb NaN (currentTime now) = true) in H.
      rewrite (Hnan (currentTime now)) in H. discriminate.
    + destruct s; cbn [negb] in H; [discriminate|].
      change (gtb NaN (currentTime now) = true) in H.
      rewrite (Hnan (currentTime now)) in H. discriminate.
    + change (gtb NaN (currentTime now) = true) in H.
      rewrite (Hnan (currentTime now)) in H. discriminate.
    + exists members. destruct (lastMember (js "exp") members) as [v|].
      * exists v. auto.
      * change (gtb NaN (currentTime now) = true) in H.
      rewrite (Hnan (currentTime now)) in H. discriminate.
Qed.

Lemma isTokenValid_needs_expiry_witness :
  (2 <= length (split 46 Examples.adminToken))%nat.
Proof.
  refine (proj1 (isTokenValid_needs_expiry Examples.noCoercion
                   Examples.adminToken 1704067200000 _)).
  vm_compute. reflexivity.
Defined.

(** * Further properties of the booking aggregation *)

(** ** Which checkouts are kept *)

Lemma insert_permutation (a : CheckoutEntry.t) (l : list CheckoutEntry.t) :
  Permutation (a :: l) (insert a l).
Proof.
  induction l as [|b l IH]; [reflexivity|].
  cbn [insert]. destruct (notAfter a b); [reflexivity|].
  rewrite perm_swap. constructor. exact IH.
Qed.

Lemma sort_permutation (l : list CheckoutEntry.t) : Permutation l (sort l).
Proof.
  induction l as [|a l IH]; [reflexivity|].
  change (sort (a :: l)) with (insert a (sort l)).
  rewrite <- insert_permutation. constructor. exact IH.
Qed.

Lemma sorted_app_le (l1 l2 : list CheckoutEntry.t) :
  StronglySorted Stated.notLater (l1 ++ l2) ->
  forall a b, In a l1 -> In b l2 -> Stated.notLater a b.
Proof.
  induction l1 as [|x l1 IH]; intros Hs a b Ha Hb; [destruct Ha|].
  cbn [app] in Hs. apply StronglySorted_inv in Hs as [Hs Hx].
  destruct Ha as [<-|Ha].
  - rewrite List.Forall_forall in Hx. apply Hx. apply in_or_app. right.
    exact Hb.
  - exact (IH Hs a b Ha Hb).
Qed.

(** X6.  The limit only ever drops the least urgent: the entries kept and
    the entries dropped together are exactly the qualifying ones, every kept
    entry has no more time left than any dropped one, and nothing is
    dropped when no more than [limit] bookings qualify. *)
Theorem upcoming_keeps_most_urgent :
  forall (Date_parse : jsstring -> option Z) (windowMs : Z) (limit : nat)
         (clock : nat -> Z) (bookingsData : list Booking.t),
    let qualifying :=
      List.filter (inWindow windowMs)
        (mapClock Date_parse clock 0 (checkedInBookings bookingsData)) in
    let kept := rankedWithin Date_parse windowMs limit clock bookingsData in
    exists dropped,
      Permutation qualifying (kept ++ dropped)
      /\ (forall a b, In a kept -> In b dropped -> Stated.notLater a b)
      /\ ((length qualifying <= limit)%nat -> dropped = []).
Proof.
  intros Date_parse windowMs limit clock bookingsData qualifying kept.
  exists (skipn limit (sort qualifying)).
  assert (E : kept ++ skipn limit (sort qualifying) = sort qualifying)
    by apply firstn_skipn.
  repeat split.
  - rewrite E. apply sort_permutation.
  - apply sorted_app_le. rewrite E. apply (sort_sorted windowMs).
    apply candidates_within.
  - intros Hlen. apply skipn_all2. rewrite sort_length. exact Hlen.
Qed.

(** ** The remaining time shown *)



(** ** Revenue *)

Lemma add_whole (a z : Z) :
  Z.abs (a + z) <= 2 ^ 53 ->
  add (Fin (inject_Z a)) (Fin (inject_Z z)) = Fin (inject_Z (a + z)).
Proof.
  intros H. unfold add.
  replace (inject_Z a + inject_Z z)%Q with (inject_Z (a + z)).
  - apply roundToDouble_safe_integer. exact H.
  - unfold Qplus, inject_Z. cbn [Qnum Qden].
    rewrite !Z.mul_1_r. reflexivity.
Qed.

Lemma fold_add_whole (zs : list Z) :
  forall a,
    0 <= a -> Forall (fun z => 0 <= z) zs ->
    a + fold_right Z.add 0 zs <= 2 ^ 53 ->
    fold_left add (map (fun z => Fin (inject_Z z)) zs) (Fin (inject_Z a))
    = Fin (inject_Z (a + fold_right Z.add 0 zs)).
Proof.
  induction zs as [|z zs IH]; intros a Ha Hzs Hsum; cbn [map fold_left fold_right] in *.
  - rewrite Z.add_0_r. reflexivity.
  - apply Forall_cons_iff in Hzs as [Hz Hzs].
    assert (Hrest : 0 <= fold_right Z.add 0 zs).
    { clear -Hzs. induction Hzs; cbn [fold_right]; lia. }
    rewrite add_whole by lia.
    rewrite IH by (try assumption; lia).
    f_equal. f_equal. lia.
Qed.

Lemma fold_left_map {A B C : Type} (f : A -> C -> A) (g : B -> C)
    (l : list B) (a : A) :
  fold_left (fun acc b => f acc (g b)) l a = fold_left f (map g l) a.
Proof. revert a. induction l as [|b l IH]; intros a; cbn; auto. Qed.

(** X8.  A booking that is not scheduled to check in today, an unreadable
    date included, contributes nothing to today's revenue wherever it
    stands in the collection; and when today's charges are whole,
    non-negative numbers whose sum is at most 2^53, the revenue is exactly
    their sum. *)
Theorem todayRevenue_exact :
  forall (Date_parse : jsstring -> option Z) (startOfDay : Z -> Z) (now : Z)
         (bookingsData : list Booking.t) (charges : list Z),
    map Booking.totalCharges
      (List.filter (fun b => onDay Date_parse startOfDay (startOfDay now)
                               (Booking.scheduledCheckIn b))
         bookingsData)
    = map (fun z => Fin (inject_Z z)) charges ->
    Forall (fun z => 0 <= z) charges ->
    fold_right Z.add 0 charges <= 2 ^ 53 ->
    todayRevenue Date_parse startOfDay (startOfDay now) bookingsData
    = Fin (inject_Z (fold_right Z.add 0 charges))
    /\ (forall b bs1 bs2,
          ~ Stated.fallsOnDay Date_parse startOfDay now
              (Booking.scheduledCheckIn b) ->
          todayRevenue Date_parse startOfDay (startOfDay now)
            (bs1 ++ b :: bs2)
          = todayRevenue Date_parse startOfDay (startOfDay now) (bs1 ++ bs2)).
Proof.
  intros Date_parse startOfDay now bookingsData charges Hmap Hpos Hsum. split.
  - unfold todayRevenue. rewrite (fold_left_map add Booking.totalCharges).
    rewrite Hmap. change (Fin 0) with (Fin (inject_Z 0)).
    rewrite fold_add_whole by (try assumption; lia). reflexivity.
  - intros b bs1 bs2 Hb. unfold todayRevenue.
    rewrite filter_app_skip; [reflexivity|].
    apply not_true_iff_false. rewrite onDay_spec. exact Hb.
Qed.

Lemma todayRevenue_exact_witness :
  todayRevenue IsoUtc.Date_parse IsoUtc.startOfDay
    (IsoUtc.startOfDay Examples.now0)
    [Examples.booking "B1" "RESERVED" "2024-05-01T14:00:00"
       "2024-05-02T09:00:00" 50;
     Examples.booking "B2" "CHECKED_OUT" "2024-04-30T14:00:00"
       "2024-05-01T09:00:00" 30;
     Examples.booking "B3" "CANCELLED" "2024-05-01T18:00:00"
       "2024-05-02T09:00:00" 20]
  = Fin (inject_Z (fold_right Z.add 0 [50; 20])).
Proof.
  refine (proj1 (todayRevenue_exact IsoUtc.Date_parse IsoUtc.startOfDay
                   Examples.now0 _ [50; 20] _ _ _)).
  - vm_compute. reflexivity.
  - repeat (apply List.Forall_cons; [lia|]). apply List.Forall_nil.
  - cbn [fold_right]. lia.
Defined.

(** ** Task counts *)

Lemma filter_and_le {A : Type} (f g : A -> bool) (l : list A) :
  (length (List.filter (fun x => f x && g x) l)
   <= length (List.filter g l))%nat.
Proof.
  induction l as [|x l IH]; [reflexivity|].
  cbn [List.filter]. destruct (f x), (g x); cbn [andb length]; lia.
Qed.

Lemma filter_disjoint_le {A : Type} (f g : A -> bool) (l : list A) :
  (forall x, f x = true -> g x = false) ->
  (length (List.filter f l) + length (List.filter g l) <= length l)%nat.
Proof.
  intros H. induction l as [|x l IH]; [reflexivity|].
  cbn [List.filter]. specialize (H x).
  destruct (f x), (g x); cbn [length]; lia.
Qed.

Lemma reserved_not_checked_in (b : Booking.t) :
  hasStatus "RESERVED" b = true -> hasStatus "CHECKED_IN" b = false.
Proof.
  unfold hasStatus. intros H. apply eqb_eq in H. rewrite H. reflexivity.
Qed.

(** X9.  The receptionist's counts are consistent with one another and with
    the admin summary: the check-ins to do never exceed the reservations,
    the check-outs to do never exceed the checked-in bookings, the two
    together never exceed the bookings, and the reservations are the
    admin's pending payments. *)
Theorem taskCounts_consistent :
  forall (toISOString : Z -> jsstring) (now : Z) (data : list Booking.t),
    let counts := taskCounts toISOString now data in
    (TaskCount.checkIns counts <= TaskCount.reservations counts)%nat
    /\ (TaskCount.checkOuts counts <= length (checkedInBookings data))%nat
    /\ (TaskCount.checkIns counts + TaskCount.checkOuts counts
        <= length data)%nat
    /\ (TaskCount.reservations counts + length (checkedInBookings data)
        <= length data)%nat
    /\ TaskCount.reservations counts = pendingPayments data.
Proof.
  intros toISOString now data counts.
  pose proof (filter_and_le
                (fun b => includes (Booking.scheduledCheckIn b)
                            (isoDay toISOString now))
                (hasStatus "RESERVED") data) as Hin.
  pose proof (filter_and_le
                (fun b => includes (Booking.scheduledCheckOut b)
                            (isoDay toISOString now))
                (hasStatus "CHECKED_IN") data) as Hout.
  pose proof (filter_disjoint_le (hasStatus "RESERVED")
                (hasStatus "CHECKED_IN") data reserved_not_checked_in) as Hd.
  unfold counts, taskCounts, checkedInBookings, pendingPayments.
  cbn [TaskCount.checkIns TaskCount.checkOuts TaskCount.reservations].
  cbv beta in Hin, Hout. repeat split; lia.
Qed.

(** * Properties of the components' handlers *)

(** ** Checking a guest out *)

Lemma withoutBooking_In (code : jsstring) (l : list UpcomingCheckout.t)
    (c : UpcomingCheckout.t) :
  In c (ReceptionistDashboard.withoutBooking code l)
  <-> In c l /\ UpcomingCheckout.bookingCode c <> code.
Proof.
  unfold ReceptionistDashboard.withoutBooking.
  rewrite filter_In, negb_true_iff, eqb_neq. reflexivity.
Qed.

Lemma withoutBooking_length (code : jsstring) (l : list UpcomingCheckout.t) :
  (length (ReceptionistDashboard.withoutBooking code l) <= length l)%nat.
Proof.
  unfold ReceptionistDashboard.withoutBooking.
  induction l as [|c l IH]; [reflexivity|].
  cbn [List.filter]. destruct (negb _); cbn [length]; lia.
Qed.

Lemma withoutBooking_sublist (code : jsstring) (l : list UpcomingCheckout.t) :
  sublist (ReceptionistDashboard.withoutBooking code l) l.
Proof.
  unfold ReceptionistDashboard.withoutBooking.
  induction l as [|c l IH]; [constructor|].
  cbn [List.filter]. destruct (negb _); constructor; exact IH.
Qed.

Lemma withoutBooking_twice (code : jsstring) (l : list UpcomingCheckout.t) :
  ReceptionistDashboard.withoutBooking code
    (ReceptionistDashboard.withoutBooking code l)
  = ReceptionistDashboard.withoutBooking code l.
Proof.
  unfold ReceptionistDashboard.withoutBooking.
  set (f := fun checkout => negb _).
  induction l as [|c l IH]; [reflexivity|].
  cbn [List.filter]. destruct (f c) eqn:E; [|exact IH].
  cbn [List.filter]. rewrite E, IH. reflexivity.
Qed.

(** X10.  When the backend accepts a checkout, handleCheckout lists the
    entries its closure captured at the click, less every entry with that
    booking code and nothing else, the others keeping their order; the tab,
    the three forms, the task counts and the loading flag are left as they
    were; a second checkout of the same booking from the new list changes
    nothing more.  When the request fails or is refused, the state is
    unchanged and the destructive error toast is raised.  A click is
    possible only while the booking is listed, and whether the answer comes
    at once or after a refresh has come and gone in between, the list after
    the answer is the one shown at the click less that booking: what the
    refresh listed is overwritten. *)
Theorem handleCheckout_removes_booking :
  forall (Date_parse : jsstring -> option Z) (toISOString : Z -> jsstring)
         (bookingCode : jsstring) (captured : list UpcomingCheckout.t)
         (st : ReceptionistDashboard.State),
    let done :=
      ReceptionistDashboard.handleCheckout bookingCode (Some true) captured
        st in
    let listed := ReceptionistDashboard.upcomingCheckouts in
    let step := ReceptionistDashboard.step Date_parse toISOString in
    let run := ReceptionistDashboard.run Date_parse toISOString in
    (forall c, In c (listed (fst done))
               <-> In c captured
                   /\ UpcomingCheckout.bookingCode c <> bookingCode)
    /\ sublist (listed (fst done)) captured
    /\ ReceptionistDashboard.activeTab (fst done)
       = ReceptionistDashboard.activeTab st
    /\ ReceptionistDashboard.showAssignForm (fst done)
       = ReceptionistDashboard.showAssignForm st
    /\ ReceptionistDashboard.showBookingForm (fst done)
       = ReceptionistDashboard.showBookingForm st
    /\ ReceptionistDashboard.showCheckInForm (fst done)
       = ReceptionistDashboard.showCheckInForm st
    /\ ReceptionistDashboard.taskCounts (fst done)
       = ReceptionistDashboard.taskCounts st
    /\ ReceptionistDashboard.loading (fst done)
       = ReceptionistDashboard.loading st
    /\ snd done = ReceptionistDashboard.checkoutSuccess
    /\ ReceptionistDashboard.handleCheckout bookingCode (Some true)
         (listed (fst done)) (fst done)
       = done
    /\ (forall response,
          response <> Some true ->
          ReceptionistDashboard.handleCheckout bookingCode response captured
            st
          = (st, ReceptionistDashboard.checkoutError))
    /\ (forall sys clicked,
          step (ReceptionistDashboard.CheckoutClick bookingCode) sys
          = Some clicked ->
          let answer :=
            ReceptionistDashboard.CheckoutEnd
              (length (ReceptionistDashboard.checkouts sys)) (Some true) in
          let shown := listed (ReceptionistDashboard.component sys) in
          ReceptionistDashboard.loading
            (ReceptionistDashboard.component sys) = false
          /\ (exists c, In c shown
                        /\ UpcomingCheckout.bookingCode c = bookingCode)
          /\ (exists sys',
                step answer clicked = Some sys'
                /\ listed (ReceptionistDashboard.component sys')
                   = ReceptionistDashboard.withoutBooking bookingCode shown)
          /\ (forall response clock now,
                exists sys',
                  run [ReceptionistDashboard.RefreshStart;
                       ReceptionistDashboard.RefreshEnd response clock now;
                       answer] clicked
                  = Some sys'
                  /\ listed (ReceptionistDashboard.component sys')
                     = ReceptionistDashboard.withoutBooking bookingCode
                         shown)).
Proof.
  intros Date_parse toISOString bookingCode captured st done listed step run.
  split; [intros c; apply withoutBooking_In|].
  split; [apply withoutBooking_sublist|].
  do 7 (split; [reflexivity|]). split; [|split].
  - unfold done, ReceptionistDashboard.handleCheckout. cbn [fst snd].
    f_equal. f_equal. unfold listed.
    cbn [ReceptionistDashboard.upcomingCheckouts].
    apply withoutBooking_twice.
  - intros [[|]|] H; try reflexivity. congruence.
  - intros sys clicked Hclick answer shown.
    unfold step in Hclick. cbn [ReceptionistDashboard.step] in Hclick.
    destruct (ReceptionistDashboard.checkoutShown bookingCode
                (ReceptionistDashboard.component sys)) eqn:Hshown;
      [|discriminate].
    injection Hclick as <-.
    unfold ReceptionistDashboard.checkoutShown in Hshown.
    apply andb_true_iff in Hshown as [Hload Hlisted].
    apply negb_true_iff in Hload.
    split; [exact Hload|]. split.
    { apply existsb_exists in Hlisted as (c & Hc & E).
      exists c. split; [exact Hc|]. apply eqb_eq. exact E. }
    assert (Hlook : forall l : list ReceptionistDashboard.PendingCheckout,
               forall p, (l ++ [p]) !! length l = Some p).
    { intros l p. apply list_lookup_middle. reflexivity. }
    split.
    + eexists. split.
      * unfold step, answer. cbn [ReceptionistDashboard.step
          ReceptionistDashboard.checkouts]. rewrite Hlook. reflexivity.
      * reflexivity.
    + intros response clock now. eexists. split.
      * unfold run, answer.
        cbn [ReceptionistDashboard.run ReceptionistDashboard.step
             ReceptionistDashboard.checkouts ReceptionistDashboard.refreshes
             mbind option_bind].
        rewrite Hlook. reflexivity.
      * reflexivity.
Qed.

Lemma handleCheckout_removes_booking_witness :
  let u1 :=
    {| UpcomingCheckout.bookingCode := js "B1";
       UpcomingCheckout.guestName := js "Ann";
       UpcomingCheckout.roomNumber := js "101";
       UpcomingCheckout.remainingTime := js "0hr 30min" |} in
  let u2 :=
    {| UpcomingCheckout.bookingCode := js "B2";
       UpcomingCheckout.guestName := js "Ben";
       UpcomingCheckout.roomNumber := js "102";
       UpcomingCheckout.remainingTime := js "1hr 5min" |} in
  let listing :=
    {| ReceptionistDashboard.component :=
         {| ReceptionistDashboard.activeTab := js "dashboard";
            ReceptionistDashboard.showAssignForm := false;
            ReceptionistDashboard.showBookingForm := false;
            ReceptionistDashboard.showCheckInForm := false;
            ReceptionistDashboard.taskCounts :=
              {| TaskCount.checkIns := 0; TaskCount.checkOuts := 2;
                 TaskCount.reservations := 0;
                 TaskCount.roomInspections := 4 |};
            ReceptionistDashboard.upcomingCheckouts := [u1; u2];
            ReceptionistDashboard.loading := false |};
       ReceptionistDashboard.refreshes := 0;
       ReceptionistDashboard.checkouts := [] |} in
  ReceptionistDashboard.upcomingCheckouts
    (fst (ReceptionistDashboard.handleCheckout (js "B1") (Some true)
            [u1; u2] ReceptionistDashboard.initial))
  = [u2]
  /\ In u2
       (ReceptionistDashboard.upcomingCheckouts
          (fst (ReceptionistDashboard.handleCheckout (js "B1") (Some true)
                  [u1; u2] ReceptionistDashboard.initial)))
  /\ ReceptionistDashboard.handleCheckout (js "B1") (Some false) [u1; u2]
       ReceptionistDashboard.initial
     = (ReceptionistDashboard.initial, ReceptionistDashboard.checkoutError)
  /\ exists sys',
       ReceptionistDashboard.run IsoUtc.Date_parse IsoUtc.toISOString
         [ReceptionistDashboard.CheckoutClick (js "B1");
          ReceptionistDashboard.RefreshStart;
          ReceptionistDashboard.RefreshEnd (Some [])
            (fun _ => Examples.now0) Examples.now0;
          ReceptionistDashboard.CheckoutEnd 0 (Some true)] listing
       = Some sys'
       /\ ReceptionistDashboard.upcomingCheckouts
            (ReceptionistDashboard.component sys')
          = [u2].
Proof.
  intros u1 u2 listing.
  destruct (handleCheckout_removes_booking IsoUtc.Date_parse
              IsoUtc.toISOString (js "B1") [u1; u2]
              ReceptionistDashboard.initial)
    as (Hin & _ & _ & _ & _ & _ & _ & _ & _ & _ & Hrefused & Hsys).
  split; [vm_compute; reflexivity|]. split; [|split].
  - apply Hin. split; [right; left; reflexivity|vm_compute; discriminate].
  - apply Hrefused. discriminate.
  - destruct (Hsys listing
                {| ReceptionistDashboard.component :=
                     ReceptionistDashboard.component listing;
                   ReceptionistDashboard.refreshes := 0;
                   ReceptionistDashboard.checkouts :=
                     [{| ReceptionistDashboard.bookingCode := js "B1";
                         ReceptionistDashboard.captured := [u1; u2] |}] |})
      as (_ & _ & _ & Hlate).
    + vm_compute. reflexivity.
    + destruct (Hlate (Some []) (fun _ => Examples.now0) Examples.now0)
        as (sys' & Hrun & Hlist).
      exists sys'. split.
      * rewrite <- Hrun. vm_compute. reflexivity.
      * rewrite Hlist. vm_compute. reflexivity.
Defined.

(** ** Loading the admin data *)

(** X11.  A run of fetchData always ends with the loading flag cleared and
    the selected tab untouched.  It raises a toast exactly when one of the
    two requests fails, and the toast is the destructive load error; the
    upcoming checkouts and the summary then stay as they were, while the
    rooms are those just received if the rooms request had succeeded. *)
Theorem fetchData_outcomes :
  forall (Date_parse : jsstring -> option Z) (startOfDay : Z -> Z)
         (roomsResponse : option (list Room.t))
         (bookingsResponse : option (list Booking.t))
         (clock : nat -> Z) (now : Z) (st : AdminDashboard.State),
    let out :=
      AdminDashboard.fetchData Date_parse startOfDay roomsResponse
        bookingsResponse clock now st in
    AdminDashboard.loading (fst out) = false
    /\ AdminDashboard.activeTab (fst out) = AdminDashboard.activeTab st
    /\ (snd out = None
        <-> exists roomsData bookingsData,
              roomsResponse = Some roomsData
              /\ bookingsResponse = Some bookingsData)
    /\ (snd out <> None ->
        snd out = Some AdminDashboard.loadError
        /\ AdminDashboard.upcomingCheckouts (fst out)
           = AdminDashboard.upcomingCheckouts st
        /\ AdminDashboard.dailySummary (fst out)
           = AdminDashboard.dailySummary st)
    /\ AdminDashboard.rooms (fst out)
       = match roomsResponse with
         | Some roomsData => roomsData
         | None => AdminDashboard.rooms st
         end.
Proof.
  intros Date_parse startOfDay roomsResponse bookingsResponse clock now st out.
  unfold out, AdminDashboard.fetchData.
  destruct roomsResponse as [roomsData|], bookingsResponse as [bookingsData|];
    cbn [fst snd AdminDashboard.loading AdminDashboard.activeTab
         AdminDashboard.upcomingCheckouts AdminDashboard.dailySummary
         AdminDashboard.rooms];
    repeat split; try reflexivity; try discriminate; try congruence;
    try (intros (r & b & Hr & Hb); discriminate);
    try (intros _; eauto).
Qed.

Lemma fetchData_outcomes_witness :
  AdminDashboard.rooms
    (fst (AdminDashboard.fetchData IsoUtc.Date_parse IsoUtc.startOfDay
            (Some [Examples.room101]) None (fun _ => Examples.now0)
            Examples.now0 AdminDashboard.initial))
  = [Examples.room101]
  /\ AdminDashboard.dailySummary
       (fst (AdminDashboard.fetchData IsoUtc.Date_parse IsoUtc.startOfDay
               (Some [Examples.room101]) None (fun _ => Examples.now0)
               Examples.now0 AdminDashboard.initial))
     = AdminDashboard.dailySummary AdminDashboard.initial.
Proof.
  destruct (fetchData_outcomes IsoUtc.Date_parse IsoUtc.startOfDay
              (Some [Examples.room101]) None (fun _ => Examples.now0)
              Examples.now0 AdminDashboard.initial)
    as (_ & _ & _ & Herr & Hrooms).
  split; [exact Hrooms|]. apply Herr. discriminate.
Defined.

(** ** The receptionist's state over time *)

Lemma upcomingCheckoutsList_length (Date_parse : jsstring -> option Z)
    (clock : nat -> Z) (bookingsData : list Booking.t) :
  (length (upcomingCheckoutsList Date_parse clock bookingsData) <= 3)%nat.
Proof.
  unfold upcomingCheckoutsList, rankedWithin.
  rewrite length_map, length_firstn. lia.
Qed.

Lemma run_snoc (Date_parse : jsstring -> option Z)
    (toISOString : Z -> jsstring) (l : list ReceptionistDashboard.Event)
    (e : ReceptionistDashboard.Event) (sys : ReceptionistDashboard.System) :
  ReceptionistDashboard.run Date_parse toISOString (l ++ [e]) sys
  = ReceptionistDashboard.run Date_parse toISOString l sys
    ≫= ReceptionistDashboard.step Date_parse toISOString e.
Proof.
  revert sys. induction l as [|a l IH]; intros sys.
  - cbn. destruct (ReceptionistDashboard.step _ _ e sys); reflexivity.
  - cbn [app ReceptionistDashboard.run].
    destruct (ReceptionistDashboard.step _ _ a sys) as [sys'|];
      [|reflexivity].
    cbn [mbind option_bind]. apply IH.
Qed.

Lemma run_app (Date_parse : jsstring -> option Z)
    (toISOString : Z -> jsstring) (l l' : list ReceptionistDashboard.Event)
    (sys : ReceptionistDashboard.System) :
  ReceptionistDashboard.run Date_parse toISOString (l ++ l') sys
  = ReceptionistDashboard.run Date_parse toISOString l sys
    ≫= ReceptionistDashboard.run Date_parse toISOString l'.
Proof.
  revert sys. induction l as [|a l IH]; intros sys; [reflexivity|].
  cbn [app ReceptionistDashboard.run].
  destruct (ReceptionistDashboard.step _ _ a sys) as [sys'|];
    [|reflexivity].
  cbn [mbind option_bind]. apply IH.
Qed.

(** Only the answer to a refresh clears the loading flag. *)
Lemma step_keeps_loading (Date_parse : jsstring -> option Z)
    (toISOString : Z -> jsstring) (e : ReceptionistDashboard.Event)
    (sys sys' : ReceptionistDashboard.System) :
  ReceptionistDashboard.step Date_parse toISOString e sys = Some sys' ->
  ReceptionistDashboard.completesRefresh e = false ->
  ReceptionistDashboard.loading (ReceptionistDashboard.component sys) = true ->
  ReceptionistDashboard.loading (ReceptionistDashboard.component sys') = true.
Proof.
  intros Hstep He Hload.
  destruct e as [|response clock now|code|i response|f|value];
    cbn [ReceptionistDashboard.step] in Hstep; try discriminate.
  - injection Hstep as <-. reflexivity.
  - destruct (ReceptionistDashboard.checkoutShown _ _); [|discriminate].
    injection Hstep as <-. exact Hload.
  - destruct (ReceptionistDashboard.checkouts sys !! i) as [p|];
      [|discriminate].
    cbn [mbind option_bind] in Hstep. injection Hstep as <-.
    destruct response as [[|]|]; exact Hload.
  - injection Hstep as <-. destruct f; exact Hload.
  - injection Hstep as <-. exact Hload.
Qed.

Lemma run_keeps_loading (Date_parse : jsstring -> option Z)
    (toISOString : Z -> jsstring) (l : list ReceptionistDashboard.Event) :
  forall sys sys',
    ReceptionistDashboard.run Date_parse toISOString l sys = Some sys' ->
    Forall (fun e => ReceptionistDashboard.completesRefresh e = false) l ->
    ReceptionistDashboard.loading (ReceptionistDashboard.component sys)
    = true ->
    ReceptionistDashboard.loading (ReceptionistDashboard.component sys')
    = true.
Proof.
  induction l as [|e l IH]; intros sys sys' Hrun Hl Hload.
  - injection Hrun as <-. exact Hload.
  - cbn [ReceptionistDashboard.run] in Hrun.
    destruct (ReceptionistDashboard.step _ _ e sys) as [s|] eqn:Es;
      [|discriminate].
    cbn [mbind option_bind] in Hrun. inversion Hl as [|? ? He Hl']. subst.
    apply (IH s sys' Hrun Hl').
    exact (step_keeps_loading _ _ _ _ _ Es He Hload).
Qed.

(** X12.  From the mounted component, through any sequence of events in
    which refreshes and checkouts start, are answered in any order and
    interleave with form and tab events: from the start of a refresh until
    the next answer to one, the loading flag is set; at most one of the
    three forms is open; at most three upcoming checkouts are listed, and
    no checkout in flight holds more than three; the check-ins to do do not
    exceed the reservations; the room-inspection count is 0 or 4; the
    loading flag is cleared only after some refresh has been answered, and
    once one has been, the flag is set only while another refresh is in
    flight. *)
Theorem receptionist_invariants :
  forall (Date_parse : jsstring -> option Z) (toISOString : Z -> jsstring)
         (events : list ReceptionistDashboard.Event)
         (sys : ReceptionistDashboard.System),
    ReceptionistDashboard.run Date_parse toISOString events
      ReceptionistDashboard.mounted
    = Some sys ->
    let st := ReceptionistDashboard.component sys in
    (forall before after,
       events = before ++ ReceptionistDashboard.RefreshStart :: after ->
       Forall (fun e => ReceptionistDashboard.completesRefresh e = false)
         after ->
       ReceptionistDashboard.loading st = true)
    /\ (ReceptionistDashboard.showAssignForm st
        && ReceptionistDashboard.showBookingForm st
        || ReceptionistDashboard.showAssignForm st
           && ReceptionistDashboard.showCheckInForm st
        || ReceptionistDashboard.showBookingForm st
           && ReceptionistDashboard.showCheckInForm st) = false
    /\ (length (ReceptionistDashboard.upcomingCheckouts st) <= 3)%nat
    /\ Forall (fun p =>
                 (length (ReceptionistDashboard.captured p) <= 3)%nat)
         (ReceptionistDashboard.checkouts sys)
    /\ (TaskCount.checkIns (ReceptionistDashboard.taskCounts st)
        <= TaskCount.reservations (ReceptionistDashboard.taskCounts st))%nat
    /\ (TaskCount.roomInspections (ReceptionistDashboard.taskCounts st) = 0
        \/ TaskCount.roomInspections (ReceptionistDashboard.taskCounts st) = 4)
    /\ (ReceptionistDashboard.loading st = false ->
        Exists (fun e => ReceptionistDashboard.completesRefresh e = true)
          events)
    /\ (ReceptionistDashboard.loading st = true ->
        Exists (fun e => ReceptionistDashboard.completesRefresh e = true)
          events ->
        (0 < ReceptionistDashboard.refreshes sys)%nat).
Proof.
  intros Date_parse toISOString events sys Hrun st. split.
  { intros before after -> Hafter. rewrite run_app in Hrun.
    destruct (ReceptionistDashboard.run Date_parse toISOString before
                ReceptionistDashboard.mounted) as [s|]; [|discriminate].
    cbn [mbind option_bind ReceptionistDashboard.run
         ReceptionistDashboard.step] in Hrun.
    exact (run_keeps_loading _ _ _ _ _ Hrun Hafter eq_refl). }
  subst st. revert sys Hrun.
  induction events as [|e events IH] using rev_ind; intros sys Hrun;
    set (st := ReceptionistDashboard.component sys).
  - injection Hrun as <-. subst st. cbn.
    repeat split; try lia; try constructor; try discriminate; auto.
    intros _ H. inversion H.
  - rewrite run_snoc in Hrun.
    destruct (ReceptionistDashboard.run Date_parse toISOString events
                ReceptionistDashboard.mounted) as [s|] eqn:Es;
      [|discriminate].
    cbn [mbind option_bind] in Hrun.
    destruct (IH s eq_refl) as (Hforms & Hlen & Hcap & Hcounts & Hinsp
                                & Hoff & Hon).
    assert (Hkeep : Exists
                      (fun e => ReceptionistDashboard.completesRefresh e
                                = true) events ->
                    Exists
                      (fun e => ReceptionistDashboard.completesRefresh e
                                = true) (events ++ [e]))
      by (intros H; apply Exists_app; left; exact H).
    assert (Hback : ReceptionistDashboard.completesRefresh e = false ->
                    Exists
                      (fun e => ReceptionistDashboard.completesRefresh e
                                = true) (events ++ [e]) ->
                    Exists
                      (fun e => ReceptionistDashboard.completesRefresh e
                                = true) events).
    { intros He H. apply Exists_app in H as [H|H]; [exact H|].
      inversion H as [? ? C|? ? C]; [congruence|inversion C]. }
    subst st.
    destruct e as [|response clock now|code|i response|f|value];
      cbn [ReceptionistDashboard.step] in Hrun.
    + (* a refresh starts *)
      injection Hrun as <-.
      cbn [ReceptionistDashboard.component ReceptionistDashboard.refreshes
           ReceptionistDashboard.checkouts
           ReceptionistDashboard.fetchBookings_begin
           ReceptionistDashboard.showAssignForm
           ReceptionistDashboard.showBookingForm
           ReceptionistDashboard.showCheckInForm
           ReceptionistDashboard.upcomingCheckouts
           ReceptionistDashboard.taskCounts ReceptionistDashboard.loading].
      do 5 (split; [assumption|]). split; [discriminate|]. intros _ _. lia.
    + (* a refresh is answered *)
      destruct (ReceptionistDashboard.refreshes s) as [|n] eqn:En;
        [discriminate|].
      injection Hrun as <-.
      assert (Hend : Exists
                       (fun e => ReceptionistDashboard.completesRefresh e
                                 = true)
                       (events
                        ++ [ReceptionistDashboard.RefreshEnd response clock
                              now])).
      { apply Exists_app. right. constructor. reflexivity. }
      destruct response as [data|];
        cbn [ReceptionistDashboard.component ReceptionistDashboard.refreshes
             ReceptionistDashboard.checkouts fst
             ReceptionistDashboard.fetchBookings_resume
             ReceptionistDashboard.showAssignForm
             ReceptionistDashboard.showBookingForm
             ReceptionistDashboard.showCheckInForm
             ReceptionistDashboard.upcomingCheckouts
             ReceptionistDashboard.taskCounts ReceptionistDashboard.loading].
      * split; [exact Hforms|].
        split; [apply upcomingCheckoutsList_length|].
        split; [exact Hcap|]. split; [apply filter_and_le|].
        split; [right; reflexivity|]. split; [intros _; exact Hend|].
        discriminate.
      * do 5 (split; [assumption|]). split; [intros _; exact Hend|].
        discriminate.
    + (* a Check-out button is clicked *)
      destruct (ReceptionistDashboard.checkoutShown code
                  (ReceptionistDashboard.component s)); [|discriminate].
      injection Hrun as <-.
      cbn [ReceptionistDashboard.component ReceptionistDashboard.refreshes
           ReceptionistDashboard.checkouts].
      split; [exact Hforms|]. split; [exact Hlen|]. split.
      { apply Forall_app. split; [exact Hcap|].
        constructor; [exact Hlen|constructor]. }
      split; [exact Hcounts|]. split; [exact Hinsp|]. split.
      * intros H. apply Hkeep, Hoff, H.
      * intros H1 H2. apply Hon; [exact H1|].
        apply Hback; [reflexivity|exact H2].
    + (* a checkout is answered *)
      destruct (ReceptionistDashboard.checkouts s !! i) as [p|] eqn:Ep;
        [|discriminate].
      cbn [mbind option_bind] in Hrun. injection Hrun as <-.
      pose proof (Forall_lookup_1 _ _ _ _ Hcap Ep) as Hp. cbv beta in Hp.
      assert (Hdel : Forall
                       (fun p =>
                          (length (ReceptionistDashboard.captured p) <= 3)%nat)
                       (delete i (ReceptionistDashboard.checkouts s)))
        by (apply Forall_delete; exact Hcap).
      destruct response as [[|]|];
        cbn [ReceptionistDashboard.component ReceptionistDashboard.refreshes
             ReceptionistDashboard.checkouts fst
             ReceptionistDashboard.handleCheckout
             ReceptionistDashboard.showAssignForm
             ReceptionistDashboard.showBookingForm
             ReceptionistDashboard.showCheckInForm
             ReceptionistDashboard.upcomingCheckouts
             ReceptionistDashboard.taskCounts ReceptionistDashboard.loading].
      * split; [exact Hforms|]. split.
        { etransitivity; [apply withoutBooking_length|exact Hp]. }
        split; [exact Hdel|]. split; [exact Hcounts|].
        split; [exact Hinsp|]. split.
        -- intros H. apply Hkeep, Hoff, H.
        -- intros H1 H2. apply Hon; [exact H1|].
           apply Hback; [reflexivity|exact H2].
      * split; [exact Hforms|]. split; [exact Hlen|].
        split; [exact Hdel|]. split; [exact Hcounts|].
        split; [exact Hinsp|]. split.
        -- intros H. apply Hkeep, Hoff, H.
        -- intros H1 H2. apply Hon; [exact H1|].
           apply Hback; [reflexivity|exact H2].
      * split; [exact Hforms|]. split; [exact Hlen|].
        split; [exact Hdel|]. split; [exact Hcounts|].
        split; [exact Hinsp|]. split.
        -- intros H. apply Hkeep, Hoff, H.
        -- intros H1 H2. apply Hon; [exact H1|].
           apply Hback; [reflexivity|exact H2].
    + (* a form event *)
      injection Hrun as <-.
      cbn [ReceptionistDashboard.component ReceptionistDashboard.refreshes
           ReceptionistDashboard.checkouts].
      assert (Hother :
                ReceptionistDashboard.upcomingCheckouts
                  (ReceptionistDashboard.onForm f
                     (ReceptionistDashboard.component s))
                = ReceptionistDashboard.upcomingCheckouts
                    (ReceptionistDashboard.component s)
                /\ ReceptionistDashboard.taskCounts
                     (ReceptionistDashboard.onForm f
                        (ReceptionistDashboard.component s))
                   = ReceptionistDashboard.taskCounts
                       (ReceptionistDashboard.component s)
                /\ ReceptionistDashboard.loading
                     (ReceptionistDashboard.onForm f
                        (ReceptionistDashboard.component s))
                   = ReceptionistDashboard.loading
                       (ReceptionistDashboard.component s))
        by (destruct f; repeat split; reflexivity).
      destruct Hother as (-> & -> & ->). split.
      { unfold ReceptionistDashboard.onForm, ReceptionistDashboard.withForms.
        destruct f;
          cbn [ReceptionistDashboard.showAssignForm
               ReceptionistDashboard.showBookingForm
               ReceptionistDashboard.showCheckInForm];
          destruct (ReceptionistDashboard.showAssignForm
                      (ReceptionistDashboard.component s)),
            (ReceptionistDashboard.showBookingForm
               (ReceptionistDashboard.component s)),
            (ReceptionistDashboard.showCheckInForm
               (ReceptionistDashboard.component s));
          try reflexivity; discriminate. }
      do 4 (split; [assumption|]). split.
      * intros H. apply Hkeep, Hoff, H.
      * intros H1 H2. apply Hon; [exact H1|].
        apply Hback; [reflexivity|exact H2].
    + (* another tab *)
      injection Hrun as <-.
      cbn [ReceptionistDashboard.component ReceptionistDashboard.refreshes
           ReceptionistDashboard.checkouts ReceptionistDashboard.setActiveTab
           ReceptionistDashboard.showAssignForm
           ReceptionistDashboard.showBookingForm
           ReceptionistDashboard.showCheckInForm
           ReceptionistDashboard.upcomingCheckouts
           ReceptionistDashboard.taskCounts ReceptionistDashboard.loading].
      do 5 (split; [assumption|]). split.
      * intros H. apply Hkeep, Hoff, H.
      * intros H1 H2. apply Hon; [exact H1|].
        apply Hback; [reflexivity|exact H2].
Qed.

Lemma receptionist_invariants_witness :
  let events :=
    [ReceptionistDashboard.RefreshStart;
     ReceptionistDashboard.RefreshEnd
       (Some [Examples.booking "B7" "CHECKED_IN" "2024-05-01T08:00:00"
                "2024-05-01T11:30:00" 40])
       (fun _ => Examples.now0) Examples.now0;
     ReceptionistDashboard.Form ReceptionistDashboard.OpenAssign;
     ReceptionistDashboard.CheckoutClick (js "B7");
     ReceptionistDashboard.RefreshStart;
     ReceptionistDashboard.Form ReceptionistDashboard.OpenBooking;
     ReceptionistDashboard.CheckoutEnd 0 (Some true)] in
  exists sys,
    ReceptionistDashboard.run IsoUtc.Date_parse IsoUtc.toISOString events
      ReceptionistDashboard.mounted
    = Some sys
    /\ ReceptionistDashboard.loading (ReceptionistDashboard.component sys)
       = true
    /\ (0 < ReceptionistDashboard.refreshes sys)%nat.
Proof.
  intros events. eexists. split; [vm_compute; reflexivity|].
  split; [reflexivity|].
  refine (proj2 (proj2 (proj2 (proj2 (proj2 (proj2 (proj2
    (receptionist_invariants IsoUtc.Date_parse IsoUtc.toISOString events
       _ _))))))) _ _).
  - vm_compute. reflexivity.
  - reflexivity.
  - unfold events. apply Exists_cons_tl, Exists_cons_hd. reflexivity.
Defined.

(** * Rounding to binary64 is monotone *)

(** ** Powers of two *)

Lemma pow2_Qpower (s : Z) : (pow2 s == 2 ^ s)%Q.
Proof.
  unfold pow2. destruct (Z.leb_spec 0 s) as [H|H].
  - rewrite Zpower_Qpower by exact H. reflexivity.
  - destruct s as [|p|p]; try lia.
    change (- Z.neg p) with (Z.pos p).
    change ((2 ^ Z.neg p)%Q) with (/ (2 ^ Z.pos p))%Q.
    change 2%Q with (inject_Z 2).
    rewrite <- Zpower_Qpower by lia.
    pose proof (Z.pow_pos_nonneg 2 (Z.pos p)) as Hp.
    destruct (2 ^ Z.pos p) as [|k|k]; try lia. reflexivity.
Qed.

Lemma pow2_add (x y : Z) : (pow2 (x + y) == pow2 x * pow2 y)%Q.
Proof.
  rewrite !pow2_Qpower. apply Qpower_plus. discriminate.
Qed.

Lemma pow2_le (x y : Z) : x <= y -> (pow2 x <= pow2 y)%Q.
Proof.
  intros H. rewrite !pow2_Qpower. apply Qpower_le_compat_l; [exact H|].
  discriminate.
Qed.

Lemma pow2_lt (x y : Z) : x < y -> (pow2 x < pow2 y)%Q.
Proof.
  intros H. rewrite !pow2_Qpower. apply Qpower_lt_compat_l; [exact H|].
  reflexivity.
Qed.

Lemma pow2_lt_inv (x y : Z) : (pow2 x < pow2 y)%Q -> x < y.
Proof.
  rewrite !pow2_Qpower. intros H.
  apply (Qpower_lt_compat_l_inv 2); [exact H|reflexivity].
Qed.

Lemma pow2_integer (s : Z) : 0 <= s -> pow2 s = inject_Z (2 ^ s).
Proof.
  intros H. unfold pow2. destruct (Z.leb_spec 0 s); [reflexivity|lia].
Qed.

(** ** The binary exponent *)

Lemma log2_bounds (n : positive) :
  (pow2 (Z.log2 (Zpos n)) <= inject_Z (Zpos n))%Q
  /\ (inject_Z (Zpos n) < pow2 (Z.log2 (Zpos n) + 1))%Q.
Proof.
  pose proof (Z.log2_nonneg (Zpos n)) as H0.
  destruct (Z.log2_spec (Zpos n)) as [Hl Hu]; [lia|].
  rewrite !pow2_integer by lia. rewrite <- Zle_Qle, <- Zlt_Qlt.
  replace (Z.log2 (Z.pos n) + 1) with (Z.succ (Z.log2 (Z.pos n))) by lia.
  auto.
Qed.

Lemma floor_log2_spec (n d : positive) :
  (pow2 (floor_log2 n d) <= Zpos n # d)%Q
  /\ (Zpos n # d < pow2 (floor_log2 n d + 1))%Q.
Proof.
  destruct (log2_bounds n) as [Hn1 Hn2]. destruct (log2_bounds d) as [Hd1 Hd2].
  set (ln := Z.log2 (Zpos n)) in *. set (ld := Z.log2 (Zpos d)) in *.
  assert (Hdpos : (0 < inject_Z (Zpos d))%Q) by reflexivity.
  assert (Hup : (Zpos n # d < pow2 (ln - ld + 1))%Q).
  { rewrite Qmake_Qdiv. apply Qlt_shift_div_r; [exact Hdpos|].
    eapply Qlt_le_trans; [exact Hn2|].
    replace (ln + 1) with (ln - ld + 1 + ld) by lia. rewrite pow2_add.
    apply Qmult_le_l; [apply pow2_pos|exact Hd1]. }
  assert (Hlow : (pow2 (ln - ld - 1) < Zpos n # d)%Q).
  { rewrite Qmake_Qdiv. apply Qlt_shift_div_l; [exact Hdpos|].
    eapply Qlt_le_trans; [|exact Hn1].
    replace ln with (ln - ld - 1 + (ld + 1)) at 2 by lia. rewrite pow2_add.
    apply Qmult_lt_l; [apply pow2_pos|exact Hd2]. }
  assert (Htest : (if 0 <=? ln - ld
                   then Zpos d * 2 ^ (ln - ld) <=? Zpos n
                   else Zpos d <=? Zpos n * 2 ^ (- (ln - ld)))
                  = Qle_bool (pow2 (ln - ld)) (Zpos n # d)).
  { unfold pow2, Qle_bool. destruct (0 <=? ln - ld) eqn:E.
    - cbn [Qnum Qden inject_Z]. f_equal; lia.
    - apply Z.leb_gt in E.
      pose proof (Z.pow_pos_nonneg 2 (- (ln - ld))) as Hp.
      cbn [Qnum Qden]. rewrite Z2Pos.id by lia. f_equal; lia. }
  unfold floor_log2. fold ln ld. cbv zeta. rewrite Htest.
  destruct (Qle_bool (pow2 (ln - ld)) (Zpos n # d)) eqn:E.
  - apply Qle_bool_iff in E. auto.
  - assert (Hlt : (Zpos n # d < pow2 (ln - ld))%Q).
    { apply Qnot_le_lt. intros C. apply Qle_bool_iff in C. congruence. }
    replace (ln - ld - 1 + 1) with (ln - ld) by lia.
    split; [apply Qlt_le_weak; exact Hlow|exact Hlt].
Qed.

(** ** The nearest integer *)

Lemma round_half_even_le_ceil (p : Z) (d : positive) :
  round_half_even p d <= p / Zpos d + 1.
Proof.
  unfold round_half_even. destruct (2 * (p mod Zpos d) ?= Zpos d); try lia.
  destruct (Z.even (p / Zpos d)); lia.
Qed.

Lemma floor_mono (p p' : Z) (d d' : positive) :
  p * Zpos d' <= p' * Zpos d -> p / Zpos d <= p' / Zpos d'.
Proof.
  intros H.
  pose proof (Z.div_mod p (Zpos d) ltac:(lia)) as E.
  pose proof (Z.mod_pos_bound p (Zpos d) ltac:(lia)) as B.
  pose proof (Z.div_mod p' (Zpos d') ltac:(lia)) as E'.
  pose proof (Z.mod_pos_bound p' (Zpos d') ltac:(lia)) as B'.
  set (f := p / Zpos d) in *. set (f' := p' / Zpos d') in *.
  set (r := p mod Zpos d) in *. set (r' := p' mod Zpos d') in *.
  destruct (Z.le_gt_cases f f') as [|C]; [assumption|exfalso].
  assert (Zpos d * Zpos d' * (f' + 1) <= Zpos d * Zpos d' * f) by nia.
  nia.
Qed.

Lemma round_half_even_mono (p p' : Z) (d d' : positive) :
  p * Zpos d' <= p' * Zpos d ->
  round_half_even p d <= round_half_even p' d'.
Proof.
  intros H. pose proof (floor_mono p p' d d' H) as Hf.
  pose proof (round_half_even_ge_floor p' d') as Hge.
  pose proof (round_half_even_le_ceil p d) as Hle.
  destruct (Z.eq_dec (p / Zpos d) (p' / Zpos d')) as [E|NE]; [|lia].
  clear Hge Hle Hf. unfold round_half_even. rewrite <- E.
  pose proof (Z.div_mod p (Zpos d) ltac:(lia)) as D.
  pose proof (Z.mod_pos_bound p (Zpos d) ltac:(lia)) as B.
  pose proof (Z.div_mod p' (Zpos d') ltac:(lia)) as D'.
  pose proof (Z.mod_pos_bound p' (Zpos d') ltac:(lia)) as B'.
  rewrite <- E in D'.
  set (f := p / Zpos d) in *.
  set (r := p mod Zpos d) in *. set (r' := p' mod Zpos d') in *.
  assert (Hr : r * Zpos d' <= r' * Zpos d) by nia.
  destruct (Z.compare_spec (2 * r) (Zpos d)) as [C|C|C];
    destruct (Z.compare_spec (2 * r') (Zpos d')) as [C'|C'|C'];
    destruct (Z.even f); try lia; exfalso; nia.
Qed.

(** ** Rounding a positive rational *)

Lemma roundToDouble_positive (n d : positive) :
  roundToDouble (Zpos n # d)
  = if Qle_bool (inject_Z (2 ^ 1024)) (Qred (Rounding.nearest n d))
    then PosInf else Fin (Qred (Rounding.nearest n d)).
Proof. reflexivity. Qed.

Lemma nearest_rounds_mono (x y : Q) :
  (x <= y)%Q ->
  round_half_even (Qnum x) (Qden x) <= round_half_even (Qnum y) (Qden y).
Proof. intros H. apply round_half_even_mono. exact H. Qed.

Lemma nearest_rounds_integer (x : Q) (k : Z) :
  (x == inject_Z k)%Q -> round_half_even (Qnum x) (Qden x) = k.
Proof.
  intros H. apply Z.le_antisymm.
  - rewrite <- (round_half_even_integer k).
    apply (nearest_rounds_mono x (inject_Z k)). rewrite H. apply Qle_refl.
  - rewrite <- (round_half_even_integer k) at 1.
    apply (nearest_rounds_mono (inject_Z k) x). rewrite H. apply Qle_refl.
Qed.

Lemma nearest_mono (n d n' d' : positive) :
  (Zpos n # d <= Zpos n' # d')%Q ->
  (Rounding.nearest n d <= Rounding.nearest n' d')%Q.
Proof.
  intros H. unfold Rounding.nearest. cbv zeta.
  destruct (floor_log2_spec n d) as [L U].
  destruct (floor_log2_spec n' d') as [L' U'].
  set (e := floor_log2 n d) in *. set (e' := floor_log2 n' d') in *.
  assert (He : e <= e').
  { assert (e < e' + 1); [|lia]. apply pow2_lt_inv.
    eapply Qle_lt_trans; [exact L|]. eapply Qle_lt_trans; [exact H|exact U']. }
  set (s := Z.max (e - 52) (-1074)). set (s' := Z.max (e' - 52) (-1074)).
  set (a := (Zpos n # d)%Q) in *. set (a' := (Zpos n' # d')%Q) in *.
  destruct (Z.eq_dec s s') as [Es|Ns].
  - rewrite <- Es. apply Qmult_le_compat_r; [|apply Qlt_le_weak, pow2_pos].
    rewrite <- Zle_Qle. apply nearest_rounds_mono. rewrite !Qred_correct.
    apply Qmult_le_compat_r; [exact H|].
    apply Qlt_le_weak, Qinv_lt_0_compat, pow2_pos.
  - assert (Hs : s < s') by (unfold s, s' in *; lia).
    assert (Hs' : s' = e' - 52) by (unfold s, s' in *; lia).
    assert (Hee : e + 1 <= e') by (unfold s, s' in *; lia).
    apply Qle_trans with (pow2 e').
    + (* below: the nearest multiple of 2^s is at most 2^e' *)
      replace e' with (e' - s + s) at 1 by lia. rewrite pow2_add.
      apply Qmult_le_compat_r; [|apply Qlt_le_weak, pow2_pos].
      rewrite (pow2_integer (e' - s)) by lia. rewrite <- Zle_Qle.
      rewrite <- (round_half_even_integer (2 ^ (e' - s))).
      apply (nearest_rounds_mono _ (inject_Z (2 ^ (e' - s)))).
      rewrite Qred_correct, <- (pow2_integer (e' - s)) by lia.
      apply Qle_shift_div_r; [apply pow2_pos|].
      rewrite <- pow2_add. replace (e' - s + s) with e' by lia.
      apply Qlt_le_weak. eapply Qlt_le_trans; [exact U|].
      apply pow2_le. exact Hee.
    + (* above: the nearest multiple of 2^s' is at least 2^e' *)
      replace e' with (52 + s') at 1 by lia. rewrite pow2_add.
      apply Qmult_le_compat_r; [|apply Qlt_le_weak, pow2_pos].
      rewrite (pow2_integer 52) by lia. rewrite <- Zle_Qle.
      rewrite <- (round_half_even_integer (2 ^ 52)) at 1.
      apply (nearest_rounds_mono (inject_Z (2 ^ 52))).
      rewrite Qred_correct, <- (pow2_integer 52) by lia.
      apply Qle_shift_div_l; [apply pow2_pos|].
      rewrite <- pow2_add. replace (52 + s') with e' by lia. exact L'.
Qed.

Lemma nearest_comp (n d n' d' : positive) :
  (Zpos n # d == Zpos n' # d')%Q ->
  Qred (Rounding.nearest n d) = Qred (Rounding.nearest n' d').
Proof.
  intros H. apply Qred_complete. apply Qle_antisym; apply nearest_mono;
    rewrite H; apply Qle_refl.
Qed.

(** A positive rational [k * 2^j] with [k] below 2^53 and [j] at least
    -1074 is its own nearest value. *)
Lemma nearest_exact (n d : positive) (k j : Z) :
  0 < k < 2 ^ 53 -> -1074 <= j ->
  (Zpos n # d == inject_Z k * pow2 j)%Q ->
  (Rounding.nearest n d == Zpos n # d)%Q.
Proof.
  intros Hk Hj Ha. unfold Rounding.nearest. cbv zeta.
  destruct (floor_log2_spec n d) as [L U].
  set (e := floor_log2 n d) in *.
  assert (He : e < 53 + j).
  { apply pow2_lt_inv. eapply Qle_lt_trans; [exact L|]. rewrite Ha, pow2_add.
    apply Qmult_lt_r; [apply pow2_pos|].
    rewrite (pow2_integer 53) by lia. rewrite <- Zlt_Qlt. lia. }
  set (s := Z.max (e - 52) (-1074)).
  assert (Hs : s <= j) by (unfold s; lia).
  assert (Hx : ((Zpos n # d) / pow2 s == inject_Z (k * 2 ^ (j - s)))%Q).
  { rewrite Ha, inject_Z_mult, <- (pow2_integer (j - s)) by lia.
    replace j with (j - s + s) at 1 by lia. rewrite pow2_add.
    field. intros C. pose proof (pow2_pos s) as P. rewrite C in P.
    discriminate. }
  rewrite (nearest_rounds_integer _ (k * 2 ^ (j - s)))
    by (rewrite Qred_correct; exact Hx).
  rewrite Ha, inject_Z_mult, <- (pow2_integer (j - s)) by lia.
  rewrite <- Qmult_assoc, <- pow2_add.
  replace (j - s + s) with j by lia. reflexivity.
Qed.

Lemma nearest_nonneg (n d : positive) : (0 <= Rounding.nearest n d)%Q.
Proof.
  unfold Rounding.nearest. cbv zeta.
  apply Qmult_le_0_compat; [|apply Qlt_le_weak, pow2_pos].
  change 0%Q with (inject_Z 0). rewrite <- Zle_Qle.
  rewrite <- (round_half_even_integer 0) at 1.
  apply (nearest_rounds_mono (inject_Z 0)). rewrite Qred_correct.
  apply Qle_shift_div_l; [apply pow2_pos|]. rewrite Qmult_0_l.
  unfold Qle. cbn [Qnum Qden]. lia.
Qed.

Lemma nearest_safe_integer (k : positive) :
  Zpos k <= 2 ^ 53 -> Qred (Rounding.nearest k 1) = inject_Z (Zpos k).
Proof.
  intros H. pose proof (roundToDouble_safe_integer (Zpos k) H) as R.
  change (inject_Z (Zpos k)) with (Zpos k # 1)%Q in R at 1.
  rewrite roundToDouble_positive in R.
  destruct (Qle_bool _ _) in R; [discriminate|].
  injection R as R. exact R.
Qed.

(** A positive rational no greater than a safe integer rounds to a finite
    value no greater than that integer. *)
Lemma roundToDouble_below (n d : positive) (B : Z) :
  B <= 2 ^ 53 -> (Zpos n # d <= inject_Z B)%Q ->
  roundToDouble (Zpos n # d) = Fin (Qred (Rounding.nearest n d))
  /\ (Qred (Rounding.nearest n d) <= inject_Z B)%Q.
Proof.
  intros HB Hq.
  assert (HBpos : 0 < B).
  { unfold Qle in Hq. cbn [Qnum Qden inject_Z] in Hq. lia. }
  destruct B as [|b|b]; try lia.
  assert (Hle : (Qred (Rounding.nearest n d) <= inject_Z (Zpos b))%Q).
  { rewrite <- (nearest_safe_integer b) by lia. rewrite !Qred_correct.
    apply nearest_mono. exact Hq. }
  split; [|exact Hle].
  rewrite roundToDouble_positive.
  destruct (Qle_bool _ _) eqn:E; [|reflexivity].
  apply Qle_bool_iff in E.
  assert (C : (inject_Z (2 ^ 1024) <= inject_Z (Zpos b))%Q)
    by (eapply Qle_trans; eassumption).
  rewrite <- Zle_Qle in C.
  assert (2 ^ 53 < 2 ^ 1024) by (apply Z.pow_lt_mono_r; lia). lia.
Qed.

(** On the non-negative rationals up to a safe integer, rounding to
    binary64 gives finite values and keeps the order. *)
Lemma roundToDouble_bounded_mono (q q' : Q) (B : Z) :
  B <= 2 ^ 53 -> (0 <= q)%Q -> (q <= q')%Q -> (q' <= inject_Z B)%Q ->
  exists v v', roundToDouble q = Fin v /\ roundToDouble q' = Fin v'
    /\ (0 <= v)%Q /\ (v <= v')%Q /\ (v' <= inject_Z B)%Q.
Proof.
  intros HB H0 Hqq HqB.
  destruct q as [[|n|n] d].
  - destruct q' as [[|n'|n'] d'].
    + exists 0%Q, 0%Q. repeat split; try reflexivity; try apply Qle_refl.
      eapply Qle_trans; [|exact HqB]. unfold Qle. cbn. lia.
    + destruct (roundToDouble_below n' d' B HB HqB) as [R L].
      exists 0%Q, (Qred (Rounding.nearest n' d')).
      split; [reflexivity|]. split; [exact R|].
      split; [apply Qle_refl|]. split; [|exact L].
      rewrite Qred_correct. apply nearest_nonneg.
    + unfold Qle in Hqq. cbn [Qnum Qden] in Hqq. lia.
  - destruct q' as [[|n'|n'] d'];
      try (unfold Qle in Hqq; cbn [Qnum Qden] in Hqq; lia).
    destruct (roundToDouble_below n' d' B HB HqB) as [R' L'].
    destruct (roundToDouble_below n d B HB (Qle_trans _ _ _ Hqq HqB))
      as [R L].
    exists (Qred (Rounding.nearest n d)), (Qred (Rounding.nearest n' d')).
    split; [exact R|]. split; [exact R'|].
    split; [rewrite Qred_correct; apply nearest_nonneg|].
    split; [|exact L'].
    rewrite !Qred_correct. apply nearest_mono. exact Hqq.
  - unfold Qle in H0. cbn [Qnum Qden] in H0. lia.
Qed.

(** Rounding does not see which fraction denotes a positive rational. *)
Lemma roundToDouble_comp_positive (n d n' d' : positive) :
  (Zpos n # d == Zpos n' # d')%Q ->
  roundToDouble (Zpos n # d) = roundToDouble (Zpos n' # d').
Proof.
  intros H. rewrite !roundToDouble_positive.
  rewrite (nearest_comp n d n' d' H). reflexivity.
Qed.

(** A positive [k * 2^j] with [k] below 2^53, [j] at least -1074 and a value
    below 2^1024 is a binary64 value. *)
Lemma roundToDouble_exact (n d : positive) (k j : Z) :
  0 < k < 2 ^ 53 -> -1074 <= j -> j <= 970 ->
  (Zpos n # d == inject_Z k * pow2 j)%Q ->
  roundToDouble (Zpos n # d) = Fin (Qred (Zpos n # d)).
Proof.
  intros Hk Hj Hj' Ha.
  pose proof (nearest_exact n d k j Hk Hj Ha) as E.
  rewrite roundToDouble_positive.
  rewrite (Qred_complete _ _ E).
  destruct (Qle_bool _ _) eqn:T; [|reflexivity].
  apply Qle_bool_iff in T. rewrite Qred_correct, Ha in T.
  exfalso. apply (Qlt_irrefl (inject_Z (2 ^ 1024))).
  eapply Qle_lt_trans; [exact T|].
  rewrite <- (pow2_integer 1024) by lia.
  replace 1024 with (53 + 971) by lia. rewrite pow2_add.
  apply Qle_lt_trans with (inject_Z k * pow2 971)%Q.
  - apply Qmult_le_l; [change 0%Q with (inject_Z 0); rewrite <- Zlt_Qlt; lia|].
    apply pow2_le. lia.
  - apply Qmult_lt_r; [apply pow2_pos|].
    rewrite (pow2_integer 53) by lia. rewrite <- Zlt_Qlt. lia.
Qed.

(** * Further properties that rest on the rounding *)

(** ** The current time in seconds *)

Lemma seconds_le (now now' : Z) :
  now <= now' -> (inject_Z now / inject_Z 1000 <= inject_Z now' / inject_Z 1000)%Q.
Proof.
  intros H. apply Qmult_le_compat_r; [rewrite <- Zle_Qle; exact H|].
  unfold Qle. cbn. lia.
Qed.

Lemma seconds_eq (now : Z) : (inject_Z now / inject_Z 1000 == now # 1000)%Q.
Proof. unfold Qeq, Qdiv, Qmult, Qinv, inject_Z. cbn [Qnum Qden]. lia. Qed.

Lemma currentTime_eq (now : Z) :
  0 <= now <= 2 ^ 53 ->
  currentTime now = roundToDouble (inject_Z now / inject_Z 1000).
Proof.
  intros H. unfold currentTime, ofZ.
  rewrite (roundToDouble_safe_integer now) by lia.
  rewrite (roundToDouble_safe_integer 1000) by (cbn; lia).
  reflexivity.
Qed.

(** The clock in seconds is finite, not negative and does not run
    backwards. *)
Lemma currentTime_mono (now now' : Z) :
  0 <= now -> now <= now' -> now' <= 2 ^ 53 ->
  exists v v', currentTime now = Fin v /\ currentTime now' = Fin v'
    /\ (0 <= v)%Q /\ (v <= v')%Q.
Proof.
  intros H0 H1 H2. rewrite !currentTime_eq by lia.
  destruct (roundToDouble_bounded_mono
              (inject_Z now / inject_Z 1000) (inject_Z now' / inject_Z 1000)
              (2 ^ 53)) as (v & v' & E & E' & P & L & _).
  - lia.
  - rewrite seconds_eq. unfold Qle. cbn [Qnum Qden]. lia.
  - apply seconds_le. exact H1.
  - rewrite seconds_eq. unfold Qle, inject_Z. cbn [Qnum Qden]. lia.
  - exists v, v'. auto.
Qed.

Lemma isTokenValid_numeric (toNumberOther : jsval -> option number)
    (token : jsstring) (now : Z) (e : number) :
  getProp (parseJwt token) (js "exp") = Some (JNumber e) ->
  isTokenValid toNumberOther token now = gtb e (currentTime now).
Proof.
  intros Hexp. unfold isTokenValid. rewrite Hexp.
  destruct (parseJwt token); try discriminate. reflexivity.
Qed.

Lemma gtb_anti (e : number) (v v' : Q) :
  (v <= v')%Q -> gtb e (Fin v') = true -> gtb e (Fin v) = true.
Proof.
  intros L. destruct e as [| | |b]; cbn [gtb ltb]; try (intros; assumption).
  rewrite !negb_true_iff, <- !not_true_iff_false, !Qle_bool_iff.
  intros N C. apply N. eapply Qle_trans; eassumption.
Qed.

(** X13.  Validity only ever lapses: whatever the claims hold, a token that
    is valid at some reading of the clock was valid at every earlier reading
    (clock readings being whole milliseconds from 0 up to 2^53). *)
Theorem isTokenValid_only_lapses :
  forall (toNumberOther : jsval -> option number) (token : jsstring)
         (now now' : Z),
    0 <= now -> now <= now' -> now' <= 2 ^ 53 ->
    isTokenValid toNumberOther token now' = true ->
    isTokenValid toNumberOther token now = true.
Proof.
  intros toNumberOther token now now' H0 H1 H2.
  destruct (currentTime_mono now now' H0 H1 H2) as (v & v' & E & E' & _ & L).
  unfold isTokenValid. rewrite E, E'.
  destruct (negb (truthy (parseJwt token))); [intros; assumption|].
  destruct (toNumber toNumberOther (getProp (parseJwt token) (js "exp")));
    [|intros; assumption].
  apply gtb_anti. exact L.
Qed.

Lemma isTokenValid_only_lapses_witness :
  isTokenValid Examples.noCoercion Examples.adminToken 1714557600000 = true.
Proof.
  apply (isTokenValid_only_lapses Examples.noCoercion Examples.adminToken
           1714557600000 9999999998000).
  - lia.
  - lia.
  - vm_compute. discriminate.
  - vm_compute. reflexivity.
Defined.

Lemma currentTime_threshold (now e : Z) :
  0 <= now <= 2 ^ 53 -> e <= 2 ^ 43 ->
  exists v, currentTime now = Fin v
            /\ ((v < inject_Z e)%Q <-> now < 1000 * e).
Proof.
  intros Hnow He. rewrite currentTime_eq by exact Hnow.
  assert (P43 : 2 ^ 43 = 8796093022208) by reflexivity.
  assert (P53 : 2 ^ 53 = 9007199254740992) by reflexivity.
  set (q := (inject_Z now / inject_Z 1000)%Q).
  assert (Hq0 : (0 <= q)%Q).
  { unfold q. rewrite seconds_eq. unfold Qle. cbn [Qnum Qden]. lia. }
  assert (HqB : (q <= inject_Z (2 ^ 53))%Q).
  { unfold q. rewrite seconds_eq. unfold Qle, inject_Z. cbn [Qnum Qden]. lia. }
  destruct (roundToDouble_bounded_mono q q (2 ^ 53))
    as (v & _ & E & _ & Pv & _ & _); [lia|exact Hq0|apply Qle_refl|exact HqB|].
  exists v. split; [exact E|]. split.
  - (* a clock at or past the expiry rounds to at least the expiry *)
    intros Hlt. destruct (Z.lt_ge_cases now (1000 * e)) as [|Hge]; [assumption|].
    exfalso.
    assert (He0 : 0 <= e).
    { destruct (Z.lt_ge_cases e 0) as [Hneg|]; [|assumption]. exfalso.
      apply (Qlt_irrefl v). eapply Qlt_le_trans; [exact Hlt|].
      eapply Qle_trans; [|exact Pv]. change 0%Q with (inject_Z 0).
      rewrite <- Zle_Qle. lia. }
    destruct (roundToDouble_bounded_mono (inject_Z e) q (2 ^ 53))
      as (w & w' & Ew & Ew' & _ & L & _).
    + lia.
    + change 0%Q with (inject_Z 0). rewrite <- Zle_Qle. exact He0.
    + unfold q. rewrite seconds_eq. unfold Qle, inject_Z. cbn [Qnum Qden]. lia.
    + exact HqB.
    + rewrite roundToDouble_safe_integer in Ew by lia.
      injection Ew as <-. rewrite E in Ew'. injection Ew' as <-.
      apply (Qlt_irrefl v). eapply Qlt_le_trans; eassumption.
  - (* a clock before the expiry stays below e - 2^-10, which is exact *)
    intros Hlt.
    assert (He1 : 0 < e * 1024 - 1 < 2 ^ 53) by lia.
    destruct (e * 1024 - 1) as [|n|n] eqn:En; try lia.
    assert (Hy : (Zpos n # 1024 == inject_Z (Zpos n) * pow2 (-10))%Q).
    { unfold Qeq, Qmult, inject_Z. cbn. lia. }
    pose proof (roundToDouble_exact n 1024 (Zpos n) (-10) He1
                  ltac:(lia) ltac:(lia) Hy) as Ey.
    destruct (roundToDouble_bounded_mono q (Zpos n # 1024) (2 ^ 53))
      as (w & w' & Ew & Ew' & _ & L & _).
    + lia.
    + exact Hq0.
    + unfold q. rewrite seconds_eq. unfold Qle. cbn [Qnum Qden]. lia.
    + unfold Qle, inject_Z. cbn [Qnum Qden]. lia.
    + rewrite E in Ew. injection Ew as <-.
      rewrite Ey in Ew'. injection Ew' as <-.
      eapply Qle_lt_trans; [exact L|]. rewrite Qred_correct.
      unfold Qlt, inject_Z. cbn [Qnum Qden]. lia.
Qed.

(** X14.  For claims whose [exp] is a whole number of seconds [e] (up to
    2^43, beyond the range of dates), the division of the clock by 1000 and
    its rounding lose nothing: the token is valid exactly while the clock, in
    milliseconds, is before [1000 * e]. *)
Theorem isTokenValid_whole_seconds :
  forall (toNumberOther : jsval -> option number) (token : jsstring)
         (now e : Z),
    getProp (parseJwt token) (js "exp") = Some (JNumber (Fin (inject_Z e))) ->
    0 <= now <= 2 ^ 53 -> e <= 2 ^ 43 ->
    (isTokenValid toNumberOther token now = true <-> now < 1000 * e).
Proof.
  intros toNumberOther token now e Hexp Hnow He.
  rewrite (isTokenValid_numeric toNumberOther token now _ Hexp).
  destruct (currentTime_threshold now e Hnow He) as (v & E & T).
  rewrite E, <- T. cbn [gtb ltb].
  rewrite negb_true_iff, <- not_true_iff_false, Qle_bool_iff.
  split; [apply Qnot_le_lt | apply Qlt_not_le].
Qed.

Lemma isTokenValid_whole_seconds_witness :
  isTokenValid Examples.noCoercion Examples.adminToken 9999999998999 = true
  <-> 9999999998999 < 1000 * 9999999999.
Proof.
  apply (isTokenValid_whole_seconds Examples.noCoercion Examples.adminToken
           9999999998999 9999999999).
  - vm_compute. reflexivity.
  - split; [lia|vm_compute; discriminate].
  - vm_compute. discriminate.
Defined.

(** ** The occupancy rate with rooms *)

Lemma roundToDouble_fixes (q : Q) (B : Z) :
  0 <= B <= 2 ^ 53 -> (q == inject_Z B)%Q ->
  exists v, roundToDouble q = Fin v /\ (v == inject_Z B)%Q.
Proof.
  intros HB Hq.
  assert (H0 : (0 <= inject_Z B)%Q)
    by (change 0%Q with (inject_Z 0); rewrite <- Zle_Qle; lia).
  destruct (roundToDouble_bounded_mono (inject_Z B) q B)
    as (w & v & Ew & Ev & _ & L & U).
  - lia.
  - exact H0.
  - rewrite Hq. apply Qle_refl.
  - rewrite Hq. apply Qle_refl.
  - rewrite roundToDouble_safe_integer in Ew by lia. injection Ew as <-.
    exists v. split; [exact Ev|]. apply Qle_antisym; assumption.
Qed.

Lemma ratio_percent (n m : Z) :
  0 <= n -> n <= m -> 0 < m -> m <= 2 ^ 53 ->
  exists w, mul (div (ofZ n) (ofZ m)) (ofZ 100) = Fin w
            /\ (0 <= w)%Q /\ (w <= 100)%Q
            /\ (n = 0 -> (w == 0)%Q) /\ (n = m -> (w == 100)%Q).
Proof.
  intros H0 Hnm Hm HB. unfold ofZ.
  rewrite (roundToDouble_safe_integer n), (roundToDouble_safe_integer m),
    (roundToDouble_safe_integer 100) by (try (cbn; lia); lia).
  unfold div.
  assert (Hz : isZero (inject_Z m) = false).
  { unfold isZero. apply not_true_iff_false. rewrite Qeq_bool_iff.
    unfold Qeq, inject_Z. cbn [Qnum Qden]. lia. }
  rewrite Hz.
  assert (Hinv : (0 < / inject_Z m)%Q).
  { apply Qinv_lt_0_compat. change 0%Q with (inject_Z 0).
    rewrite <- Zlt_Qlt. exact Hm. }
  assert (Hr0 : (0 <= inject_Z n / inject_Z m)%Q).
  { apply Qmult_le_0_compat; [|apply Qlt_le_weak; exact Hinv].
    change 0%Q with (inject_Z 0). rewrite <- Zle_Qle. exact H0. }
  assert (Hr1 : (inject_Z n / inject_Z m <= inject_Z 1)%Q).
  { apply Qle_shift_div_r.
    - change 0%Q with (inject_Z 0). rewrite <- Zlt_Qlt. exact Hm.
    - rewrite Qmult_1_l, <- Zle_Qle. exact Hnm. }
  destruct (roundToDouble_bounded_mono _ _ 1 ltac:(lia) Hr0 (Qle_refl _) Hr1)
    as (v & v' & Ev & Ev' & Pv & _ & Uv).
  rewrite Ev in Ev'. injection Ev' as Hv. rewrite <- Hv in Uv. clear v' Hv.
  rewrite Ev. unfold mul.
  assert (Hs0 : (0 <= v * inject_Z 100)%Q).
  { apply Qmult_le_0_compat; [exact Pv|]. unfold Qle. cbn. lia. }
  assert (Hs1 : (v * inject_Z 100 <= inject_Z 100)%Q).
  { rewrite <- (Qmult_1_l (inject_Z 100)) at 2.
    apply Qmult_le_compat_r; [exact Uv|]. unfold Qle. cbn. lia. }
  destruct (roundToDouble_bounded_mono _ _ 100 ltac:(lia) Hs0 (Qle_refl _) Hs1)
    as (w & w' & Ew & Ew' & Pw & _ & Uw).
  rewrite Ew in Ew'. injection Ew' as Hw. rewrite <- Hw in Uw. clear w' Hw.
  exists w. split; [exact Ew|]. split; [exact Pw|]. split; [exact Uw|]. split.
  - intros ->.
    destruct (roundToDouble_fixes (inject_Z 0 / inject_Z m) 0)
      as (v0 & Ev0 & Hv0); [lia| |].
    { unfold Qdiv. apply Qmult_0_l. }
    rewrite Ev in Ev0. injection Ev0 as Heq. rewrite <- Heq in Hv0.
    destruct (roundToDouble_fixes (v * inject_Z 100) 0)
      as (w0 & Ew0 & Hw0); [lia| |].
    { rewrite Hv0. apply Qmult_0_l. }
    rewrite Ew in Ew0. injection Ew0 as Heq'. rewrite Heq'. exact Hw0.
  - intros ->.
    destruct (roundToDouble_fixes (inject_Z m / inject_Z m) 1)
      as (v1 & Ev1 & Hv1); [lia| |].
    { apply Qmult_inv_r. intros C. unfold Qeq, inject_Z in C.
      cbn [Qnum Qden] in C. lia. }
    rewrite Ev in Ev1. injection Ev1 as Heq. rewrite <- Heq in Hv1.
    destruct (roundToDouble_fixes (v * inject_Z 100) 100)
      as (w1 & Ew1 & Hw1); [lia| |].
    { rewrite Hv1. apply Qmult_1_l. }
    rewrite Ew in Ew1. injection Ew1 as Heq'. rewrite Heq'. exact Hw1.
Qed.

(** X15.  With at least one room and no more checked-in bookings than rooms,
    the occupancy rate is a whole number from 0 to 100: 0 when no booking is
    checked in and 100 when there are as many as rooms. *)
Theorem occupancyRate_percentage :
  forall (bookingsData : list Booking.t) (roomsData : list Room.t),
    roomsData <> [] ->
    (length (checkedInBookings bookingsData) <= length roomsData)%nat ->
    Z.of_nat (length roomsData) <= 2 ^ 53 ->
    exists k : Z,
      occupancyRate bookingsData roomsData = Fin (inject_Z k)
      /\ 0 <= k <= 100
      /\ (checkedInBookings bookingsData = [] -> k = 0)
      /\ (length (checkedInBookings bookingsData) = length roomsData ->
          k = 100).
Proof.
  intros bookingsData roomsData Hrooms Hle HB.
  unfold occupancyRate, ofNat. unfold checkedInBookings in *.
  set (n := length (List.filter (hasStatus "CHECKED_IN") bookingsData)) in *.
  assert (Hm : 0 < Z.of_nat (length roomsData)).
  { destruct roomsData; [congruence|]. cbn [length]. lia. }
  destruct (ratio_percent (Z.of_nat n) (Z.of_nat (length roomsData)))
    as (w & E & P & U & Z0 & Z1); try lia.
  rewrite E. cbn [Math_round].
  exists (Qfloor (w + (1 # 2))). split; [reflexivity|].
  split; [|split].
  - split.
    + change 0 with (Qfloor (0 + (1 # 2))). apply Qfloor_resp_le.
      apply Qplus_le_l. exact P.
    + change 100 with (Qfloor (100 + (1 # 2))). apply Qfloor_resp_le.
      apply Qplus_le_l. exact U.
  - intros Hnil. assert (Hn : n = 0%nat).
    { unfold n. destruct (List.filter _ _); [reflexivity|discriminate]. }
    rewrite (Qfloor_comp _ (0 + (1 # 2))); [reflexivity|].
    rewrite Z0 by lia. reflexivity.
  - intros Hall.
    rewrite (Qfloor_comp _ (100 + (1 # 2))); [reflexivity|].
    rewrite Z1 by lia. reflexivity.
Qed.

Lemma occupancyRate_percentage_witness :
  exists k : Z,
    occupancyRate
      [Examples.booking "B" "CHECKED_IN" "2024-05-01T08:00:00"
         "2024-05-01T11:00:00" 50]
      [Examples.room101; Examples.room101; Examples.room101]
    = Fin (inject_Z k)
    /\ 0 <= k <= 100.
Proof.
  destruct (occupancyRate_percentage
              [Examples.booking "B" "CHECKED_IN" "2024-05-01T08:00:00"
                 "2024-05-01T11:00:00" 50]
              [Examples.room101; Examples.room101; Examples.room101])
    as (k & E & R & _).
  - discriminate.
  - vm_compute. lia.
  - vm_compute. discriminate.
  - exists k. split; [exact E|exact R].
Defined.

Lemma ratio_percent_mono (n n' m : Z) :
  0 <= n -> n <= n' -> n' <= m -> 0 < m -> m <= 2 ^ 53 ->
  exists w w', mul (div (ofZ n) (ofZ m)) (ofZ 100) = Fin w
               /\ mul (div (ofZ n') (ofZ m)) (ofZ 100) = Fin w'
               /\ (w <= w')%Q.
Proof.
  intros H0 Hnn Hnm Hm HB. unfold ofZ.
  rewrite (roundToDouble_safe_integer n), (roundToDouble_safe_integer n'),
    (roundToDouble_safe_integer m), (roundToDouble_safe_integer 100)
    by (try (cbn; lia); lia).
  unfold div.
  assert (Hz : isZero (inject_Z m) = false).
  { unfold isZero. apply not_true_iff_false. rewrite Qeq_bool_iff.
    unfold Qeq, inject_Z. cbn [Qnum Qden]. lia. }
  rewrite Hz.
  assert (Hinv : (0 < / inject_Z m)%Q).
  { apply Qinv_lt_0_compat. change 0%Q with (inject_Z 0).
    rewrite <- Zlt_Qlt. exact Hm. }
  assert (Hr0 : (0 <= inject_Z n / inject_Z m)%Q).
  { apply Qmult_le_0_compat; [|apply Qlt_le_weak; exact Hinv].
    change 0%Q with (inject_Z 0). rewrite <- Zle_Qle. exact H0. }
  assert (Hrr : (inject_Z n / inject_Z m <= inject_Z n' / inject_Z m)%Q).
  { apply Qmult_le_compat_r; [|apply Qlt_le_weak; exact Hinv].
    rewrite <- Zle_Qle. exact Hnn. }
  assert (Hr1 : (inject_Z n' / inject_Z m <= inject_Z 1)%Q).
  { apply Qle_shift_div_r.
    - change 0%Q with (inject_Z 0). rewrite <- Zlt_Qlt. exact Hm.
    - rewrite Qmult_1_l, <- Zle_Qle. exact Hnm. }
  destruct (roundToDouble_bounded_mono _ _ 1 ltac:(lia) Hr0 Hrr Hr1)
    as (v & v' & Ev & Ev' & Pv & Lv & Uv).
  rewrite Ev, Ev'. unfold mul.
  assert (H100 : (0 <= inject_Z 100)%Q) by (unfold Qle; cbn; lia).
  assert (Hs0 : (0 <= v * inject_Z 100)%Q)
    by (apply Qmult_le_0_compat; assumption).
  assert (Hss : (v * inject_Z 100 <= v' * inject_Z 100)%Q)
    by (apply Qmult_le_compat_r; assumption).
  assert (Hs1 : (v' * inject_Z 100 <= inject_Z 100)%Q).
  { rewrite <- (Qmult_1_l (inject_Z 100)) at 2.
    apply Qmult_le_compat_r; assumption. }
  destruct (roundToDouble_bounded_mono _ _ 100 ltac:(lia) Hs0 Hss Hs1)
    as (w & w' & Ew & Ew' & _ & Lw & _).
  exists w, w'. auto.
Qed.

(** X16.  With the rooms fixed, the occupancy rate never falls when more
    bookings are checked in (as long as they do not outnumber the rooms):
    neither division, nor the multiplication by 100, nor the final rounding
    reverses the order. *)
Theorem occupancyRate_monotone :
  forall (bookingsData bookingsData' : list Booking.t)
         (roomsData : list Room.t),
    (length (checkedInBookings bookingsData)
     <= length (checkedInBookings bookingsData'))%nat ->
    (length (checkedInBookings bookingsData') <= length roomsData)%nat ->
    roomsData <> [] ->
    Z.of_nat (length roomsData) <= 2 ^ 53 ->
    exists k k' : Z,
      occupancyRate bookingsData roomsData = Fin (inject_Z k)
      /\ occupancyRate bookingsData' roomsData = Fin (inject_Z k')
      /\ k <= k'.
Proof.
  intros bookingsData bookingsData' roomsData Hle Hle' Hrooms HB.
  unfold occupancyRate, ofNat. unfold checkedInBookings in *.
  assert (Hm : 0 < Z.of_nat (length roomsData)).
  { destruct roomsData; [congruence|]. cbn [length]. lia. }
  destruct (ratio_percent_mono
              (Z.of_nat (length (List.filter (hasStatus "CHECKED_IN")
                                   bookingsData)))
              (Z.of_nat (length (List.filter (hasStatus "CHECKED_IN")
                                   bookingsData')))
              (Z.of_nat (length roomsData)))
    as (w & w' & E & E' & L); try lia.
  rewrite E, E'. cbn [Math_round].
  exists (Qfloor (w + (1 # 2))), (Qfloor (w' + (1 # 2))).
  split; [reflexivity|]. split; [reflexivity|].
  apply Qfloor_resp_le. apply Qplus_le_l. exact L.
Qed.

Lemma occupancyRate_monotone_witness :
  exists k k' : Z,
    occupancyRate [] [Examples.room101; Examples.room101]
    = Fin (inject_Z k)
    /\ occupancyRate
         [Examples.booking "B" "CHECKED_IN" "2024-05-01T08:00:00"
            "2024-05-01T11:00:00" 50]
         [Examples.room101; Examples.room101]
       = Fin (inject_Z k')
    /\ k <= k'.
Proof.
  apply (occupancyRate_monotone []
           [Examples.booking "B" "CHECKED_IN" "2024-05-01T08:00:00"
              "2024-05-01T11:00:00" 50]
           [Examples.room101; Examples.room101]).
  - vm_compute. lia.
  - vm_compute. lia.
  - discriminate.
  - vm_compute. discriminate.
Defined.

(** ** The two base64 alphabets *)

Lemma replaceAll_In (c d x : Z) (s : jsstring) :
  In x (replaceAll c d s) -> x = d \/ In x s.
Proof.
  unfold replaceAll. rewrite in_map_iff. intros (y & E & Hy).
  destruct (y =? c); [left; congruence|right; congruence].
Qed.

Lemma replaceAll_twice (c d : Z) (s : jsstring) :
  c <> d -> replaceAll c d (replaceAll c d s) = replaceAll c d s.
Proof.
  intros Hcd. unfold replaceAll. rewrite map_map. apply map_ext.
  intros x. destruct (Z.eqb_spec x c) as [->|Hx].
  - destruct (Z.eqb_spec d c); [congruence|reflexivity].
  - destruct (Z.eqb_spec x c); [congruence|reflexivity].
Qed.

Lemma replaceAll_swap (c d c' d' : Z) (s : jsstring) :
  c <> c' -> d <> c' -> d' <> c ->
  replaceAll c d (replaceAll c' d' s) = replaceAll c' d' (replaceAll c d s).
Proof.
  intros H1 H2 H3. unfold replaceAll. rewrite !map_map. apply map_ext.
  intros x.
  destruct (Z.eqb_spec x c') as [E1|E1], (Z.eqb_spec x c) as [E2|E2];
    repeat match goal with
           | |- context [?a =? ?b] => destruct (Z.eqb_spec a b)
           end; congruence.
Qed.

(** X17.  The payload may be written in either base64 alphabet: replacing
    each - by + and each _ by / in the second segment of a token does not
    change what it decodes to. *)
Theorem parseJwt_either_alphabet :
  forall (h p sig : jsstring),
    ~ In 46 h -> ~ In 46 p ->
    parseJwt (h ++ 46 :: replaceAll 95 47 (replaceAll 45 43 p) ++ 46 :: sig)
    = parseJwt (h ++ 46 :: p ++ 46 :: sig).
Proof.
  intros h p sig Hh Hp.
  assert (Hp' : ~ In 46 (replaceAll 95 47 (replaceAll 45 43 p))).
  { intros C. apply replaceAll_In in C as [C|C]; [discriminate|].
    apply replaceAll_In in C as [C|C]; [discriminate|]. exact (Hp C). }
  unfold parseJwt. rewrite !split_second by eauto.
  cbn [mbind option_bind].
  rewrite (replaceAll_swap 45 43 95 47) by discriminate.
  rewrite (replaceAll_twice 95 47), (replaceAll_twice 45 43) by discriminate.
  reflexivity.
Qed.

Lemma parseJwt_either_alphabet_witness :
  parseJwt (js "a.eyJuIjoiPz8_In0.s") = parseJwt (js "a.eyJuIjoiPz8/In0.s")
  /\ parseJwt (js "a.eyJuIjoiPz8_In0.s") <> JNull.
Proof.
  split.
  - symmetry.
    apply (parseJwt_either_alphabet (js "a") (js "eyJuIjoiPz8_In0") (js "s"));
      vm_compute; intuition discriminate.
  - vm_compute. discriminate.
Defined.
